(** * LOG file filter tool: a shallow embedding of [LOGfilter_enhanced.py]

    The development follows the Python source function by function:
    [filter_log_file], [compile_keyword_patterns],
    [extract_log_files_from_zip], [process_all_log_files],
    [highlight_text], [save_results_as_text], [save_results_as_html],
    [load_config], [create_default_config] and [main] keep their names,
    and each loop and each [try] block of the source is a definition of
    its own.

    Scope of the embedding.
    - Text is a list of characters, the characters being the first 256
      code points (U+0000 to U+00FF).  The character tables of the
      Python library (lower and upper case, white space, word
      characters, matching without regard to case) are Python's on
      these 256 characters; the two characters whose capitals lie
      beyond them are named at [upper].
    - Of [re], the atoms that [re.escape] and [\b] can produce are
      embedded, together with the unescaped [.], [^] and [$].
    - The file system maps path strings, as the program builds them,
      to directories and files; paths are compared as strings, so
      archive member names are expected in the normal form ZIP writers
      give them.  A file is described by what its readers make of it;
      a configuration file holds a document of the shape the program
      expects, or text that is not JSON.
    - Effects are state passing with exceptions.  The state holds the
      file system and the trace of the run: what was printed, the
      creation and removal of the temporary directory, the files
      written.

    The first part holds the definitions, the second the properties. *)

From Stdlib Require Import Ascii String DecimalString Bool Arith Lia.
From Stdlib Require Import Permutation Sorted List.
Import ListNotations.

(* ================================================================= *)
(** ** Text *)

Definition str := list ascii.

(** Literals are written [txt "..."]. *)
Definition txt (x : string) : str := list_ascii_of_string x.
Arguments txt x%_string_scope.

Definition code (c : ascii) : nat := nat_of_ascii c.

Definition in_range (lo hi : nat) (c : ascii) : bool :=
  (lo <=? code c) && (code c <=? hi).

Definition is_upper (c : ascii) : bool := in_range 65 90 c.
Definition is_lower (c : ascii) : bool := in_range 97 122 c.
Definition is_digit (c : ascii) : bool := in_range 48 57 c.

(** The ASCII letters and digits. *)
Definition is_alnum (c : ascii) : bool := is_upper c || is_lower c || is_digit c.

(** The capital letters U+00C0 to U+00DE (without the sign U+00D7) and
    the small letters U+00E0 to U+00FE (without the sign U+00F7), which
    lie 32 apart like the ASCII ones. *)
Definition is_upper_latin (c : ascii) : bool :=
  in_range 192 214 c || in_range 216 222 c.
Definition is_lower_latin (c : ascii) : bool :=
  in_range 224 246 c || in_range 248 254 c.

(** The lower-case and the upper-case form of a character that has one
    among the 256. *)
Definition lower_char (c : ascii) : ascii :=
  if is_upper c || is_upper_latin c then ascii_of_nat (code c + 32) else c.
Definition upper_char (c : ascii) : ascii :=
  if is_lower c || is_lower_latin c then ascii_of_nat (code c - 32) else c.

(** [str.lower] *)
Definition lower (x : str) : str := map lower_char x.

(** [str.upper].  The sharp s (U+00DF) becomes [SS].  The capitals of
    the micro sign (U+00B5) and of y with diaeresis (U+00FF) are not
    among the 256 characters: the two stand for their capitals, which,
    like them, occur in none of the words the program compares
    upper-cased text with. *)
Definition upper (x : str) : str :=
  flat_map (fun c => if Ascii.eqb c "223" then txt "SS" else [upper_char c]) x.

(** [str.isspace]: TAB, LF, VT, FF, CR, the separators FS, GS, RS, US,
    the space, the next-line control U+0085 and the no-break space
    U+00A0. *)
Definition is_space (c : ascii) : bool :=
  in_range 9 13 c || in_range 28 32 c ||
  Ascii.eqb c "133" || Ascii.eqb c "160".

Fixpoint str_eqb (x y : str) : bool :=
  match x, y with
  | [], [] => true
  | c :: x', d :: y' => Ascii.eqb c d && str_eqb x' y'
  | _, _ => false
  end.

(** [x.startswith(p)] *)
Fixpoint startswith (p x : str) : bool :=
  match p, x with
  | [], _ => true
  | c :: p', d :: x' => Ascii.eqb c d && startswith p' x'
  | _ :: _, [] => false
  end.

(** [x.endswith(p)] *)
Definition endswith (p x : str) : bool := startswith (rev p) (rev x).

(** [p in x] on strings *)
Fixpoint contains (p x : str) : bool :=
  startswith p x ||
  match x with
  | [] => false
  | _ :: x' => contains p x'
  end.

(** [c in x] for a single character *)
Definition has_char (c : ascii) (x : str) : bool := existsb (Ascii.eqb c) x.

Fixpoint lstrip (x : str) : str :=
  match x with
  | [] => []
  | c :: x' => if is_space c then lstrip x' else x
  end.

Definition rstrip (x : str) : str := rev (lstrip (rev x)).

(** [x.strip()] removes white space at both ends. *)
Definition strip (x : str) : str := rstrip (lstrip x).

(** [x.replace(c, r)] for a one-character [c] *)
Definition replace_char (c : ascii) (r : str) (x : str) : str :=
  flat_map (fun d => if Ascii.eqb d c then r else [d]) x.

(** [str(n)] for a natural number *)
Definition str_of_nat (n : nat) : str :=
  txt (NilEmpty.string_of_uint (Nat.to_uint n)).

Definition newline : ascii := "010"%char.
Definition dquote : ascii := "034"%char.
Definition esc : ascii := "027"%char.
Definition backslash : ascii := "092"%char.
Definition slash : ascii := "/"%char.

(* ================================================================= *)
(** ** The fragment of Python's [re] the program uses

    Patterns are built by [re.escape], possibly between two [\b], and
    compiled with [re.IGNORECASE].  The parser below knows the atoms
    such a pattern can contain and, so that escaping has something to
    protect against, the unescaped metacharacters [.], [^] and [$];
    quantifiers, groups, classes and alternation are outside the
    fragment and make it answer [None], as does a pattern [re.compile]
    rejects. *)

Module Re.

Inductive atom :=
| Lit (c : ascii)      (* a literal character *)
| AnyChar              (* [.] *)
| Bol                  (* [^] *)
| Eol                  (* [$] *)
| WordB                (* [\b] *)
| NotWordB.            (* [\B] *)

Record pattern := Pattern { atoms : list atom; ignorecase : bool }.

(** The characters [re.escape] puts a backslash before:
    [()[]{}?*+-|^$\.&~#], the space, TAB, LF, CR, VT and FF. *)
Definition special_chars : str :=
  txt "()[]{}?*+-|^$\.&~# " ++
  map ascii_of_nat [9; 10; 13; 11; 12].

Definition is_special (c : ascii) : bool := has_char c special_chars.

Definition escape (x : str) : str :=
  flat_map (fun c => if is_special c then [backslash; c] else [c]) x.

(** Unescaped characters that start a construct outside the fragment. *)
Definition is_operator (c : ascii) : bool := has_char c (txt "*+?{()[|").

Fixpoint parse (p : str) : option (list atom) :=
  match p with
  | [] => Some []
  | c :: rest =>
      if Ascii.eqb c backslash then
        match rest with
        | [] => None
        | d :: rest' =>
            if Ascii.eqb d "b" then option_map (cons WordB) (parse rest')
            else if Ascii.eqb d "B" then option_map (cons NotWordB) (parse rest')
            else if is_alnum d then None
            else option_map (cons (Lit d)) (parse rest')
        end
      else if Ascii.eqb c "." then option_map (cons AnyChar) (parse rest)
      else if Ascii.eqb c "^" then option_map (cons Bol) (parse rest)
      else if Ascii.eqb c "$" then option_map (cons Eol) (parse rest)
      else if is_operator c then None
      else option_map (cons (Lit c)) (parse rest)
  end.

(** [re.compile(p)] and [re.compile(p, re.IGNORECASE)] *)
Definition compile (p : str) (ic : bool) : option pattern :=
  option_map (fun a => Pattern a ic) (parse p).

(** [\w] of a [str] pattern: the letters and the numeric characters of
    the 256, and the underscore.  Besides the ASCII ones these are the
    ordinal indicators U+00AA and U+00BA, the micro sign, the
    superscripts U+00B2, U+00B3 and U+00B9, the fractions U+00BC to
    U+00BE, and the letters from U+00C0 on. *)
Definition is_word (c : ascii) : bool :=
  is_alnum c || Ascii.eqb c "_" ||
  existsb (Nat.eqb (code c)) [170; 178; 179; 181; 185; 186; 188; 189; 190] ||
  in_range 192 214 c || in_range 216 246 c || in_range 248 255 c.

Definition is_word_opt (c : option ascii) : bool :=
  match c with Some d => is_word d | None => false end.

(** With [re.IGNORECASE] two characters match when their lower-case
    forms are the same. *)
Definition char_eq (ic : bool) (c d : ascii) : bool :=
  if ic then Ascii.eqb (lower_char c) (lower_char d) else Ascii.eqb c d.

(** [$] matches at the end of the text and before a final newline. *)
Definition at_end (x : str) : bool :=
  match x with
  | [] => true
  | [c] => Ascii.eqb c newline
  | _ => false
  end.

(** [match_here ic pat prev x]: does [pat] match at the position whose
    previous character is [prev] ([None] at the start of the text) and
    whose remaining text is [x]?  The answer is the number of characters
    the match covers. *)
Fixpoint match_here (ic : bool) (pat : list atom) (prev : option ascii)
         (x : str) : option nat :=
  match pat with
  | [] => Some 0
  | Lit c :: pat' =>
      match x with
      | d :: x' =>
          if char_eq ic c d
          then option_map S (match_here ic pat' (Some d) x')
          else None
      | [] => None
      end
  | AnyChar :: pat' =>
      match x with
      | d :: x' =>
          if Ascii.eqb d newline then None
          else option_map S (match_here ic pat' (Some d) x')
      | [] => None
      end
  | Bol :: pat' =>
      match prev with
      | None => match_here ic pat' prev x
      | Some _ => None
      end
  | Eol :: pat' => if at_end x then match_here ic pat' prev x else None
  | WordB :: pat' =>
      if xorb (is_word_opt prev) (is_word_opt (hd_error x))
      then match_here ic pat' prev x else None
  | NotWordB :: pat' =>
      if xorb (is_word_opt prev) (is_word_opt (hd_error x))
      then None else match_here ic pat' prev x
  end.

Definition matches_at (p : pattern) (prev : option ascii) (x : str)
  : option nat :=
  match_here (ignorecase p) (atoms p) prev x.

(** The scan of [pattern.search]: the leftmost position where the
    pattern matches, as (offset, length). *)
Fixpoint search_from (p : pattern) (prev : option ascii) (x : str)
         (pos : nat) {struct x} : option (nat * nat) :=
  match matches_at p prev x with
  | Some len => Some (pos, len)
  | None =>
      match x with
      | [] => None
      | c :: x' => search_from p (Some c) x' (S pos)
      end
  end.

Definition search (p : pattern) (x : str) : option (nat * nat) :=
  search_from p None x 0.

(** [pattern.sub(template, x)] where the template puts the matched text
    [\g<0>] between two fixed strings: [repl] receives the matched text.
    Matches are replaced from left to right and do not overlap; [skip]
    counts the characters of the current match still to be passed over.
    An empty match is replaced and the scan moves one character on. *)
Fixpoint sub_from (p : pattern) (repl : str -> str) (prev : option ascii)
         (skip : nat) (x : str) {struct x} : str :=
  match skip with
  | S k =>
      match x with
      | [] => []
      | c :: x' => sub_from p repl (Some c) k x'
      end
  | O =>
      match matches_at p prev x with
      | Some (S k) =>
          repl (firstn (S k) x) ++
          match x with
          | [] => []
          | c :: x' => sub_from p repl (Some c) k x'
          end
      | Some O =>
          repl [] ++
          match x with
          | [] => []
          | c :: x' => c :: sub_from p repl (Some c) 0 x'
          end
      | None =>
          match x with
          | [] => []
          | c :: x' => c :: sub_from p repl (Some c) 0 x'
          end
      end
  end.

Definition sub (p : pattern) (repl : str -> str) (x : str) : str :=
  sub_from p repl None 0 x.

End Re.

(* ================================================================= *)
(** ** Pattern Compiler and the line predicate *)

(** A list comprehension whose body may raise. *)
Fixpoint map_opt {A B} (f : A -> option B) (l : list A) : option (list B) :=
  match l with
  | [] => Some []
  | a :: l' =>
      match f a with
      | None => None
      | Some b => option_map (cons b) (map_opt f l')
      end
  end.

(** [[re.compile(re.escape(keyword), re.IGNORECASE) for keyword in keywords]] *)
Definition compile_keyword_patterns (keywords : list str)
  : option (list Re.pattern) :=
  map_opt (fun keyword => Re.compile (Re.escape keyword) true) keywords.

Definition is_some {A} (o : option A) : bool :=
  match o with Some _ => true | None => false end.

(** [any(pattern.search(line) for pattern in keyword_patterns)] *)
Definition any_pattern_matches (keyword_patterns : list Re.pattern)
           (line : str) : bool :=
  existsb (fun pattern => is_some (Re.search pattern line)) keyword_patterns.

(* ================================================================= *)
(** ** [os.path] (POSIX flavour) *)

Module Path.

Definition is_nil {A} (l : list A) : bool :=
  match l with [] => true | _ => false end.

(** [os.path.join(a, b)] *)
Definition join (a b : str) : str :=
  if startswith [slash] b then b
  else if is_nil a || endswith [slash] a then a ++ b
  else a ++ slash :: b.

(** [p[:i], p[i:]] for [i = p.rfind('/') + 1] *)
Fixpoint split_last (p : str) : str * str :=
  match p with
  | [] => ([], [])
  | c :: p' =>
      let '(h, t) := split_last p' in
      match h with
      | [] => if Ascii.eqb c slash then ([c], t) else ([], c :: t)
      | _ => (c :: h, t)
      end
  end.

Fixpoint drop_slashes (x : str) : str :=
  match x with
  | [] => []
  | c :: x' => if Ascii.eqb c slash then drop_slashes x' else x
  end.

(** [head.rstrip('/')] unless [head] consists of slashes only *)
Definition trim_head (h : str) : str :=
  if forallb (Ascii.eqb slash) h then h else rev (drop_slashes (rev h)).

(** [os.path.dirname(p)] *)
Definition dirname (p : str) : str := trim_head (fst (split_last p)).

(** [os.path.basename(p)] *)
Definition basename (p : str) : str := snd (split_last p).

(** The name cut at its last dot: ([root], [ext]) with [ext] empty or
    starting at that dot. *)
Fixpoint split_dot (t : str) : str * str :=
  match t with
  | [] => ([], [])
  | c :: t' =>
      let '(r, e) := split_dot t' in
      match e with
      | [] => if Ascii.eqb c "." then ([], c :: r) else (c :: r, [])
      | _ => (c :: r, e)
      end
  end.

(** [os.path.splitext(p)]: the extension starts at the last dot of the
    last component, unless only dots come before it there. *)
Definition splitext (p : str) : str * str :=
  let '(h, t) := split_last p in
  let '(r, e) := split_dot t in
  if is_nil e || forallb (Ascii.eqb ".") r then (p, [])
  else (h ++ r, e).

(** [x.split('/')] *)
Fixpoint split_slash (x : str) : list str :=
  match x with
  | [] => [[]]
  | c :: x' =>
      if Ascii.eqb c slash then [] :: split_slash x'
      else match split_slash x' with
           | [] => [[c]]
           | w :: ws => (c :: w) :: ws
           end
  end.

(** ['/'.join(parts)] *)
Fixpoint join_slash (parts : list str) : str :=
  match parts with
  | [] => []
  | [w] => w
  | w :: ws => w ++ slash :: join_slash ws
  end.

(** The directories above [p], nearest first: the prefixes of [p] that
    end right before a separator ([acc] holds, reversed, what was read
    so far). *)
Fixpoint parents_from (acc : str) (p : str) : list str :=
  match p with
  | [] => []
  | c :: p' =>
      parents_from (c :: acc) p' ++
      (if Ascii.eqb c slash && negb (is_nil (drop_slashes acc))
       then [rev (drop_slashes acc)] else [])
  end.

Definition parents (p : str) : list str := parents_from [] p.

End Path.

(* ================================================================= *)
(** ** The world: files, archives, configuration documents *)

(** A member of a ZIP archive: its stored name and its data, [None]
    when the stored data is damaged and cannot be extracted. *)
Record member := Member { m_name : str; m_data : option str }.

Inductive Colors := GREEN | RED | BLUE | YELLOW | RESET.

(** The ANSI codes of [class Colors]. *)
Definition ansi (c : Colors) : str :=
  esc :: match c with
         | GREEN => txt "[92m"
         | RED => txt "[91m"
         | BLUE => txt "[94m"
         | YELLOW => txt "[93m"
         | RESET => txt "[0m"
         end.

(** A Python [dict] with string keys: the items in insertion order, a
    key at most once. *)
Definition dict (V : Type) := list (str * V).

Fixpoint dict_get {V} (d : dict V) (k : str) : option V :=
  match d with
  | [] => None
  | (k', v) :: d' => if str_eqb k' k then Some v else dict_get d' k
  end.

(** [d[k] = v] *)
Fixpoint dict_set {V} (d : dict V) (k : str) (v : V) : dict V :=
  match d with
  | [] => [(k, v)]
  | (k', v') :: d' =>
      if str_eqb k' k then (k', v) :: d' else (k', v') :: dict_set d' k v
  end.

(** A configuration document: a JSON object whose optional field
    [keywords] is a list of strings and whose optional field
    [highlight_words] maps strings to strings, as [json.load] returns
    it.  Documents of another shape (another type at the top, or in one
    of the two fields) are outside the embedding. *)
Record config := Config {
  cfg_keywords : option (list str);
  cfg_highlight_words : option (dict str)
}.

(** A regular file, described by what each reader makes of its bytes:
    the text a permissive UTF-8 reader decodes, the members [zipfile]
    finds ([None]: not a ZIP archive), and the configuration document
    [json.load] parses ([None]: the text is not well-formed JSON, and
    [json.load] raises). *)
Record file := File {
  f_text : str;
  f_archive : option (list member);
  f_config : option config
}.

Definition text_file (x : str) : file := File x None None.

Inductive node := Dir | Reg (f : file).

(** The file system: path strings, as the program builds them, to
    nodes, in directory-listing order. *)
Definition filesystem := list (str * node).

Module FS.

Fixpoint lookup (fs : filesystem) (p : str) : option node :=
  match fs with
  | [] => None
  | (q, n) :: fs' => if str_eqb q p then Some n else lookup fs' p
  end.

Fixpoint set (fs : filesystem) (p : str) (n : node) : filesystem :=
  match fs with
  | [] => [(p, n)]
  | (q, m) :: fs' =>
      if str_eqb q p then (q, n) :: fs' else (q, m) :: set fs' p n
  end.

Definition remove (fs : filesystem) (p : str) : filesystem :=
  filter (fun e => negb (str_eqb (fst e) p)) fs.

(** [os.path.exists], [os.path.isfile], [os.path.isdir] *)
Definition exists_ (fs : filesystem) (p : str) : bool := is_some (lookup fs p).
Definition isfile (fs : filesystem) (p : str) : bool :=
  match lookup fs p with Some (Reg _) => true | _ => false end.
Definition isdir (fs : filesystem) (p : str) : bool :=
  match lookup fs p with Some Dir => true | _ => false end.

(** [p] lies below the directory [d]. *)
Definition below (d p : str) : bool :=
  startswith (Path.join d []) p && negb (str_eqb (Path.join d []) p).

(** The names [os.listdir(d)] returns: the entries directly in [d]. *)
Definition entry_name (d p : str) : list str :=
  if below d p then
    let name := skipn (length (Path.join d [])) p in
    if has_char slash name then [] else [name]
  else [].

Definition names_in (fs : filesystem) (d : str) : list str :=
  flat_map (fun e => entry_name d (fst e)) fs.

(** What [shutil.rmtree(d)] leaves. *)
Definition without_tree (fs : filesystem) (d : str) : filesystem :=
  filter (fun e => negb (str_eqb (fst e) d || below d (fst e))) fs.

End FS.

(* ================================================================= *)
(** ** Effects: a state and exception monad

    The state is the file system together with the trace of what the
    run did: every [print], the creation and the removal of the
    temporary directory, and every report file written. *)

Inductive exn :=
| FileNotFoundError | IsADirectoryError | NotADirectoryError
| KeyError | BadZipFile | ShutilError | JSONDecodeError | ReError | OSError.

(** One constructor per [print] of the program. *)
Inductive message :=
| MsgProcessing (name : str)                 (* Processing {name}... *)
| MsgFileNotFound (path : str)               (* Error: File '{path}' not found. *)
| MsgReadError (e : exn)                     (* Error reading file: {e} *)
| MsgNoLogInZip (zip : str)                  (* No LOG files found in {zip} *)
| MsgFoundInZip (n : nat) (zip : str)        (* Found {n} LOG files in {zip} *)
| MsgBadZip (zip : str)                      (* Error: {zip} is not a valid ZIP file. *)
| MsgExtractError (zip : str) (e : exn)      (* Error extracting from ZIP file {zip}: {e} *)
| MsgNothingFound                            (* No .LOG or .ZIP files found ... *)
| MsgFound (logs zips : nat)                 (* Found {logs} .LOG files and {zips} .ZIP files ... *)
| MsgCreatedTemp (d : str)                   (* Created temporary directory ...: {d} *)
| MsgProcessingZip (zip : str)               (* Processing ZIP file: {zip} *)
| MsgMatches (n : nat) (name : str)          (*   Found {n} matching lines in {name} *)
| MsgNoMatches (name : str)                  (*   No matches found in {name} *)
| MsgRemovedTemp (d : str)                   (* Removed temporary directory: {d} *)
| MsgSavedText (path : str)                  (* All filtered content saved to '{path}' *)
| MsgTextWriteError (e : exn)                (* Error writing to text output file: {e} *)
| MsgSavedHtml (path : str)                  (* HTML results with highlighting saved to ... *)
| MsgHtmlWriteError (e : exn)                (* Error writing to HTML output file: {e} *)
| MsgConfigError (e : exn).                  (* Error loading configuration: {e} *)

Definition is_error (m : message) : bool :=
  match m with
  | MsgFileNotFound _ | MsgReadError _ | MsgBadZip _ | MsgExtractError _ _
  | MsgTextWriteError _ | MsgHtmlWriteError _ | MsgConfigError _ => true
  | _ => false
  end.

Inductive event :=
| Printed (m : message)
| Mkdtemp (d : str)
| Rmtree (d : str)
| Wrote (path : str) (content : str).

Record state := State { st_fs : filesystem; st_trace : list event }.

Inductive res (A : Type) := Ok (a : A) | Raise (e : exn).
Arguments Ok {A} a.
Arguments Raise {A} e.

Definition M (A : Type) := state -> res A * state.

Definition ret {A} (a : A) : M A := fun st => (Ok a, st).
Definition raise {A} (e : exn) : M A := fun st => (Raise e, st).

Definition bind {A B} (c : M A) (k : A -> M B) : M B :=
  fun st =>
    match c st with
    | (Ok a, st') => k a st'
    | (Raise e, st') => (Raise e, st')
    end.

Notation "x <- c ;; k" := (bind c (fun x => k))
  (at level 61, c at next level, right associativity).
Notation "c ;;; k" := (bind c (fun _ => k))
  (at level 61, right associativity).

(** [try: c  except Exception as e: h e] *)
Definition catch {A} (c : M A) (h : exn -> M A) : M A :=
  fun st =>
    match c st with
    | (Ok a, st') => (Ok a, st')
    | (Raise e, st') => h e st'
    end.

Definition emit (e : event) : M unit :=
  fun st => (Ok tt, State (st_fs st) (st_trace st ++ [e])).

Definition print (m : message) : M unit := emit (Printed m).

Definition get_fs : M filesystem := fun st => (Ok (st_fs st), st).
Definition put_fs (fs : filesystem) : M unit :=
  fun st => (Ok tt, State fs (st_trace st)).

(** [os.path.exists(p)] *)
Definition path_exists (p : str) : M bool :=
  fs <- get_fs ;; ret (FS.exists_ fs p).

(** The error of the system for a path that is not there.  The system
    follows the path from its root, and the first step that is not a
    directory decides: [NotADirectoryError] when the path runs through
    a regular file there, [FileNotFoundError] when nothing is there. *)
Definition missing (fs : filesystem) (p : str) : exn :=
  match find (fun d => negb (FS.isdir fs d)) (rev (Path.parents p)) with
  | Some d => if FS.isfile fs d then NotADirectoryError
              else FileNotFoundError
  | None => FileNotFoundError
  end.

(** Opening [p] for reading and reading all of it as text. *)
Definition read_text (p : str) : M str :=
  fs <- get_fs ;;
  match FS.lookup fs p with
  | Some (Reg f) => ret (f_text f)
  | Some Dir => raise IsADirectoryError
  | None => raise (missing fs p)
  end.

(** [open(p, 'w')] followed by the writes that make up [content]: [p]
    must not be empty nor a directory, and the directory of [p] must
    exist. *)
Definition write_text (p content : str) : M unit :=
  fs <- get_fs ;;
  if Path.is_nil p then raise FileNotFoundError
  else if FS.isdir fs p then raise IsADirectoryError
  else if Path.is_nil (Path.dirname p) || FS.isdir fs (Path.dirname p) then
    put_fs (FS.set fs p (Reg (text_file content))) ;;;
    emit (Wrote p content)
  else raise (missing fs p).

(** [os.listdir(d)] *)
Definition listdir (d : str) : M (list str) :=
  fs <- get_fs ;;
  if FS.isdir fs d then ret (FS.names_in fs d)
  else if FS.exists_ fs d then raise NotADirectoryError
  else raise (missing fs d).

(** [tempfile.mkdtemp()]: [tmp] is the directory the system hands out, a
    path that did not exist before; [None] when it has none to give. *)
Definition mkdtemp (tmp : option str) : M str :=
  match tmp with
  | None => raise OSError
  | Some d =>
      fs <- get_fs ;;
      put_fs (FS.set fs d Dir) ;;;
      emit (Mkdtemp d) ;;;
      ret d
  end.

(** [shutil.rmtree(d)] *)
Definition rmtree (d : str) : M unit :=
  fs <- get_fs ;;
  if FS.isdir fs d then
    put_fs (FS.without_tree fs d) ;;;
    emit (Rmtree d)
  else raise NotADirectoryError.

(* ================================================================= *)
(** ** Line Filter *)

(** The lines a text-mode file object yields: [\r\n] and [\r] are read
    as [\n], and every line keeps its terminator. *)
Fixpoint translate_newlines (x : str) : str :=
  match x with
  | [] => []
  | c :: x' =>
      if Ascii.eqb c "013" then
        match x' with
        | d :: x'' =>
            if Ascii.eqb d newline then newline :: translate_newlines x''
            else newline :: translate_newlines x'
        | [] => [newline]
        end
      else c :: translate_newlines x'
  end.

Fixpoint split_lines (x : str) : list str :=
  match x with
  | [] => []
  | c :: x' =>
      if Ascii.eqb c newline then [c] :: split_lines x'
      else match split_lines x' with
           | [] => [[c]]
           | l :: ls => (c :: l) :: ls
           end
  end.

Definition readlines (text : str) : list str :=
  split_lines (translate_newlines text).

(** A Match: (file name, line number, content). *)
Definition Match := (str * nat * str)%type.

(** The body of [for line_number, line in enumerate(file, 1)]. *)
Fixpoint filter_lines (filename : str) (keyword_patterns : list Re.pattern)
         (line_number : nat) (lines : list str) : list Match :=
  match lines with
  | [] => []
  | line :: rest =>
      (if any_pattern_matches keyword_patterns line
       then [(filename, line_number, strip line)] else []) ++
      filter_lines filename keyword_patterns (S line_number) rest
  end.

Definition filter_log_file (file_path : str)
           (keyword_patterns : list Re.pattern)
           (highlight_words : option (dict Colors)) : M (list Match) :=
  catch
    (text <- read_text file_path ;;
     print (MsgProcessing (Path.basename file_path)) ;;;
     ret (filter_lines (Path.basename file_path) keyword_patterns 1
                       (readlines text)))
    (fun e =>
       match e with
       | FileNotFoundError => print (MsgFileNotFound file_path) ;;; ret []
       | _ => print (MsgReadError e) ;;; ret []
       end).

(* ================================================================= *)
(** ** Highlighter *)

Definition truthy {A} (l : list A) : bool := negb (Path.is_nil l).

(** [sorted(items, key=lambda x: len(x[0]), reverse=True)]: a stable
    sort, items of equal length keep their order. *)
Fixpoint insert_by_length {V} (e : str * V) (l : list (str * V))
  : list (str * V) :=
  match l with
  | [] => [e]
  | h :: t =>
      if length (fst h) <=? length (fst e) then e :: h :: t
      else h :: insert_by_length e t
  end.

Definition sorted_by_length {V} (items : list (str * V)) : list (str * V) :=
  fold_right insert_by_length [] items.

(** [text.replace('&', '&amp;').replace('<', '&lt;').replace('>', '&gt;')] *)
Definition html_escape (text : str) : str :=
  replace_char ">" (txt "&gt;")
    (replace_char "<" (txt "&lt;")
       (replace_char "&" (txt "&amp;") text)).

(** [word.lower() in ["match", "mismatch"] and " " not in word] *)
Definition wants_boundaries (word : str) : bool :=
  (str_eqb (lower word) (txt "match") || str_eqb (lower word) (txt "mismatch"))
  && negb (has_char " " word).

Definition word_pattern (word : str) : option Re.pattern :=
  if wants_boundaries word
  then Re.compile (txt "\b" ++ Re.escape word ++ txt "\b") true
  else Re.compile (Re.escape word) true.

Definition css_class (word : str) : str :=
  if str_eqb (lower word) (txt "match") && negb (has_char " " word)
  then txt "match"
  else if str_eqb (lower word) (txt "mismatch") then txt "mismatch"
  else if contains (txt "configuration") (lower word) then txt "configuration"
  else txt "highlight".

(** The replacement [<span class="{css_class}">\g<0></span>]. *)
Definition span (cls : str) (matched : str) : str :=
  txt "<span class=" ++ dquote :: cls ++ dquote :: txt ">" ++
  matched ++ txt "</span>".

(** The replacement [{color}\g<0>{Colors.RESET}]. *)
Definition colored (color : Colors) (matched : str) : str :=
  ansi color ++ matched ++ ansi RESET.

(** The body of [for word, color in sorted_items]; [None] when
    [re.compile] raises. *)
Fixpoint apply_terms (sorted_items : list (str * Colors)) (html_mode : bool)
         (result : str) : option str :=
  match sorted_items with
  | [] => Some result
  | (word, color) :: rest =>
      match word_pattern word with
      | None => None
      | Some pattern =>
          apply_terms rest html_mode
            (if html_mode
             then Re.sub pattern (span (css_class word)) result
             else Re.sub pattern (colored color) result)
      end
  end.

(** [highlight_words] is [None] for Python's [None]. *)
Definition highlight_text (text : str) (highlight_words : option (dict Colors))
           (html_mode : bool) : option str :=
  match highlight_words with
  | None => Some text
  | Some items =>
      if negb (truthy items) then Some text
      else
        let result := if html_mode then html_escape text else text in
        apply_terms (sorted_by_length items) html_mode result
  end.

(* ================================================================= *)
(** ** Report Writers *)

Definition text_line (m : Match) : str :=
  let '(filename, line_number, content) := m in
  filename ++ txt " - Line " ++ str_of_nat line_number ++ txt ": " ++
  content ++ [newline].

Definition text_report (filtered_lines : list Match) : str :=
  txt "Total matches found: " ++ str_of_nat (length filtered_lines) ++
  [newline] ++ repeat "="%char 50 ++ [newline; newline] ++
  flat_map text_line filtered_lines.

Definition save_results_as_text (filtered_lines : list Match)
           (output_file : str) : M unit :=
  catch
    (write_text output_file (text_report filtered_lines) ;;;
     print (MsgSavedText output_file))
    (fun e => print (MsgTextWriteError e)).

Definition unlines (l : list str) : str :=
  flat_map (fun x => x ++ [newline]) l.

Definition quoted (x : str) : str := dquote :: x ++ [dquote].

Definition html_header (count : nat) : str :=
  unlines
    [ txt "<!DOCTYPE html>";
      txt "<html>";
      txt "<head>";
      txt "    <title>LOG File Filtering Results</title>";
      txt "    <style>";
      txt "        body { font-family: Arial, sans-serif; margin: 20px; }";
      txt "        h1 { color: #333; }";
      txt "        .result-line { margin: 5px 0; padding: 5px; border-bottom: 1px solid #eee; font-family: monospace; white-space: pre-wrap; }";
      txt "        .file-info { color: #555; font-weight: bold; }";
      txt "        .match { background-color: #CCFFCC; color: #008800; font-weight: bold; }";
      txt "        .mismatch { background-color: #FFCCCC; color: #CC0000; font-weight: bold; }";
      txt "        .configuration { background-color: #CCE5FF; color: #0066CC; font-weight: bold; }";
      txt "        .highlight { background-color: #FFFFCC; color: #888800; font-weight: bold; }";
      txt "        .summary { margin: 20px 0; padding: 10px; background-color: #f0f0f0; border-radius: 5px; }";
      txt "    </style>";
      txt "</head>";
      txt "<body>";
      txt "    <h1>LOG File Filtering Results</h1>";
      txt "    <div class=" ++ quoted (txt "summary") ++ txt ">";
      txt "        <p>Total matches found: " ++ str_of_nat count ++ txt "</p>";
      txt "    </div>" ].

Definition html_footer : str := txt "</body>" ++ newline :: txt "</html>".

Definition html_block (m : Match) (html_content : str) : str :=
  let '(filename, line_number, _) := m in
  unlines
    [ txt "    <div class=" ++ quoted (txt "result-line") ++ txt ">";
      txt "        <span class=" ++ quoted (txt "file-info") ++ txt ">" ++
        filename ++ txt " - Line " ++ str_of_nat line_number ++
        txt ":</span> " ++ html_content;
      txt "    </div>" ].

(** The blocks written by the loop over the matches; the second
    component is the exception that stopped the loop, if any. *)
Fixpoint html_blocks (filtered_lines : list Match)
         (highlight_words : option (dict Colors)) : str * option exn :=
  match filtered_lines with
  | [] => ([], None)
  | m :: rest =>
      match highlight_text (snd m) highlight_words true with
      | None => ([], Some ReError)
      | Some html_content =>
          let '(blocks, e) := html_blocks rest highlight_words in
          (html_block m html_content ++ blocks, e)
      end
  end.

Definition save_results_as_html (filtered_lines : list Match)
           (output_file : str) (highlight_words : option (dict Colors))
  : M unit :=
  catch
    (let '(blocks, e) := html_blocks filtered_lines highlight_words in
     match e with
     | None =>
         write_text output_file
           (html_header (length filtered_lines) ++ blocks ++ html_footer) ;;;
         print (MsgSavedHtml output_file)
     | Some e =>
         write_text output_file
           (html_header (length filtered_lines) ++ blocks) ;;;
         raise e
     end)
    (fun e => print (MsgHtmlWriteError e)).

(* ================================================================= *)
(** ** Configuration *)

Definition default_keywords : list str :=
  [txt "CCP: EPK"; txt "Configuration file:"].

Definition default_highlight : dict Colors :=
  [ (txt "mismatch", RED); (txt "match", GREEN);
    (txt "Configuration file:", BLUE) ].

(** The [if color.upper() == ...] chain. *)
Definition color_of_name (color : str) : Colors :=
  if str_eqb (upper color) (txt "RED") then RED
  else if str_eqb (upper color) (txt "GREEN") then GREEN
  else if str_eqb (upper color) (txt "BLUE") then BLUE
  else if str_eqb (upper color) (txt "YELLOW") then YELLOW
  else RESET.

(** [open(config_file)] and [json.load]. *)
Definition json_load (p : str) : M config :=
  fs <- get_fs ;;
  match FS.lookup fs p with
  | Some (Reg f) =>
      match f_config f with
      | Some c => ret c
      | None => raise JSONDecodeError
      end
  | Some Dir => raise IsADirectoryError
  | None => raise (missing fs p)
  end.

(** [config.get(key, default)] *)
Definition get_default {A} (field : option A) (default : A) : A :=
  match field with Some a => a | None => default end.

Definition load_config (config_file : str) : M (list str * dict Colors) :=
  found <- path_exists config_file ;;
  if negb (truthy config_file) || negb found
  then ret (default_keywords, default_highlight)
  else
    catch
      (config <- json_load config_file ;;
       let keywords := get_default (cfg_keywords config) default_keywords in
       let highlight_words :=
         fold_left
           (fun hw item => dict_set hw (fst item) (color_of_name (snd item)))
           (get_default (cfg_highlight_words config) [])
           [] in
       ret (keywords, highlight_words))
      (fun e =>
         print (MsgConfigError e) ;;;
         ret (default_keywords, default_highlight)).

(* ================================================================= *)
(** ** Archive Extractor *)

(** [zipfile.ZipFile(zip_path, 'r')] *)
Definition zip_open (zip_path : str) : M (list member) :=
  fs <- get_fs ;;
  match FS.lookup fs zip_path with
  | Some (Reg f) =>
      match f_archive f with
      | Some members => ret members
      | None => raise BadZipFile
      end
  | Some Dir => raise IsADirectoryError
  | None => raise (missing fs zip_path)
  end.

(** [zip_ref.getinfo(name)]: of two members with one name the later
    one is kept. *)
Fixpoint getinfo (members : list member) (name : str) : option member :=
  match members with
  | [] => None
  | m :: rest =>
      match getinfo rest name with
      | Some m' => Some m'
      | None => if str_eqb (m_name m) name then Some m else None
      end
  end.

(** The member name as [extract] uses it below the target directory:
    empty, [.] and [..] components are dropped. *)
Definition sanitize (name : str) : str :=
  Path.join_slash
    (filter (fun w => negb (Path.is_nil w || str_eqb w (txt ".")
                            || str_eqb w (txt "..")))
            (Path.split_slash name)).

(** [os.makedirs] along the chain of directories above the target,
    nearest first: it stops at the first one that exists and creates
    the missing ones on the way back. *)
Fixpoint makedirs (chain : list str) (fs : filesystem) : res filesystem :=
  match chain with
  | [] => Ok fs
  | d :: chain' =>
      match FS.lookup fs d with
      | Some Dir => Ok fs
      | Some (Reg _) => Raise NotADirectoryError
      | None =>
          match makedirs chain' fs with
          | Ok fs' => Ok (FS.set fs' d Dir)
          | Raise e => Raise e
          end
      end
  end.

(** [zip_ref.extract(name, temp_dir)] for a member that is a file. *)
Definition zip_extract (members : list member) (name temp_dir : str)
  : M unit :=
  match getinfo members name with
  | None => raise KeyError
  | Some m =>
      let target := Path.join temp_dir (sanitize name) in
      fs <- get_fs ;;
      match makedirs (Path.parents target) fs with
      | Raise e => raise e
      | Ok fs1 =>
          put_fs fs1 ;;;
          match m_data m with
          | None => raise BadZipFile
          | Some data =>
              if FS.isdir fs1 target || Path.is_nil (sanitize name)
              then raise IsADirectoryError
              else put_fs (FS.set fs1 target (Reg (text_file data)))
          end
      end
  end.

(** [shutil.move(src, dst)] for a source that is a regular file: into
    [dst] when that is a directory, else onto [dst], replacing what is
    there.  The extractor moves the file it has just extracted; a
    directory as source is outside this embedding and raises. *)
Definition shutil_move (src dst : str) : M unit :=
  fs <- get_fs ;;
  let real_dst :=
    if FS.isdir fs dst then Path.join dst (Path.basename src) else dst in
  if FS.isdir fs dst && FS.exists_ fs real_dst then raise ShutilError
  else
    match FS.lookup fs src with
    | Some (Reg f) => put_fs (FS.set (FS.remove fs src) real_dst (Reg f))
    | Some Dir => raise ShutilError
    | None => raise (missing fs src)
    end.

(** The body of [for log_file in log_files], up to the path it appends
    to [extracted_files]. *)
Definition extract_member (members : list member)
           (zip_path temp_dir log_file : str) : M str :=
  zip_extract members log_file temp_dir ;;;
  let extracted_path := Path.join temp_dir log_file in
  if truthy (Path.dirname log_file) then
    taken <- path_exists (Path.join temp_dir (Path.basename log_file)) ;;
    let new_path :=
      if taken then
        let base_name := fst (Path.splitext (Path.basename log_file)) in
        let ext := snd (Path.splitext log_file) in
        Path.join temp_dir
          (base_name ++ txt "_" ++ Path.basename zip_path ++ ext)
      else Path.join temp_dir (Path.basename log_file) in
    shutil_move extracted_path new_path ;;;
    ret new_path
  else ret extracted_path.

(** The loop over [log_files].  [extracted_files] is the list the
    function returns also after an exception, so the loop hands back
    what it has collected together with the exception that stopped it. *)
Fixpoint extract_members (members : list member) (zip_path temp_dir : str)
         (log_files : list str) (extracted_files : list str)
  : state -> (list str * option exn) * state :=
  fun st =>
    match log_files with
    | [] => ((extracted_files, None), st)
    | log_file :: rest =>
        match extract_member members zip_path temp_dir log_file st with
        | (Ok p, st') =>
            extract_members members zip_path temp_dir rest
                            (extracted_files ++ [p]) st'
        | (Raise e, st') => ((extracted_files, Some e), st')
        end
    end.

(** The two [except] clauses; both fall through to
    [return extracted_files]. *)
Definition extract_handler (zip_path : str) (e : exn)
           (extracted_files : list str) : M (list str) :=
  match e with
  | BadZipFile => print (MsgBadZip (Path.basename zip_path))
  | _ => print (MsgExtractError (Path.basename zip_path) e)
  end ;;;
  ret extracted_files.

(** [f.upper().endswith(suffix)] *)
Definition has_suffix (suffix : string) (f : str) : bool :=
  endswith (txt suffix) (upper f).

Definition extract_log_files_from_zip (zip_path temp_dir : str)
  : M (list str) :=
  fun st =>
    match zip_open zip_path st with
    | (Raise e, st1) => extract_handler zip_path e [] st1
    | (Ok members, st1) =>
        let file_list := map m_name members in
        let log_files := filter (has_suffix ".LOG") file_list in
        if negb (truthy log_files) then
          (print (MsgNoLogInZip (Path.basename zip_path)) ;;; ret []) st1
        else
          match print (MsgFoundInZip (length log_files)
                                     (Path.basename zip_path)) st1 with
          | (Raise e, st2) => extract_handler zip_path e [] st2
          | (Ok _, st2) =>
              match extract_members members zip_path temp_dir
                                    log_files [] st2 with
              | ((extracted_files, None), st3) => (Ok extracted_files, st3)
              | ((extracted_files, Some e), st3) =>
                  extract_handler zip_path e extracted_files st3
              end
          end
    end.

(* ================================================================= *)
(** ** File Discovery and the run *)

(** The loop over [zip_files]; [log_files] is the list being extended. *)
Fixpoint extract_all (zip_files : list str) (temp_dir : str)
         (log_files : list str) : M (list str) :=
  match zip_files with
  | [] => ret log_files
  | zip_file :: rest =>
      print (MsgProcessingZip (Path.basename zip_file)) ;;;
      extracted_logs <- extract_log_files_from_zip zip_file temp_dir ;;
      extract_all rest temp_dir (log_files ++ extracted_logs)
  end.

(** The loop over [log_files], with [results] and [all_filtered_lines]. *)
Fixpoint scan_all (log_files : list str) (keyword_patterns : list Re.pattern)
         (highlight_words : option (dict Colors))
         (results : dict (list Match)) (all_filtered_lines : list Match)
  : M (dict (list Match) * list Match) :=
  match log_files with
  | [] => ret (results, all_filtered_lines)
  | log_file_path :: rest =>
      let log_file := Path.basename log_file_path in
      filtered_lines <-
        filter_log_file log_file_path keyword_patterns highlight_words ;;
      if truthy filtered_lines then
        print (MsgMatches (length filtered_lines) log_file) ;;;
        scan_all rest keyword_patterns highlight_words
                 (dict_set results log_file filtered_lines)
                 (all_filtered_lines ++ filtered_lines)
      else
        print (MsgNoMatches log_file) ;;;
        scan_all rest keyword_patterns highlight_words
                 results all_filtered_lines
  end.

(** The entries of [folder_path] that are files with the given suffix,
    as full paths. *)
Definition files_with_suffix (fs : filesystem) (folder_path : str)
           (names : list str) (suffix : string) : list str :=
  map (Path.join folder_path)
      (filter (fun f => FS.isfile fs (Path.join folder_path f)
                        && has_suffix suffix f) names).

(** The [try] block.  Besides its outcome it yields the value of the
    variable [temp_dir] when the block is left, which the [finally]
    clause reads. *)
Definition try_block (zip_files log_files : list str)
           (keyword_patterns : list Re.pattern)
           (highlight_words : option (dict Colors)) (tmp : option str)
  : state -> (res (dict (list Match) * list Match) * option str) * state :=
  fun st =>
    if truthy zip_files then
      match mkdtemp tmp st with
      | (Raise e, st1) => ((Raise e, None), st1)
      | (Ok temp_dir, st1) =>
          let '(r, st2) :=
            (print (MsgCreatedTemp temp_dir) ;;;
             log_files' <- extract_all zip_files temp_dir log_files ;;
             scan_all log_files' keyword_patterns highlight_words [] [])
              st1 in
          ((r, Some temp_dir), st2)
      end
    else
      let '(r, st1) :=
        scan_all log_files keyword_patterns highlight_words [] [] st in
      ((r, None), st1).

(** The [finally] clause. *)
Definition finally_block (temp_dir : option str) : M unit :=
  match temp_dir with
  | None => ret tt
  | Some d =>
      found <- path_exists d ;;
      if truthy d && found then
        rmtree d ;;; print (MsgRemovedTemp d)
      else ret tt
  end.

(** The statements after the [finally] clause. *)
Definition write_reports (results : dict (list Match))
           (all_filtered_lines : list Match) (output_txt output_html : str)
           (highlight_words : option (dict Colors))
  : M (dict (list Match)) :=
  if truthy all_filtered_lines then
    save_results_as_text all_filtered_lines output_txt ;;;
    save_results_as_html all_filtered_lines output_html highlight_words ;;;
    ret results
  else ret results.

Definition process_all_log_files (folder_path : str) (keywords : list str)
           (output_txt output_html : str)
           (highlight_words : option (dict Colors)) (process_zips : bool)
           (tmp : option str) : M (dict (list Match)) :=
  match compile_keyword_patterns keywords with
  | None => raise ReError
  | Some keyword_patterns =>
      names <- listdir folder_path ;;
      fs <- get_fs ;;
      let log_files := files_with_suffix fs folder_path names ".LOG" in
      let zip_files :=
        if process_zips
        then files_with_suffix fs folder_path names ".ZIP" else [] in
      if negb (truthy log_files) && negb (truthy zip_files) then
        print MsgNothingFound ;;; ret []
      else
        print (MsgFound (length log_files) (length zip_files)) ;;;
        fun st =>
          let '((r, temp_dir), st1) :=
            try_block zip_files log_files keyword_patterns
                      highlight_words tmp st in
          match finally_block temp_dir st1 with
          | (Raise e, st2) => (Raise e, st2)
          | (Ok _, st2) =>
              match r with
              | Raise e => (Raise e, st2)
              | Ok (results, all_filtered_lines) =>
                  write_reports results all_filtered_lines
                                output_txt output_html highlight_words st2
              end
          end
  end.

(* ================================================================= *)
(** ** The default configuration file *)

(** The document [create_default_config] writes. *)
Definition default_config : config :=
  Config (Some [txt "CCP: EPK"; txt "Configuration file:"])
         (Some [ (txt "mismatch", txt "RED"); (txt "match", txt "GREEN");
                 (txt "Configuration file:", txt "BLUE") ]).

(** A string as [json.dumps] writes it: between double quotes, with a
    backslash before a double quote and before a backslash.  (Control
    characters, which it writes as escapes of their own, do not occur
    in the strings of the default document.) *)
Definition json_string (x : str) : str :=
  quoted (flat_map (fun c => if Ascii.eqb c dquote || Ascii.eqb c backslash
                             then [backslash; c] else [c]) x).

(** The items of a container, each on a line of its own at [indent],
    with commas between them. *)
Fixpoint json_items (indent : str) (items : list str) : str :=
  match items with
  | [] => []
  | [x] => newline :: indent ++ x
  | x :: rest => newline :: indent ++ x ++ txt "," ++ json_items indent rest
  end.

(** A list or an object written with [indent=4] inside a container at
    [indent]; an empty one is written without line breaks. *)
Definition json_container (opening closing : ascii) (indent : str)
           (items : list str) : str :=
  match items with
  | [] => [opening; closing]
  | _ => opening :: json_items (indent ++ txt "    ") items ++
         newline :: indent ++ [closing]
  end.

(** [json.dumps(c, indent=4)] *)
Definition json_dumps (c : config) : str :=
  json_container "{" "}" []
    ((match cfg_keywords c with
      | Some keywords =>
          [ json_string (txt "keywords") ++ txt ": " ++
            json_container "[" "]" (txt "    ") (map json_string keywords) ]
      | None => []
      end) ++
     (match cfg_highlight_words c with
      | Some highlight_words =>
          [ json_string (txt "highlight_words") ++ txt ": " ++
            json_container "{" "}" (txt "    ")
              (map (fun item => json_string (fst item) ++ txt ": " ++
                                json_string (snd item))
                   highlight_words) ]
      | None => []
      end)).

(** [open(p, 'w')] followed by [json.dump(c, f, indent=4)]: the file
    holds the text of the document, and [json.load] finds the document
    in it.  An empty path cannot be opened. *)
Definition json_dump (p : str) (c : config) : M unit :=
  fs <- get_fs ;;
  if Path.is_nil p then raise FileNotFoundError
  else if FS.isdir fs p then raise IsADirectoryError
  else if Path.is_nil (Path.dirname p) || FS.isdir fs (Path.dirname p) then
    put_fs (FS.set fs p (Reg (File (json_dumps c) None (Some c))))
  else raise (missing fs p).

(* ================================================================= *)
(** ** The command line

    [main] and [create_default_config] print lines of their own.  The
    trace of [main] holds them in the order printed, between the events
    of the functions [main] calls. *)

(** One constructor per [print] of [create_default_config] and [main]. *)
Inductive main_message :=
| MsgConfigCreated (path : str)        (* Default configuration file created at '{path}' *)
| MsgConfigCreateError (e : exn)       (* Error creating configuration file: {e} *)
| MsgConfigNotFound (path : str)       (* Configuration file not found. Creating default at '{path}' *)
| MsgSummary                           (* Summary: *)
| MsgTotals (matches files : nat)      (* Total of {matches} matches found across {files} files. *)
| MsgResultsSaved (text html : str)    (* Results saved to '{text}' and '{html}' *)
| MsgSampleHeader                      (* Sample of results with highlighting: *)
| MsgSample (line : str)               (* {f_name} - Line {line_number}: {highlighted_content} *)
| MsgMore (n : nat)                    (* ...and {n} more results. *)
| MsgNoMatchesAnywhere.                (* No matches found in any files. *)

Inductive main_event :=
| Ran (e : event)             (* an event of a function [main] calls *)
| Said (m : main_message).    (* a line of [main] or [create_default_config] *)

Record main_state := MainState {
  ms_fs : filesystem;
  ms_trace : list main_event
}.

Definition Main (A : Type) := main_state -> res A * main_state.

Definition main_ret {A} (a : A) : Main A := fun ms => (Ok a, ms).

Definition main_bind {A B} (c : Main A) (k : A -> Main B) : Main B :=
  fun ms =>
    match c ms with
    | (Ok a, ms') => k a ms'
    | (Raise e, ms') => (Raise e, ms')
    end.

Notation "x <~ c ;; k" := (main_bind c (fun x => k))
  (at level 61, c at next level, right associativity).
Notation "c ;;~ k" := (main_bind c (fun _ => k))
  (at level 61, right associativity).

Definition main_catch {A} (c : Main A) (h : exn -> Main A) : Main A :=
  fun ms =>
    match c ms with
    | (Ok a, ms') => (Ok a, ms')
    | (Raise e, ms') => h e ms'
    end.

(** A call of one of the functions above: it works on the file system
    of [main], and its events join the trace. *)
Definition call {A} (c : M A) : Main A :=
  fun ms =>
    let '(r, st) := c (State (ms_fs ms) []) in
    (r, MainState (st_fs st) (ms_trace ms ++ map Ran (st_trace st))).

Definition say (m : main_message) : Main unit :=
  fun ms => (Ok tt, MainState (ms_fs ms) (ms_trace ms ++ [Said m])).

Definition create_default_config (config_file : str) : Main unit :=
  main_catch
    (call (json_dump config_file default_config) ;;~
     say (MsgConfigCreated config_file))
    (fun e => say (MsgConfigCreateError e)).

(** What [parser.parse_args()] returns. *)
Record args := Args {
  arg_directory : str;
  arg_output_prefix : str;
  arg_config : str;
  arg_create_config : bool;
  arg_no_zip : bool
}.

(** [sum(len(lines) for lines in results.values())] *)
Definition total_matches (results : dict (list Match)) : nat :=
  list_sum (map (fun item => length (snd item)) results).

(** [f"{f_name} - Line {line_number}: {highlighted_content}"] *)
Definition sample_line (f_name : str) (line_number : nat)
           (highlighted_content : str) : str :=
  f_name ++ txt " - Line " ++ str_of_nat line_number ++ txt ": " ++
  highlighted_content.

(** The inner loop of the sample, [for f_name, line_number, content in
    result_lines]; it returns [count] as it stands when the loop is
    left, at its end or by [break]. *)
Fixpoint sample_lines (result_lines : list Match)
         (highlight_words : option (dict Colors)) (count : nat) : Main nat :=
  match result_lines with
  | [] => main_ret count
  | (f_name, line_number, content) :: rest =>
      match highlight_text content highlight_words false with
      | None => fun ms => (Raise ReError, ms)
      | Some highlighted_content =>
          say (MsgSample (sample_line f_name line_number
                                      highlighted_content)) ;;~
          let count := S count in
          if 10 <=? count then main_ret count
          else sample_lines rest highlight_words count
      end
  end.

(** The outer loop, [for filename, result_lines in results.items()]. *)
Fixpoint sample_results (items : list (str * list Match))
         (highlight_words : option (dict Colors))
         (total_matches count : nat) : Main unit :=
  match items with
  | [] => main_ret tt
  | (filename, result_lines) :: rest =>
      count <~ sample_lines result_lines highlight_words count ;;
      if 10 <=? count then say (MsgMore (total_matches - 10))
      else sample_results rest highlight_words total_matches count
  end.

(** [main], from the parsed arguments on; [tmp] is the directory
    [tempfile.mkdtemp] has to give. *)
Definition main (a : args) (tmp : option str) : Main unit :=
  if arg_create_config a then create_default_config (arg_config a)
  else
    loaded <~ call (load_config (arg_config a)) ;;
    let '(keywords, highlight_words) := loaded in
    found <~ call (path_exists (arg_config a)) ;;
    (if negb found then
       say (MsgConfigNotFound (arg_config a)) ;;~
       create_default_config (arg_config a)
     else main_ret tt) ;;~
    let output_txt := arg_output_prefix a ++ txt ".txt" in
    let output_html := arg_output_prefix a ++ txt ".html" in
    results <~ call (process_all_log_files
                       (arg_directory a) keywords output_txt output_html
                       (Some highlight_words) (negb (arg_no_zip a)) tmp) ;;
    say MsgSummary ;;~
    if truthy results then
      let total := total_matches results in
      say (MsgTotals total (length results)) ;;~
      say (MsgResultsSaved output_txt output_html) ;;~
      if 0 <? total then
        say MsgSampleHeader ;;~
        sample_results results (Some highlight_words) total 0
      else main_ret tt
    else say MsgNoMatchesAnywhere.

(* ================================================================= *)
(** ** Notions used in the statements *)

(** The words of the specification: keyword [k] occurs in line [L]
    ignoring case, that is, some stretch [m] of [L] equals [k] once both
    are lower-cased. *)
Definition occurs_ignoring_case (k L : str) : Prop :=
  exists pre m post, L = pre ++ m ++ post /\ lower m = lower k.

(** The pattern a keyword compiles to: its characters as literals,
    case ignored. *)
Definition literal (k : str) : Re.pattern := Re.Pattern (map Re.Lit k) true.

(** A log file with the lines [axb] and [xA.By]. *)
Definition dotted_log : filesystem :=
  [ (txt "/logs", Dir);
    (txt "/logs/ab.LOG",
     Reg (text_file (txt "axb" ++ newline :: txt "xA.By" ++ [newline]))) ].

(** A folder with one log file of three lines, the second indented. *)
Definition sample_log : filesystem :=
  [ (txt "/logs", Dir);
    (txt "/logs/app.LOG",
     Reg (text_file (txt "hello" ++ newline :: txt "  CCP: EPK found  " ++
                     newline :: txt "nothing"))) ].

(** The matcher of term [T] finds an occurrence in [text]. *)
Definition term_occurs (T text : str) : bool :=
  match word_pattern T with
  | Some p => is_some (Re.search p text)
  | None => false
  end.

(** The line contains one of [&], [<], [>]. *)
Definition has_markup_chars (L : str) : bool :=
  has_char "&" L || has_char "<" L || has_char ">" L.

(** The pattern of a special term: its literals between two word
    boundaries. *)
Definition bounded (k : str) : Re.pattern :=
  Re.Pattern (Re.WordB :: map Re.Lit k ++ [Re.WordB]) true.

(** A [highlight_words] mapping with every style name replaced by its
    style. *)
Definition styled (d : dict str) : dict Colors :=
  map (fun item => (fst item, color_of_name (snd item))) d.

(** A file system that holds one configuration document. *)
Definition config_fs (c : config) : filesystem :=
  [ (txt "log_filter_config.json", Reg (File [] None (Some c))) ].

(** Kinds of events. *)
Definition is_print (e : event) : bool :=
  match e with Printed _ => true | _ => false end.

(** The events that create or remove the temporary directory. *)
Definition is_lifecycle (e : event) : bool :=
  match e with Mkdtemp _ | Rmtree _ => true | _ => false end.

(** The events that write a report file. *)
Definition is_wrote (e : event) : bool :=
  match e with Wrote _ _ => true | _ => false end.

(** What an extraction into [t] leaves alone: every directory, and
    every regular file that is neither below [t] nor named [*.LOG]. *)
Definition kept (t : str) (fs fs' : filesystem) : Prop :=
  (forall p, FS.lookup fs p = Some Dir -> FS.lookup fs' p = Some Dir) /\
  (forall p f, FS.lookup fs p = Some (Reg f) ->
               FS.below t p = false -> has_suffix ".LOG" p = false ->
               FS.lookup fs' p = Some (Reg f)).

(** A step that only prints and keeps the file system as above. *)
Definition extends (t : str) (st st' : state) : Prop :=
  (exists new, st_trace st' = st_trace st ++ new /\
               forallb is_print new = true) /\
  kept t (st_fs st) (st_fs st').

(** No event of [new] creates or removes the temporary directory. *)
Definition no_lifecycle (new : list event) : Prop :=
  forallb (fun e => negb (is_lifecycle e)) new = true.

(** The plain log files and the containers File Discovery finds in
    [folder], and the message that reports their numbers. *)
Definition discovered_logs (fs : filesystem) (folder : str) : list str :=
  files_with_suffix fs folder (FS.names_in fs folder) ".LOG".

Definition discovered_zips (fs : filesystem) (folder : str)
           (process_zips : bool) : list str :=
  if process_zips
  then files_with_suffix fs folder (FS.names_in fs folder) ".ZIP" else [].

Definition found_message (fs : filesystem) (folder : str)
           (process_zips : bool) : event :=
  Printed (MsgFound (length (discovered_logs fs folder))
                  (length (discovered_zips fs folder process_zips))).

(** The events of the [finally] clause. *)
Definition removal (t : str) : list event :=
  if truthy t then [Rmtree t; Printed (MsgRemovedTemp t)] else [].

(** No entry of the file system is [t] or lies below [t]: what
    [mkdtemp] promises of the directory it hands out. *)
Definition fresh (fs : filesystem) (t : str) : bool :=
  forallb (fun e => negb (str_eqb (fst e) t || FS.below t (fst e))) fs.

(** A directory path as [mkdtemp] returns it: not empty, no slash at
    its end. *)
Definition normal_dir (t : str) : bool :=
  truthy t && negb (endswith [slash] t).

(** Nothing lies below [t]. *)
Definition empty_dir (fs : filesystem) (t : str) : bool :=
  forallb (fun e => negb (FS.below t (fst e))) fs.

(** The three members of the container of the claim. *)
Definition two_logs_and_a_readme (da db : str) (dr : option str)
  : list member :=
  [ Member (txt "a/x.LOG") (Some da);
    Member (txt "b/x.LOG") (Some db);
    Member (txt "readme.txt") dr ].

(** The scratch directory after the first and after the second member
    of [two_logs_and_a_readme] has been extracted and moved. *)
Definition after_first (fs : filesystem) (t da : str) : filesystem :=
  FS.set
    (FS.remove
       (FS.set (FS.set fs (t ++ slash :: txt "a") Dir)
               (t ++ slash :: txt "a/x.LOG") (Reg (text_file da)))
       (t ++ slash :: txt "a/x.LOG"))
    (t ++ slash :: txt "x.LOG") (Reg (text_file da)).

Definition after_second (fs : filesystem) (t renamed da db : str)
  : filesystem :=
  FS.set
    (FS.remove
       (FS.set (FS.set (after_first fs t da) (t ++ slash :: txt "b") Dir)
               (t ++ slash :: txt "b/x.LOG") (Reg (text_file db)))
       (t ++ slash :: txt "b/x.LOG"))
    (t ++ slash :: renamed) (Reg (text_file db)).

(** A folder with one plain log file and three containers: one with
    two colliding members, one that is not an archive, and one whose
    second member is damaged. *)
Definition sample_folder : filesystem :=
  [ (txt "/logs", Dir);
    (txt "/logs/app.LOG",
     Reg (text_file (txt "hello" ++ newline :: txt "CCP: EPK found" ++
                     newline :: txt "nothing")));
    (txt "/logs/bundle.zip",
     Reg (File [] (Some (two_logs_and_a_readme
                           (txt "Configuration file: one") (txt "two")
                           (Some (txt "read me")))) None));
    (txt "/logs/broken.ZIP", Reg (text_file (txt "not an archive")));
    (txt "/logs/more.zip",
     Reg (File [] (Some [Member (txt "top.LOG") (Some (txt "three"));
                         Member (txt "d/e.LOG") None]) None)) ].

(** A run over [sample_folder] with both reports wanted and
    [/tmp/scratch] as the temporary directory. *)
Definition sample_run (keywords : list str) : res (dict (list Match)) * state :=
  process_all_log_files (txt "/logs") keywords (txt "out.txt")
    (txt "out.html") (Some default_highlight) true
    (Some (txt "/tmp/scratch")) (State sample_folder []).

(** An empty scratch directory and, elsewhere, a container with two
    colliding members. *)
Definition sample_scratch : filesystem :=
  [ (txt "/tmp/scratch", Dir);
    (txt "/logs/bundle.zip",
     Reg (File [] (Some (two_logs_and_a_readme (txt "one") (txt "two") None))
               None)) ].

(** A folder with two containers: [first.zip] holds [x.LOG], and
    [bundle.zip] holds [a/x.LOG], [b/x.LOG] and [readme.txt]. *)
Definition shared_scratch_folder : filesystem :=
  [ (txt "/logs", Dir);
    (txt "/logs/first.zip",
     Reg (File [] (Some [Member (txt "x.LOG") (Some (txt "CCP: EPK zero"))])
               None));
    (txt "/logs/bundle.zip",
     Reg (File [] (Some (two_logs_and_a_readme
                           (txt "CCP: EPK one") (txt "CCP: EPK two")
                           (Some (txt "read me")))) None)) ].

(** What [html_escape] makes of one character. *)
Definition escape_char (c : ascii) : str :=
  if Ascii.eqb c "&" then txt "&amp;"
  else if Ascii.eqb c "<" then txt "&lt;"
  else if Ascii.eqb c ">" then txt "&gt;"
  else [c].

(** The line number of a Match. *)
Definition line_number_of (m : Match) : nat := snd (fst m).

(** The items of [items] whose term has length [n]. *)
Definition of_length {V} (n : nat) (items : list (str * V)) : list (str * V) :=
  filter (fun item => length (fst item) =? n) items.

(** The text holds no line break: neither a line feed nor a carriage
    return. *)
Definition one_line (x : str) : bool :=
  forallb (fun c => negb (Ascii.eqb c newline || Ascii.eqb c "013")) x.

(** The file name and the content of the Match hold no line break. *)
Definition clean (m : Match) : bool :=
  one_line (fst (fst m)) && one_line (snd m).

(** [open(p, 'w')] succeeds: [p] is not empty and no directory, and
    the directory it names, if it names one, exists. *)
Definition writable (fs : filesystem) (p : str) : bool :=
  negb (Path.is_nil p) && negb (FS.isdir fs p) &&
  (Path.is_nil (Path.dirname p) || FS.isdir fs (Path.dirname p)).

(** The exception [open(p, 'w')] raises otherwise. *)
Definition open_error (fs : filesystem) (p : str) : exn :=
  if Path.is_nil p then FileNotFoundError
  else if FS.isdir fs p then IsADirectoryError
  else missing fs p.

(** The file system after an attempt to write [content] to [p]. *)
Definition after_write (fs : filesystem) (p content : str) : filesystem :=
  if writable fs p then FS.set fs p (Reg (text_file content)) else fs.

(** The highlighted content of a Match in the structured report. *)
Definition html_content_of (hw : option (dict Colors)) (m : Match) : str :=
  match highlight_text (snd m) hw true with
  | Some html_content => html_content
  | None => []
  end.

(** The complete structured report. *)
Definition html_document (filtered_lines : list Match)
           (hw : option (dict Colors)) : str :=
  html_header (length filtered_lines) ++
  flat_map (fun m => html_block m (html_content_of hw m)) filtered_lines ++
  html_footer.

(** The trace of an attempt to write a report. *)
Definition report_events (fs : filesystem) (p content : str)
           (saved : message) (failed : exn -> message) : list event :=
  if writable fs p then [Wrote p content; Printed saved]
  else [Printed (failed (open_error fs p))].

(** The node at [p] after an attempt to write a report there. *)
Definition report_node (fs : filesystem) (p content : str) : option node :=
  if writable fs p then Some (Reg (text_file content)) else FS.lookup fs p.

(** A file system with the directory [/out]. *)
Definition out_dir : filesystem := [ (txt "/out", Dir) ].

(** [load_config] can use the file at [p]: the path is not empty and
    names a regular file whose text is a JSON document. *)
Definition usable_config (fs : filesystem) (p : str) : bool :=
  truthy p &&
  match FS.lookup fs p with
  | Some (Reg f) => is_some (f_config f)
  | _ => false
  end.

(** [create_default_config] can write the file at [p]. *)
Definition creatable (fs : filesystem) (p : str) : bool :=
  truthy p && writable fs p.

(** The line of the console sample for a Match. *)
Definition sample_of (hw : option (dict Colors)) (m : Match) : main_event :=
  Said (MsgSample
          (sample_line (fst (fst m)) (snd (fst m))
             (match highlight_text (snd m) hw false with
              | Some highlighted_content => highlighted_content
              | None => []
              end))).

(** All the matches of [results], in the order of its items. *)
Definition all_of (results : dict (list Match)) : list Match :=
  flat_map snd results.

(** The matches of the file at [p], as the file system [fs] has it. *)
Definition file_matches (fs : filesystem) (pats : list Re.pattern) (p : str)
  : list Match :=
  match FS.lookup fs p with
  | Some (Reg f) =>
      filter_lines (Path.basename p) pats 1 (readlines (f_text f))
  | _ => []
  end.

(** What [filter_log_file] prints for [p]. *)
Definition read_message (fs : filesystem) (p : str) : message :=
  match FS.lookup fs p with
  | Some (Reg _) => MsgProcessing (Path.basename p)
  | Some Dir => MsgReadError IsADirectoryError
  | None => match missing fs p with
            | FileNotFoundError => MsgFileNotFound p
            | e => MsgReadError e
            end
  end.

(** What the loop over the files prints for [p]. *)
Definition count_message (fs : filesystem) (pats : list Re.pattern) (p : str)
  : message :=
  if truthy (file_matches fs pats p)
  then MsgMatches (length (file_matches fs pats p)) (Path.basename p)
  else MsgNoMatches (Path.basename p).

Definition scan_events (fs : filesystem) (pats : list Re.pattern)
           (files : list str) : list event :=
  flat_map (fun p => [Printed (read_message fs p);
                      Printed (count_message fs pats p)]) files.

(** [results] after the file at [p] has been scanned. *)
Definition record (fs : filesystem) (pats : list Re.pattern)
           (results : dict (list Match)) (p : str) : dict (list Match) :=
  if truthy (file_matches fs pats p)
  then dict_set results (Path.basename p) (file_matches fs pats p)
  else results.

(** A folder with two plain log files. *)
Definition two_plain_logs : filesystem :=
  [ (txt "/logs", Dir);
    (txt "/out", Dir);
    (txt "/logs/a.LOG",
     Reg (text_file (txt "boot" ++ newline :: txt "CCP: EPK one")));
    (txt "/logs/b.log",
     Reg (text_file (txt "ccp: epk two" ++ newline :: txt "done"))) ].

(** A file system with two log files of one base name. *)
Definition same_base_name : filesystem :=
  [ (txt "/a/x.LOG", Reg (text_file (txt "CCP: EPK first")));
    (txt "/b/x.LOG", Reg (text_file (txt "CCP: EPK second"))) ].

(** The path lies directly in the directory [t]: it is [t] joined with
    one name. *)
Definition directly_in (t p : str) : Prop :=
  exists name, p = Path.join t name /\ name <> [] /\
               has_char slash name = false.

(** Every path that does not lie below [t] is in [fs'] what it is in
    [fs]. *)
Definition frame (t : str) (fs fs' : filesystem) : Prop :=
  forall q, FS.below t q = false -> FS.lookup fs' q = FS.lookup fs q.

(** The names of the [.LOG] members of the archive are in the normal
    form ZIP writers give them: relative, without empty, [.] or [..]
    components. *)
Definition well_formed_archive (f : file) : bool :=
  match f_archive f with
  | Some members =>
      forallb (fun m => negb (has_suffix ".LOG" (m_name m))
                        || str_eqb (sanitize (m_name m)) (m_name m))
              members
  | None => true
  end.

(** A temporary directory that holds a log file already, and the
    archive member that is extracted next. *)
Definition used_scratch : filesystem :=
  [ (txt "/tmp/scratch", Dir);
    (txt "/tmp/scratch/app.LOG", Reg (text_file (txt "from the first"))) ].

(** A file system with a log file outside the temporary directory. *)
Definition outside_log : filesystem :=
  [ (txt "/tmp/scratch", Dir);
    (txt "/var/log/x.LOG", Reg (text_file (txt "kept for years"))) ].

(** The file [create_default_config] writes. *)
Definition default_config_file : file :=
  File (json_dumps default_config) None (Some default_config).

(** [x] is [y] with some characters left out: every character of [x]
    is in [y], in the same order. *)
Inductive embeds : str -> str -> Prop :=
| embeds_nil : embeds [] []
| embeds_skip (x y : str) (c : ascii) : embeds x y -> embeds x (c :: y)
| embeds_keep (x y : str) (c : ascii) : embeds x y -> embeds (c :: x) (c :: y).

(** The text the terms are applied to. *)
Definition base_text (text : str) (html_mode : bool) : str :=
  if html_mode then html_escape text else text.

(** The highlight specification holds a term. *)
Definition in_force (hw : option (dict Colors)) : bool :=
  match hw with
  | Some items => truthy items
  | None => false
  end.

(** The file system after the two reports of the aggregate [all] have
    been attempted. *)
Definition after_reports (fs : filesystem) (output_txt output_html : str)
           (all : list Match) (hw : option (dict Colors)) : filesystem :=
  if truthy all then
    after_write (after_write fs output_txt (text_report all))
                output_html (html_document all hw)
  else fs.

(** The small and the capital e with acute accent (U+00E9, U+00C9). *)
Definition e_acute : ascii := "233"%char.
Definition E_acute : ascii := "201"%char.

(* ================================================================= *)
(** * Properties *)

(** ** Text *)

Lemma str_eqb_eq (x y : str) : str_eqb x y = true <-> x = y.
Proof.
  revert y; induction x as [|c x IH]; intros [|d y]; simpl;
    try (split; (discriminate || reflexivity)).
  rewrite andb_true_iff, Ascii.eqb_eq, IH.
  split; [intros [-> ->]; reflexivity | intros H; inversion H; auto].
Qed.

Lemma str_eqb_refl (x : str) : str_eqb x x = true.
Proof. apply str_eqb_eq; reflexivity. Qed.

Lemma str_eqb_neq (x y : str) : str_eqb x y = false <-> x <> y.
Proof.
  rewrite <- str_eqb_eq. destruct (str_eqb x y); split; congruence.
Qed.

(** A property of all 256 characters is settled by running through them. *)
Ltac each_char c :=
  destruct c as [[] [] [] [] [] [] [] []]; vm_compute; try reflexivity;
  try discriminate; auto.

(** ** The regular expressions of the program *)

Lemma special_not_alnum (c : ascii) :
  Re.is_special c = true ->
  Ascii.eqb c "b" = false /\ Ascii.eqb c "B" = false /\ is_alnum c = false.
Proof. each_char c. Qed.

Lemma plain_is_literal (c : ascii) :
  Re.is_special c = false ->
  Ascii.eqb c backslash = false /\ Ascii.eqb c "." = false /\
  Ascii.eqb c "^" = false /\ Ascii.eqb c "$" = false /\
  Re.is_operator c = false.
Proof. each_char c. Qed.

(** Escaping works: whatever the keyword, the escaped pattern parses to
    the keyword's own characters, each a literal. *)
Lemma parse_escape_app (k rest : str) :
  Re.parse (Re.escape k ++ rest) =
  option_map (app (map Re.Lit k)) (Re.parse rest).
Proof.
  induction k as [|c k IH]; simpl.
  - destruct (Re.parse rest); reflexivity.
  - destruct (Re.is_special c) eqn:Hc.
    + destruct (special_not_alnum c Hc) as (Hb & HB & Ha).
      cbn [app Re.parse]. rewrite Ascii.eqb_refl, Hb, HB, Ha, IH.
      destruct (Re.parse rest); reflexivity.
    + destruct (plain_is_literal c Hc) as (H1 & H2 & H3 & H4 & H5).
      cbn [app Re.parse]. rewrite H1, H2, H3, H4, H5, IH.
      destruct (Re.parse rest); reflexivity.
Qed.

Lemma parse_escape (k : str) : Re.parse (Re.escape k) = Some (map Re.Lit k).
Proof.
  rewrite <- (app_nil_r (Re.escape k)), parse_escape_app. simpl.
  now rewrite app_nil_r.
Qed.

Lemma compile_escape (k : str) :
  Re.compile (Re.escape k) true = Some (Re.Pattern (map Re.Lit k) true).
Proof. unfold Re.compile. now rewrite parse_escape. Qed.

(** A sequence of literals matches exactly the texts that begin with
    the keyword, case apart. *)
Lemma match_literals (k : str) : forall prev x n,
  Re.match_here true (map Re.Lit k) prev x = Some n <->
  n = length k /\ exists m rest, x = m ++ rest /\ lower m = lower k.
Proof.
  induction k as [|c k IH]; intros prev x n; simpl.
  - split.
    + intros H; inversion H; split; auto. exists [], x; auto.
    + intros [-> _]; reflexivity.
  - destruct x as [|d x].
    + split; [discriminate|].
      intros (_ & m & rest & Hx & Hm).
      destruct m; [discriminate | discriminate].
    + unfold Re.char_eq.
      destruct (Ascii.eqb (lower_char c) (lower_char d)) eqn:Hcd.
      * apply Ascii.eqb_eq in Hcd.
        destruct (Re.match_here true (map Re.Lit k) (Some d) x) as [n'|] eqn:Hm;
          simpl.
        -- apply IH in Hm. destruct Hm as (-> & m & rest & -> & Hm).
           split.
           ++ intros H; inversion H; split; auto.
              exists (d :: m), rest; split; auto. simpl; congruence.
           ++ intros (-> & _); reflexivity.
        -- split; [discriminate|].
           intros (-> & m & rest & Hx & Hl).
           destruct m as [|e m]; [discriminate|].
           simpl in Hx, Hl. inversion Hx; inversion Hl; subst.
           assert (Hk : Re.match_here true (map Re.Lit k) (Some e) (m ++ rest)
                        = Some (length k))
             by (apply IH; split; auto; exists m, rest; auto).
           congruence.
      * split; [discriminate|].
        intros (-> & m & rest & Hx & Hl).
        destruct m as [|e m]; [discriminate|].
        simpl in Hx, Hl. inversion Hx; inversion Hl; subst.
        apply Ascii.eqb_neq in Hcd. congruence.
Qed.

Lemma matches_literal_iff (k : str) (prev : option ascii) (x : str) :
  is_some (Re.matches_at (literal k) prev x) = true <->
  exists m rest, x = m ++ rest /\ lower m = lower k.
Proof.
  unfold Re.matches_at, literal; simpl. split.
  - destruct (Re.match_here true (map Re.Lit k) prev x) eqn:H; [|discriminate].
    intros _. apply match_literals in H. tauto.
  - intros H.
    assert (Hm : Re.match_here true (map Re.Lit k) prev x = Some (length k))
      by (apply match_literals; auto).
    now rewrite Hm.
Qed.

Lemma search_literal_iff (k : str) : forall x prev pos,
  is_some (Re.search_from (literal k) prev x pos) = true <->
  occurs_ignoring_case k x.
Proof.
  induction x as [|c x IH]; intros prev pos; simpl.
  - destruct (Re.matches_at (literal k) prev []) eqn:Hm.
    + split; [intros _ | reflexivity].
      assert (H : is_some (Re.matches_at (literal k) prev []) = true)
        by now rewrite Hm.
      apply matches_literal_iff in H. destruct H as (m & rest & Hx & Hl).
      exists [], m, rest; auto.
    + split; [discriminate|]. intros (pre & m & post & Hx & Hl).
      symmetry in Hx. apply app_eq_nil in Hx. destruct Hx as [-> Hx].
      assert (H : is_some (Re.matches_at (literal k) prev []) = true)
        by (apply matches_literal_iff; exists m, post; auto).
      rewrite Hm in H. discriminate.
  - destruct (Re.matches_at (literal k) prev (c :: x)) eqn:Hm.
    + split; [intros _ | reflexivity].
      assert (H : is_some (Re.matches_at (literal k) prev (c :: x)) = true)
        by now rewrite Hm.
      apply matches_literal_iff in H. destruct H as (m & rest & Hx & Hl).
      exists [], m, rest; auto.
    + rewrite IH. split.
      * intros (pre & m & post & -> & Hl). exists (c :: pre), m, post; auto.
      * intros (pre & m & post & Hx & Hl). destruct pre as [|d pre].
        -- assert (H : is_some (Re.matches_at (literal k) prev (c :: x)) = true)
             by (apply matches_literal_iff; exists m, post; auto).
           rewrite Hm in H. discriminate.
        -- inversion Hx; subst. exists pre, m, post; auto.
Qed.

Lemma compile_keyword_patterns_ok (K : list str) :
  compile_keyword_patterns K = Some (map literal K).
Proof.
  unfold compile_keyword_patterns.
  induction K as [|k K IH]; simpl; [reflexivity|].
  rewrite compile_escape, IH. reflexivity.
Qed.

(** The test of the Line Filter on a line, for compiled keywords. *)
Lemma any_literal_iff (K : list str) (L : str) :
  any_pattern_matches (map literal K) L = true <->
  exists k, In k K /\ occurs_ignoring_case k L.
Proof.
  unfold any_pattern_matches. rewrite existsb_exists. split.
  - intros (p & Hp & Hs). apply in_map_iff in Hp.
    destruct Hp as (k & <- & Hk). exists k; split; auto.
    now apply (search_literal_iff k L None 0).
  - intros (k & Hk & Ho). exists (literal k). split.
    + now apply in_map.
    + now apply (search_literal_iff k L None 0).
Qed.

(** ** Substitution *)

(** Where the pattern matches nowhere, substitution changes nothing. *)
Lemma sub_from_no_match (p : Re.pattern) (repl : str -> str) :
  forall x prev pos,
    Re.search_from p prev x pos = None ->
    Re.sub_from p repl prev 0 x = x.
Proof.
  induction x as [|c x IH]; intros prev pos; simpl.
  - destruct (Re.matches_at p prev []); [discriminate | reflexivity].
  - destruct (Re.matches_at p prev (c :: x)); [discriminate|].
    intros H. f_equal. eapply IH; eauto.
Qed.

Lemma sub_no_match (p : Re.pattern) (repl : str -> str) (x : str) :
  Re.search p x = None -> Re.sub p repl x = x.
Proof. apply sub_from_no_match. Qed.

(** ** Lines *)

Lemma concat_split_lines (x : str) : concat (split_lines x) = x.
Proof.
  induction x as [|c x IH]; simpl; [reflexivity|].
  destruct (Ascii.eqb c newline).
  - simpl. now rewrite IH.
  - destruct (split_lines x) as [|l ls]; simpl in *; now rewrite <- IH.
Qed.

Lemma lstrip_spec (x : str) :
  exists a, x = a ++ lstrip x /\ forallb is_space a = true /\
            (forall c y, lstrip x = c :: y -> is_space c = false).
Proof.
  induction x as [|c x (a & Hx & Ha & Hh)]; simpl.
  - exists []; repeat split; auto; discriminate.
  - destruct (is_space c) eqn:Hc.
    + exists (c :: a). simpl. rewrite Hc, Ha. repeat split; auto.
      now f_equal.
    + exists []. repeat split; auto. intros d y H; inversion H; subst; auto.
Qed.

(** [strip] removes white space at both ends and nothing else. *)
Lemma strip_spec (x : str) :
  exists a b, x = a ++ strip x ++ b /\
              forallb is_space a = true /\ forallb is_space b = true /\
              (forall c y, strip x = c :: y -> is_space c = false) /\
              (forall c y, strip x = y ++ [c] -> is_space c = false).
Proof.
  unfold strip, rstrip.
  destruct (lstrip_spec x) as (a & Hx & Ha & Hh).
  destruct (lstrip_spec (rev (lstrip x))) as (b & Hy & Hb & Ht).
  exists a, (rev b). repeat split; auto.
  - rewrite <- rev_app_distr, <- Hy, rev_involutive. exact Hx.
  - rewrite forallb_forall in *. intros c Hc. apply Hb. now apply in_rev.
  - intros c y Hs.
    assert (Hl : lstrip x = rev (lstrip (rev (lstrip x))) ++ rev b)
      by (rewrite <- rev_app_distr, <- Hy, rev_involutive; reflexivity).
    rewrite Hs in Hl. simpl in Hl. eapply Hh; eauto.
  - intros c y Hs.
    apply (f_equal (@rev ascii)) in Hs.
    rewrite rev_involutive, rev_app_distr in Hs. simpl in Hs.
    eapply Ht; eauto.
Qed.

(** ** Line Filter *)

Lemma in_filter_lines (fname : str) (pats : list Re.pattern) :
  forall lines start name k content,
    In (name, k, content) (filter_lines fname pats start lines) <->
    name = fname /\
    exists i line, k = start + i /\ nth_error lines i = Some line /\
                   any_pattern_matches pats line = true /\
                   content = strip line.
Proof.
  induction lines as [|l lines IH]; intros start name k content; simpl.
  - split; [intros []|]. intros (_ & [|i] & line & _ & H & _); discriminate.
  - rewrite in_app_iff, IH. split.
    + intros [H | (-> & i & line & -> & Hn & Hm & ->)].
      * destruct (any_pattern_matches pats l) eqn:Hl; [|destruct H].
        destruct H as [H|[]]. inversion H; subst. split; auto.
        exists 0, l. rewrite Nat.add_0_r. auto.
      * split; auto. exists (S i), line. repeat split; auto; lia.
    + intros (-> & [|i] & line & -> & Hn & Hm & ->); simpl in Hn.
      * inversion Hn; subst. left. rewrite Hm, Nat.add_0_r. now left.
      * right. split; auto. exists i, line. repeat split; auto; lia.
Qed.

Lemma filter_log_file_reads (fs : filesystem) (tr : list event)
      (path : str) (f : file) (pats : list Re.pattern)
      (hw : option (dict Colors)) :
  FS.lookup fs path = Some (Reg f) ->
  filter_log_file path pats hw (State fs tr) =
  (Ok (filter_lines (Path.basename path) pats 1 (readlines (f_text f))),
   State fs (tr ++ [Printed (MsgProcessing (Path.basename path))])).
Proof.
  intros H. unfold filter_log_file, catch, read_text, bind, get_fs. simpl.
  rewrite H. reflexivity.
Qed.

(** C1.  The Line Filter selects a line exactly when some keyword
    occurs in it ignoring case, the keyword's characters taken
    literally.  Compiling a keyword list never fails; the test made on
    a line with the compiled patterns holds if and only if some
    keyword occurs in the line ignoring case; and [filter_log_file],
    run with these patterns on a readable file, records a match with
    the number of a line if and only if some keyword occurs in that
    line ignoring case, every match being of a line of the file.  With
    an empty keyword list nothing is recorded.  Keyword [a.b] does not
    select line [axb], and selects line [xA.By]. *)
Theorem line_filter_selects_iff_keyword_occurs
        (K : list str) (fs : filesystem) (tr : list event) (path : str)
        (f : file) (hw : option (dict Colors))
        (Hfile : FS.lookup fs path = Some (Reg f)) :
  exists keyword_patterns matches st',
    compile_keyword_patterns K = Some keyword_patterns /\
    filter_log_file path keyword_patterns hw (State fs tr)
    = (Ok matches, st') /\
    (forall L,
        any_pattern_matches keyword_patterns L = true <->
        exists k, In k K /\ occurs_ignoring_case k L) /\
    (forall n L,
        nth_error (readlines (f_text f)) n = Some L ->
        ((exists name content, In (name, S n, content) matches) <->
         exists k, In k K /\ occurs_ignoring_case k L)) /\
    (forall name number content,
        In (name, number, content) matches ->
        exists n L, number = S n /\
                    nth_error (readlines (f_text f)) n = Some L) /\
    (K = [] -> matches = []) /\
    (forall dotted,
        compile_keyword_patterns [txt "a.b"] = Some dotted ->
        any_pattern_matches dotted (txt "axb") = false /\
        any_pattern_matches dotted (txt "xA.By") = true).
Proof.
  eexists _, _, _.
  split; [apply compile_keyword_patterns_ok|].
  split; [apply filter_log_file_reads; exact Hfile|].
  split; [apply any_literal_iff|].
  assert (Hrec : forall n L,
             nth_error (readlines (f_text f)) n = Some L ->
             ((exists name content,
                  In (name, S n, content)
                     (filter_lines (Path.basename path) (map literal K) 1
                                   (readlines (f_text f)))) <->
              exists k, In k K /\ occurs_ignoring_case k L)).
  { intros n L Hn. rewrite <- any_literal_iff. split.
    - intros (name & content & Hin). apply in_filter_lines in Hin.
      destruct Hin as (_ & i & line & Hk & Hi & Hm & _).
      simpl in Hk. injection Hk as <-. rewrite Hn in Hi.
      injection Hi as <-. exact Hm.
    - intros Hm. exists (Path.basename path), (strip L).
      apply in_filter_lines. split; [reflexivity|].
      exists n, L. repeat split; auto. }
  assert (Hline : forall name number content,
             In (name, number, content)
                (filter_lines (Path.basename path) (map literal K) 1
                              (readlines (f_text f))) ->
             exists n L, number = S n /\
                         nth_error (readlines (f_text f)) n = Some L).
  { intros name number content Hin. apply in_filter_lines in Hin.
    destruct Hin as (_ & i & line & Hk & Hi & _).
    exists i, line. split; [exact Hk|exact Hi]. }
  split; [exact Hrec|]. split; [exact Hline|]. split.
  - intros ->.
    destruct (filter_lines (Path.basename path) (map literal []) 1
                (readlines (f_text f))) as [|[[name number] content] l] eqn:E;
      [reflexivity|exfalso].
    destruct (Hline name number content (or_introl eq_refl))
      as (n & L & -> & Hn).
    destruct (proj1 (Hrec n L Hn)) as (k & [] & _).
    exists name, content. now left.
  - intros dotted Hd. rewrite compile_keyword_patterns_ok in Hd.
    injection Hd as <-. split; reflexivity.
Qed.

(** The file [dotted_log] under the keyword [a.b]: the second line is
    recorded, the first is not. *)
Lemma line_filter_selects_iff_keyword_occurs_witness :
  exists matches st',
    filter_log_file (txt "/logs/ab.LOG") [literal (txt "a.b")] None
                    (State dotted_log []) = (Ok matches, st') /\
    (exists name content, In (name, 2, content) matches) /\
    ~ (exists name content, In (name, 1, content) matches).
Proof.
  destruct (line_filter_selects_iff_keyword_occurs
              [txt "a.b"] dotted_log [] (txt "/logs/ab.LOG") _ None eq_refl)
    as (keyword_patterns & matches & st' & Hc & Hrun & Htest & Hrec & _).
  injection Hc as <-.
  exists matches, st'. split; [exact Hrun|]. split.
  - apply (Hrec 1 (txt "xA.By" ++ [newline]) eq_refl).
    exists (txt "a.b"). split; [now left|].
    exists (txt "x"), (txt "A.B"), (txt "y" ++ [newline]).
    split; reflexivity.
  - intro H. apply (Hrec 0 (txt "axb" ++ [newline]) eq_refl) in H.
    apply Htest in H. discriminate H.
Defined.

(** C2, amended.  For a readable file the Line Filter records, for
    every line that matches some pattern and for nothing else, the
    file's base name, the line's number counted from 1 among the lines
    of the file, and the line with the white space at BOTH its ends
    stripped and nothing else removed. *)
Theorem filter_log_file_records_stripped_lines
        (fs : filesystem) (tr : list event) (path : str) (f : file)
        (pats : list Re.pattern) (hw : option (dict Colors))
        (Hfile : FS.lookup fs path = Some (Reg f)) :
  exists matches st',
    filter_log_file path pats hw (State fs tr) = (Ok matches, st') /\
    st_fs st' = fs /\
    concat (readlines (f_text f)) = translate_newlines (f_text f) /\
    (forall name k content,
        In (name, k, content) matches <->
        name = Path.basename path /\
        exists line,
          1 <= k /\ nth_error (readlines (f_text f)) (k - 1) = Some line /\
          any_pattern_matches pats line = true /\
          content = strip line) /\
    (forall line, exists a b,
          line = a ++ strip line ++ b /\
          forallb is_space a = true /\ forallb is_space b = true /\
          (forall c y, strip line = c :: y -> is_space c = false) /\
          (forall c y, strip line = y ++ [c] -> is_space c = false)).
Proof.
  eexists _, _. split; [apply filter_log_file_reads; eassumption|].
  split; [reflexivity|]. split; [apply concat_split_lines|].
  split; [|apply strip_spec].
  intros name k content. rewrite in_filter_lines. split.
  - intros (-> & i & line & -> & Hn & Hm & ->). split; auto.
    exists line. simpl. rewrite Nat.sub_0_r. repeat split; auto; lia.
  - intros (-> & line & Hk & Hn & Hm & ->). split; auto.
    exists (k - 1), line. repeat split; auto; lia.
Qed.

(** The second line of [sample_log]. *)
Lemma filter_log_file_records_stripped_lines_witness :
  exists matches st',
    filter_log_file (txt "/logs/app.LOG") [literal (txt "CCP: EPK")] None
                    (State sample_log []) = (Ok matches, st') /\
    In (txt "app.LOG", 2, txt "CCP: EPK found") matches.
Proof.
  destruct (filter_log_file_records_stripped_lines
              sample_log [] (txt "/logs/app.LOG") _
              [literal (txt "CCP: EPK")] None eq_refl)
    as (matches & st' & Hrun & _ & _ & Hin & _).
  exists matches, st'. split; [exact Hrun|].
  apply Hin. split; [reflexivity|].
  exists (txt "  CCP: EPK found  " ++ [newline]).
  repeat split; auto.
Defined.

(** C2 as stated fails: the white space BEFORE the text of a line is
    removed too.  On the second line of the sample file the recorded
    content is not the line with only its trailing white space
    stripped. *)
Lemma leading_whitespace_is_stripped_too :
  let line := txt "  CCP: EPK found  " ++ [newline] in
  nth_error (readlines (txt "hello" ++ newline :: txt "  CCP: EPK found  " ++
                        newline :: txt "nothing")) 1 = Some line /\
  any_pattern_matches [literal (txt "CCP: EPK")] line = true /\
  rstrip line = txt "  CCP: EPK found" /\
  fst (filter_log_file (txt "/logs/app.LOG") [literal (txt "CCP: EPK")] None
                       (State sample_log []))
  = Ok [(txt "app.LOG", 2, txt "CCP: EPK found")] /\
  ~ In (txt "app.LOG", 2, rstrip line)
       [(txt "app.LOG", 2, txt "CCP: EPK found")].
Proof.
  repeat split; try reflexivity.
  intros [H|[]]. discriminate H.
Qed.

(** ** Highlighter *)

(** Building the matcher of a term never fails. *)
Lemma word_pattern_ok (T : str) :
  word_pattern T = Some (if wants_boundaries T then bounded T else literal T).
Proof.
  unfold word_pattern. destruct (wants_boundaries T).
  - unfold Re.compile. change (txt "\b") with [backslash; "b"%char].
    cbn [app Re.parse]. rewrite Ascii.eqb_refl. cbn [Ascii.eqb].
    change (Ascii.eqb "b" "b") with true. cbv iota.
    rewrite parse_escape_app. reflexivity.
  - apply compile_escape.
Qed.

Lemma replace_char_absent (c : ascii) (r x : str) :
  has_char c x = false -> replace_char c r x = x.
Proof.
  unfold has_char, replace_char. induction x as [|d x IH]; simpl; auto.
  rewrite orb_false_iff. intros [Hd Hx].
  rewrite Ascii.eqb_sym, Hd. simpl. now rewrite IH.
Qed.

Lemma html_escape_plain (L : str) :
  has_markup_chars L = false -> html_escape L = L.
Proof.
  unfold has_markup_chars, html_escape.
  rewrite !orb_false_iff. intros [[Ha Hl] Hg].
  rewrite (replace_char_absent "&" _ L Ha).
  rewrite (replace_char_absent "<" _ L Hl).
  now rewrite (replace_char_absent ">" _ L Hg).
Qed.

(** C3.  With "match" GREEN and "mismatch" RED, in either insertion
    order, the line "status: mismatch found" comes out with the whole
    word "mismatch" wrapped once, in class "mismatch" (structured mode)
    or in the RED code (plain mode), and nothing inside it wrapped
    again: "mismatch" is applied first, and the matcher of "match",
    which asks for word boundaries, finds nothing in the line or in the
    wrapped result. *)
Theorem mismatch_is_highlighted_as_a_whole :
  let line := txt "status: mismatch found" in
  let spec := [(txt "match", GREEN); (txt "mismatch", RED)] in
  let html := txt "status: " ++ span (txt "mismatch") (txt "mismatch")
                  ++ txt " found" in
  let plain := txt "status: " ++ colored RED (txt "mismatch")
                   ++ txt " found" in
  highlight_text line (Some spec) true = Some html /\
  highlight_text line (Some spec) false = Some plain /\
  highlight_text line (Some (rev spec)) true = Some html /\
  highlight_text line (Some (rev spec)) false = Some plain /\
  map fst (sorted_by_length spec) = [txt "mismatch"; txt "match"] /\
  word_pattern (txt "match") = Some (bounded (txt "match")) /\
  word_pattern (txt "mismatch") = Some (bounded (txt "mismatch")) /\
  Re.search (bounded (txt "mismatch")) line = Some (8, 8) /\
  Re.search (bounded (txt "match")) line = None /\
  Re.search (bounded (txt "match")) html = None /\
  Re.search (bounded (txt "match")) plain = None.
Proof. repeat split; vm_compute; reflexivity. Qed.

(** C5 as stated fails in structured mode: the markup characters of
    the line are escaped before any term is looked for, so a line with
    [<] in it does not come back unchanged although the term occurs
    nowhere in it. *)
Lemma unmatched_term_still_escapes_markup :
  term_occurs (txt "zz") (txt "a<b") = false /\
  highlight_text (txt "a<b") (Some [(txt "zz", YELLOW)]) true
  = Some (txt "a&lt;b") /\
  txt "a&lt;b" <> txt "a<b".
Proof. repeat split; try reflexivity. discriminate. Qed.

(** C5, amended.  For one term with any style: in plain mode, if the
    term's matcher finds nothing in the line, the line is returned
    unchanged; in structured mode, if it finds nothing in the escaped
    line, the escaped line is returned, which is the line itself when
    the line has none of [&], [<], [>]. *)
Theorem unmatched_term_changes_nothing_else
        (L T : str) (c : Colors) (html_mode : bool)
        (Hnone : term_occurs T (if html_mode then html_escape L else L)
                 = false) :
  highlight_text L (Some [(T, c)]) html_mode
  = Some (if html_mode then html_escape L else L) /\
  (html_mode = false -> highlight_text L (Some [(T, c)]) html_mode = Some L) /\
  (has_markup_chars L = false ->
   highlight_text L (Some [(T, c)]) html_mode = Some L).
Proof.
  assert (Hmain : highlight_text L (Some [(T, c)]) html_mode
                  = Some (if html_mode then html_escape L else L)).
  { unfold term_occurs in Hnone. unfold highlight_text. simpl.
    rewrite word_pattern_ok in *.
    destruct html_mode; rewrite sub_no_match; auto;
      match goal with
      | |- ?s = None => destruct s; [discriminate Hnone | reflexivity]
      end. }
  split; [exact Hmain|]. split.
  - intros ->. exact Hmain.
  - intros Hplain. rewrite Hmain, (html_escape_plain L Hplain).
    now destruct html_mode.
Qed.

(** A line without the term and without markup characters. *)
Lemma unmatched_term_changes_nothing_else_witness :
  highlight_text (txt "disk ok") (Some [(txt "match", GREEN)]) true
  = Some (txt "disk ok").
Proof.
  apply (unmatched_term_changes_nothing_else
           (txt "disk ok") (txt "match") GREEN true);
    reflexivity.
Defined.

(** C10.  With no HighlightSpec, or an empty one, the Highlighter
    returns its text as it is, in either mode: in structured mode [&],
    [<], [>] stay unescaped.  With a non-empty HighlightSpec the terms
    are applied to the escaped text. *)
Theorem empty_spec_returns_text_verbatim :
  (forall text html_mode, highlight_text text None html_mode = Some text) /\
  (forall text html_mode,
      highlight_text text (Some []) html_mode = Some text) /\
  highlight_text (txt "a<b & c>d") (Some []) true = Some (txt "a<b & c>d") /\
  (forall text item items,
      highlight_text text (Some (item :: items)) true =
      apply_terms (sorted_by_length (item :: items)) true
                  (html_escape text)) /\
  highlight_text (txt "a<b & c>d") (Some [(txt "zz", YELLOW)]) true
  = Some (txt "a&lt;b &amp; c&gt;d").
Proof. repeat split. Qed.

(** ** Configuration *)

Lemma dict_set_fresh {V} (d : dict V) (k : str) (v : V) :
  ~ In k (map fst d) -> dict_set d k v = d ++ [(k, v)].
Proof.
  induction d as [|[k' v'] d IH]; simpl; intros H; [reflexivity|].
  destruct (str_eqb k' k) eqn:E.
  - apply str_eqb_eq in E. tauto.
  - rewrite IH; tauto.
Qed.

Lemma fold_dict_set (d : dict str) : forall acc : dict Colors,
  NoDup (map fst acc ++ map fst d) ->
  fold_left (fun hw item => dict_set hw (fst item) (color_of_name (snd item)))
            d acc
  = acc ++ styled d.
Proof.
  induction d as [|[k v] d IH]; intros acc H; simpl.
  - now rewrite app_nil_r.
  - simpl in H. rewrite dict_set_fresh.
    + rewrite IH.
      * now rewrite <- app_assoc.
      * rewrite map_app. simpl. rewrite <- app_assoc. exact H.
    + apply NoDup_remove_2 in H. intros Hin. apply H.
      apply in_or_app. now left.
Qed.

Lemma load_config_reads (fs : filesystem) (tr : list event)
      (config_file : str) (f : file) (c : config) :
  config_file <> [] ->
  FS.lookup fs config_file = Some (Reg f) ->
  f_config f = Some c ->
  load_config config_file (State fs tr) =
  (Ok (get_default (cfg_keywords c) default_keywords,
       fold_left
         (fun hw item => dict_set hw (fst item) (color_of_name (snd item)))
         (get_default (cfg_highlight_words c) []) []),
   State fs tr).
Proof.
  intros Hne Hf Hc.
  unfold load_config, bind, path_exists, get_fs, ret, FS.exists_. simpl.
  rewrite Hf. simpl.
  destruct config_file; [congruence|]. simpl.
  unfold catch, json_load, bind, get_fs. simpl. rewrite Hf, Hc. reflexivity.
Qed.

(** C4 as stated fails.  A style name is compared after upper-casing,
    so the name [red], which is none of RED, GREEN, BLUE, YELLOW, maps
    to the RED style and not to the reset style; and a document that
    has [keywords] but no [highlight_words] yields an empty highlight
    mapping, not the default one. *)
Lemma load_config_departs_from_defaults :
  fst (load_config (txt "log_filter_config.json")
         (State (config_fs (Config None (Some [(txt "error", txt "red")])))
                []))
  = Ok (default_keywords, [(txt "error", RED)]) /\
  txt "red" <> txt "RED" /\ RED <> RESET /\
  fst (load_config (txt "log_filter_config.json")
         (State (config_fs (Config (Some [txt "boot"]) None)) []))
  = Ok ([txt "boot"], []) /\
  [] <> default_highlight.
Proof. repeat split; try reflexivity; discriminate. Qed.

(** C4, amended.  For a configuration file that is present, readable
    and well-formed: an absent [keywords] gives the default keyword
    list, a present one is returned as it is; a present
    [highlight_words] is returned with every style name replaced by its
    style, names being compared ignoring case: a name that upper-cases
    to RED, GREEN, BLUE or YELLOW gives that style, every other name
    the reset style. *)
Theorem load_config_defaults_and_styles
        (fs : filesystem) (tr : list event) (config_file : str)
        (f : file) (c : config)
        (Hname : config_file <> [])
        (Hfile : FS.lookup fs config_file = Some (Reg f))
        (Hjson : f_config f = Some c) :
  exists keywords highlight_words,
    load_config config_file (State fs tr)
    = (Ok (keywords, highlight_words), State fs tr) /\
    (cfg_keywords c = None ->
     keywords = [txt "CCP: EPK"; txt "Configuration file:"]) /\
    (forall ks, cfg_keywords c = Some ks -> keywords = ks) /\
    (forall d, cfg_highlight_words c = Some d -> NoDup (map fst d) ->
               highlight_words = styled d) /\
    (forall name,
        color_of_name name =
        if str_eqb (upper name) (txt "RED") then RED
        else if str_eqb (upper name) (txt "GREEN") then GREEN
        else if str_eqb (upper name) (txt "BLUE") then BLUE
        else if str_eqb (upper name) (txt "YELLOW") then YELLOW
        else RESET) /\
    (forall name,
        ~ In (upper name) [txt "RED"; txt "GREEN"; txt "BLUE"; txt "YELLOW"] ->
        color_of_name name = RESET).
Proof.
  eexists _, _. split; [eapply load_config_reads; eassumption|].
  split; [intros ->; reflexivity|].
  split; [intros ks ->; reflexivity|].
  split; [|split].
  - intros d -> Hd. simpl. now rewrite fold_dict_set.
  - reflexivity.
  - intros name Hn. unfold color_of_name.
    repeat match goal with
           | |- context [str_eqb ?a ?b] =>
               let E := fresh "E" in
               destruct (str_eqb a b) eqn:E;
               [apply str_eqb_eq in E; exfalso; apply Hn; rewrite E; simpl; auto 10|]
           end.
    reflexivity.
Qed.

(** A document without [keywords], with one known and one unknown
    style name. *)
Lemma load_config_defaults_and_styles_witness :
  exists keywords highlight_words,
    load_config (txt "log_filter_config.json")
      (State (config_fs (Config None (Some [(txt "error", txt "Yellow");
                                            (txt "note", txt "pink")]))) [])
    = (Ok (keywords, highlight_words),
       State (config_fs (Config None (Some [(txt "error", txt "Yellow");
                                            (txt "note", txt "pink")]))) []) /\
    keywords = default_keywords /\
    highlight_words = [(txt "error", YELLOW); (txt "note", RESET)].
Proof.
  destruct (load_config_defaults_and_styles
              (config_fs (Config None (Some [(txt "error", txt "Yellow");
                                             (txt "note", txt "pink")])))
              [] (txt "log_filter_config.json") _ _
              ltac:(discriminate) eq_refl eq_refl)
    as (kw & hw & Hrun & Hkw & _ & Hhw & _).
  exists kw, hw. split; [exact Hrun|]. split.
  - apply Hkw. reflexivity.
  - rewrite (Hhw _ eq_refl); [reflexivity|].
    repeat constructor; simpl; intuition discriminate.
Defined.

(** ** Strings and paths *)

Arguments Ascii.eqb : simpl nomatch.

Lemma startswith_app (p x y : str) :
  startswith p x = true -> startswith p (x ++ y) = true.
Proof.
  revert x; induction p as [|c p IH]; intros [|d x]; simpl; auto;
    try discriminate.
  rewrite !andb_true_iff. intros [H1 H2]; auto.
Qed.

Lemma startswith_prefix (p y : str) : startswith p (p ++ y) = true.
Proof.
  induction p as [|c p IH]; simpl; auto. now rewrite Ascii.eqb_refl.
Qed.

Lemma startswith_iff (p x : str) :
  startswith p x = true <-> exists y, x = p ++ y.
Proof.
  split.
  - revert x; induction p as [|c p IH]; intros x; simpl.
    + exists x; reflexivity.
    + destruct x as [|d x]; [discriminate|].
      rewrite andb_true_iff, Ascii.eqb_eq. intros [-> H].
      destruct (IH _ H) as [y ->]. now exists y.
  - intros [y ->]. apply startswith_prefix.
Qed.

Lemma endswith_app (p x y : str) :
  endswith p y = true -> endswith p (x ++ y) = true.
Proof.
  unfold endswith. rewrite rev_app_distr. apply startswith_app.
Qed.

Lemma upper_app (x y : str) : upper (x ++ y) = upper x ++ upper y.
Proof. apply flat_map_app. Qed.

Lemma has_suffix_app (suffix : string) (x y : str) :
  has_suffix suffix y = true -> has_suffix suffix (x ++ y) = true.
Proof.
  unfold has_suffix. rewrite upper_app. apply endswith_app.
Qed.

(** The three shapes of [os.path.join]. *)
Lemma join_cases (a b : str) :
  (startswith [slash] b = true /\ Path.join a b = b) \/
  (startswith [slash] b = false /\
   (Path.join a b = a ++ b \/ Path.join a b = a ++ slash :: b)).
Proof.
  unfold Path.join. destruct (startswith [slash] b); [left; auto|].
  right. split; auto.
  destruct (Path.is_nil a || endswith [slash] a); auto.
Qed.

Lemma has_suffix_join (suffix : string) (a b : str) :
  has_suffix suffix b = true -> has_suffix suffix (Path.join a b) = true.
Proof.
  intros H. destruct (join_cases a b) as [[_ ->] | [_ [-> | ->]]]; auto.
  - now apply has_suffix_app.
  - change (a ++ slash :: b) with (a ++ [slash] ++ b).
    rewrite app_assoc. now apply has_suffix_app.
Qed.

Lemma join_empty (a : str) : exists s, Path.join a [] = a ++ s.
Proof.
  unfold Path.join. simpl.
  destruct (Path.is_nil a || endswith [slash] a).
  - exists []. reflexivity.
  - exists [slash]. reflexivity.
Qed.

Lemma join_relative (a b : str) :
  startswith [slash] b = false -> Path.join a b = Path.join a [] ++ b.
Proof.
  intros H. unfold Path.join. rewrite H. simpl.
  destruct (Path.is_nil a || endswith [slash] a).
  - now rewrite app_nil_r.
  - now rewrite <- app_assoc.
Qed.

(** A non-empty relative name joined to a directory lies below it. *)
Lemma below_join (d x : str) :
  x <> [] -> startswith [slash] x = false ->
  FS.below d (Path.join d x) = true.
Proof.
  intros Hx Hs. unfold FS.below. rewrite (join_relative d x Hs).
  rewrite startswith_prefix. simpl.
  apply negb_true_iff, str_eqb_neq. intros H.
  rewrite <- (app_nil_r (Path.join d [])) in H at 1.
  apply app_inv_head in H. congruence.
Qed.

Lemma below_app (d p y : str) :
  FS.below d p = true -> FS.below d (p ++ y) = true.
Proof.
  unfold FS.below. rewrite !andb_true_iff, !negb_true_iff, !str_eqb_neq.
  intros [H1 H2]. split; [now apply startswith_app|].
  apply startswith_iff in H1. destruct H1 as [z ->].
  intros H. rewrite <- app_assoc in H.
  rewrite <- (app_nil_r (Path.join d [])) in H at 1.
  apply app_inv_head in H. symmetry in H. apply app_eq_nil in H.
  destruct H as [-> _]. apply H2. now rewrite app_nil_r.
Qed.

Lemma split_last_app (p : str) :
  fst (Path.split_last p) ++ snd (Path.split_last p) = p.
Proof.
  induction p as [|c p IH]; simpl; auto.
  destruct (Path.split_last p) as [h t]. simpl in IH.
  destruct h as [|d h]; simpl.
  - destruct (Ascii.eqb c slash); simpl; now rewrite <- IH.
  - now rewrite <- IH.
Qed.

Lemma basename_no_slash (p : str) : has_char slash (Path.basename p) = false.
Proof.
  unfold Path.basename.
  induction p as [|c p IH]; simpl; auto.
  destruct (Path.split_last p) as [h t]. simpl in IH.
  destruct h as [|d h]; simpl; auto.
  destruct (Ascii.eqb c slash) eqn:E; simpl; auto.
  unfold has_char in *. simpl. rewrite Ascii.eqb_sym, E. exact IH.
Qed.

Lemma no_slash_not_absolute (x : str) :
  has_char slash x = false -> startswith [slash] x = false.
Proof.
  destruct x as [|c x]; simpl; auto. unfold has_char. simpl.
  rewrite orb_false_iff. intros [H _]. now rewrite H.
Qed.

(** The head [split_last] cuts off is empty or ends with a slash. *)
Lemma split_last_head (p : str) :
  fst (Path.split_last p) = [] \/
  exists h, fst (Path.split_last p) = h ++ [slash].
Proof.
  induction p as [|c p IH]; simpl; auto.
  destruct (Path.split_last p) as [h t]. simpl in IH.
  destruct h as [|d h]; simpl.
  - destruct (Ascii.eqb c slash) eqn:E; simpl; auto.
    apply Ascii.eqb_eq in E. subst. right. exists []; reflexivity.
  - right. destruct IH as [IH | [h' IH]]; [discriminate|].
    exists (c :: h'). simpl. now rewrite IH.
Qed.

Lemma has_suffix_last (x : str) (c : ascii) :
  has_suffix ".LOG" (x ++ [c]) = true -> upper_char c = "G"%char.
Proof.
  unfold has_suffix, endswith. rewrite upper_app, rev_app_distr.
  unfold upper at 1. simpl.
  destruct (Ascii.eqb c "223"); simpl; [discriminate|].
  rewrite andb_true_iff. intros [H _].
  apply Ascii.eqb_eq in H. auto.
Qed.

(** A name that ends in [.LOG] has a non-empty base name. *)
Lemma basename_of_log (x : str) :
  has_suffix ".LOG" x = true -> Path.basename x <> [].
Proof.
  intros H E. unfold Path.basename in E.
  pose proof (split_last_app x) as Hx. rewrite E, app_nil_r in Hx.
  destruct (split_last_head x) as [Hh | [h Hh]]; rewrite Hh in Hx; subst x.
  - discriminate H.
  - apply has_suffix_last in H. discriminate H.
Qed.

Lemma zip_is_not_log (x : str) :
  has_suffix ".ZIP" x = true -> has_suffix ".LOG" x = false.
Proof.
  unfold has_suffix, endswith. simpl.
  destruct (rev (upper x)) as [|c r]; simpl; auto.
  rewrite andb_true_iff. intros [H _]. apply Ascii.eqb_eq in H. subst c.
  reflexivity.
Qed.

(** ** The file system *)

Lemma lookup_set (fs : filesystem) (p : str) (n : node) (q : str) :
  FS.lookup (FS.set fs p n) q =
  if str_eqb p q then Some n else FS.lookup fs q.
Proof.
  induction fs as [|[k m] fs IH]; simpl; [reflexivity|].
  destruct (str_eqb k p) eqn:Ekp; simpl.
  - apply str_eqb_eq in Ekp. subst k.
    destruct (str_eqb p q); reflexivity.
  - rewrite IH. destruct (str_eqb k q) eqn:Ekq; [|reflexivity].
    apply str_eqb_eq in Ekq. subst k.
    destruct (str_eqb p q) eqn:Epq; [|reflexivity].
    apply str_eqb_eq in Epq. subst q. rewrite str_eqb_refl in Ekp.
    discriminate.
Qed.

Lemma lookup_filter (P : str -> bool) (fs : filesystem) (q : str) :
  FS.lookup (filter (fun e => P (fst e)) fs) q =
  if P q then FS.lookup fs q else None.
Proof.
  induction fs as [|[k m] fs IH]; simpl.
  - now destruct (P q).
  - destruct (P k) eqn:Ek; simpl.
    + rewrite IH. destruct (str_eqb k q) eqn:Ekq; [|reflexivity].
      apply str_eqb_eq in Ekq. subst k. now rewrite Ek.
    + rewrite IH. destruct (str_eqb k q) eqn:Ekq; [|reflexivity].
      apply str_eqb_eq in Ekq. subst k. now rewrite Ek.
Qed.

Lemma lookup_remove (fs : filesystem) (p q : str) :
  FS.lookup (FS.remove fs p) q =
  if str_eqb q p then None else FS.lookup fs q.
Proof.
  unfold FS.remove.
  rewrite (lookup_filter (fun k => negb (str_eqb k p))).
  now destruct (str_eqb q p).
Qed.

Lemma lookup_without_tree (fs : filesystem) (d q : str) :
  FS.lookup (FS.without_tree fs d) q =
  if str_eqb q d || FS.below d q then None else FS.lookup fs q.
Proof.
  unfold FS.without_tree.
  rewrite (lookup_filter (fun k => negb (str_eqb k d || FS.below d k))).
  now destruct (str_eqb q d || FS.below d q).
Qed.

Lemma str_eqb_sym (x y : str) : str_eqb x y = str_eqb y x.
Proof.
  destruct (str_eqb x y) eqn:E.
  - apply str_eqb_eq in E. subst. now rewrite str_eqb_refl.
  - symmetry. apply str_eqb_neq. apply str_eqb_neq in E. congruence.
Qed.

(** ** Steps that only print *)

Lemma kept_refl (t : str) (fs : filesystem) : kept t fs fs.
Proof. split; auto. Qed.

Lemma kept_trans (t : str) (a b c : filesystem) :
  kept t a b -> kept t b c -> kept t a c.
Proof. intros [H1 H2] [H3 H4]. split; eauto. Qed.

Lemma extends_refl (t : str) (st : state) : extends t st st.
Proof.
  split; [|apply kept_refl]. exists []. now rewrite app_nil_r.
Qed.

Lemma extends_trans (t : str) (a b c : state) :
  extends t a b -> extends t b c -> extends t a c.
Proof.
  intros [(n1 & E1 & P1) K1] [(n2 & E2 & P2) K2].
  split; [|eapply kept_trans; eauto].
  exists (n1 ++ n2). rewrite E2, E1, <- app_assoc. split; auto.
  now rewrite forallb_app, P1, P2.
Qed.

Lemma extends_print (t : str) (st : state) (m : message) :
  extends t st (State (st_fs st) (st_trace st ++ [Printed m])).
Proof. split; [|apply kept_refl]. exists [Printed m]. auto. Qed.

Lemma extends_fs (t : str) (st : state) (fs' : filesystem) :
  kept t (st_fs st) fs' -> extends t st (State fs' (st_trace st)).
Proof. intros K. split; auto. exists []. simpl. now rewrite app_nil_r. Qed.

(** ** Archive Extractor: what it leaves alone *)

Lemma makedirs_keeps (chain : list str) : forall fs fs1,
  makedirs chain fs = Ok fs1 ->
  forall p n, FS.lookup fs p = Some n -> FS.lookup fs1 p = Some n.
Proof.
  induction chain as [|d chain IH]; intros fs fs1; simpl.
  - intros H; inversion H; auto.
  - destruct (FS.lookup fs d) as [[|f]|] eqn:Hd.
    + intros H; inversion H; auto.
    + discriminate.
    + destruct (makedirs chain fs) as [fs'|] eqn:Hm; [|discriminate].
      intros H p n Hp. inversion H; subst. rewrite lookup_set.
      destruct (str_eqb d p) eqn:E.
      * apply str_eqb_eq in E. congruence.
      * eapply IH; eauto.
Qed.

Lemma split_slash_parts (x : str) :
  Forall (fun w => has_char slash w = false) (Path.split_slash x).
Proof.
  induction x as [|c x IH]; simpl.
  - repeat constructor.
  - destruct (Ascii.eqb c slash) eqn:E.
    + constructor; auto.
    + destruct (Path.split_slash x) as [|w ws]; [repeat constructor|].
      * unfold has_char. simpl. now rewrite Ascii.eqb_sym, E.
      * inversion IH; subst. constructor; auto.
        unfold has_char in *. simpl. now rewrite Ascii.eqb_sym, E.
Qed.

Lemma join_slash_relative (parts : list str) :
  Forall (fun w => has_char slash w = false /\ w <> []) parts ->
  startswith [slash] (Path.join_slash parts) = false.
Proof.
  destruct parts as [|w ws]; [reflexivity|].
  intros H. inversion H as [|? ? [Hw Hne] _]; subst.
  assert (Hs : startswith [slash] w = false)
    by now apply no_slash_not_absolute.
  destruct w as [|c w]; [congruence|].
  simpl. destruct ws; simpl in *; exact Hs.
Qed.

Lemma sanitize_relative (name : str) :
  startswith [slash] (sanitize name) = false.
Proof.
  unfold sanitize. apply join_slash_relative.
  pose proof (split_slash_parts name) as H. rewrite Forall_forall in H.
  apply Forall_forall. intros w Hin. apply filter_In in Hin.
  destruct Hin as [Hin Hf]. split; [now apply H|].
  intros ->. discriminate Hf.
Qed.

Lemma zip_extract_extends (members : list member) (name t : str)
      (st st' : state) (r : res unit) :
  zip_extract members name t st = (r, st') -> extends t st st'.
Proof.
  unfold zip_extract, raise, bind, get_fs, put_fs. destruct st as [fs tr].
  destruct (getinfo members name) as [m|]; simpl;
    [|intros H; inversion H; apply extends_refl].
  destruct (makedirs (Path.parents (Path.join t (sanitize name))) fs)
    as [fs1|e] eqn:Hm; simpl;
    [|intros H; inversion H; apply extends_refl].
  assert (K1 : kept t fs fs1).
  { split; intros; eapply makedirs_keeps; eauto. }
  destruct (m_data m) as [data|]; simpl;
    [|intros H; inversion H; now apply (extends_fs t (State fs tr))].
  destruct (FS.isdir fs1 (Path.join t (sanitize name))
            || Path.is_nil (sanitize name)) eqn:Hd; simpl;
    intros H; inversion H; subst; clear H;
    [now apply (extends_fs t (State fs tr))|].
  apply (extends_fs t (State fs tr)). simpl.
  eapply kept_trans; [exact K1|].
  apply orb_false_iff in Hd. destruct Hd as [Hdir Hnil].
  assert (Hb : FS.below t (Path.join t (sanitize name)) = true).
  { apply below_join; [|apply sanitize_relative].
    destruct (sanitize name); [discriminate | discriminate]. }
  split.
  - intros p Hp. rewrite lookup_set.
    destruct (str_eqb (Path.join t (sanitize name)) p) eqn:E; auto.
    apply str_eqb_eq in E. subst p. unfold FS.isdir in Hdir.
    rewrite Hp in Hdir. discriminate.
  - intros p f Hp Hnb _. rewrite lookup_set.
    destruct (str_eqb (Path.join t (sanitize name)) p) eqn:E; auto.
    apply str_eqb_eq in E. subst p. congruence.
Qed.

(** Moving a [*.LOG] file to a place below [t]. *)
Lemma shutil_move_extends (src dst t : str) (st st' : state) (r : res unit) :
  has_suffix ".LOG" src = true -> FS.below t dst = true ->
  shutil_move src dst st = (r, st') -> extends t st st'.
Proof.
  intros Hsrc Hdst. unfold shutil_move, raise, bind, get_fs, put_fs.
  destruct st as [fs tr]. simpl.
  destruct (FS.isdir fs dst) eqn:Hd; simpl.
  - destruct (FS.exists_ fs (Path.join dst (Path.basename src))) eqn:He;
      simpl; [intros H; inversion H; apply extends_refl|].
    destruct (FS.lookup fs src) as [[|f]|] eqn:Hs;
      intros H; inversion H; subst; clear H; try apply extends_refl.
    apply (extends_fs t (State fs tr)). simpl.
    unfold FS.exists_ in He.
    destruct (FS.lookup fs (Path.join dst (Path.basename src))) eqn:Hr;
      [discriminate|].
    split.
    + intros p Hp. rewrite lookup_set, lookup_remove.
      destruct (str_eqb (Path.join dst (Path.basename src)) p) eqn:E;
        [apply str_eqb_eq in E; congruence|].
      destruct (str_eqb p src) eqn:E2; auto.
      apply str_eqb_eq in E2. congruence.
    + intros p f0 Hp _ Hlog. rewrite lookup_set, lookup_remove.
      destruct (str_eqb (Path.join dst (Path.basename src)) p) eqn:E;
        [apply str_eqb_eq in E; congruence|].
      destruct (str_eqb p src) eqn:E2; auto.
      apply str_eqb_eq in E2. congruence.
  - destruct (FS.lookup fs src) as [[|f]|] eqn:Hs;
      intros H; inversion H; subst; clear H; try apply extends_refl.
    apply (extends_fs t (State fs tr)). simpl.
    split.
    + intros p Hp. rewrite lookup_set, lookup_remove.
      destruct (str_eqb dst p) eqn:E.
      * apply str_eqb_eq in E. subst p. unfold FS.isdir in Hd.
        rewrite Hp in Hd. discriminate.
      * destruct (str_eqb p src) eqn:E2; auto.
        apply str_eqb_eq in E2. congruence.
    + intros p f0 Hp Hnb Hlog. rewrite lookup_set, lookup_remove.
      destruct (str_eqb dst p) eqn:E;
        [apply str_eqb_eq in E; congruence|].
      destruct (str_eqb p src) eqn:E2; auto.
      apply str_eqb_eq in E2. congruence.
Qed.

Lemma split_dot_app (t : str) :
  fst (Path.split_dot t) ++ snd (Path.split_dot t) = t.
Proof.
  induction t as [|c t IH]; simpl; auto.
  destruct (Path.split_dot t) as [r e]. simpl in IH.
  destruct e as [|d e]; simpl.
  - rewrite app_nil_r in IH. subst r.
    destruct (Ascii.eqb c "."); simpl; auto. now rewrite app_nil_r.
  - now rewrite IH.
Qed.

Lemma splitext_app (p : str) :
  fst (Path.splitext p) ++ snd (Path.splitext p) = p.
Proof.
  unfold Path.splitext.
  pose proof (split_last_app p) as H1.
  destruct (Path.split_last p) as [h t]. simpl in H1.
  pose proof (split_dot_app t) as H2.
  destruct (Path.split_dot t) as [r e]. simpl in H2.
  destruct (Path.is_nil e || forallb (Ascii.eqb ".") r); simpl.
  - apply app_nil_r.
  - now rewrite <- app_assoc, H2.
Qed.

Lemma has_char_app (c : ascii) (x y : str) :
  has_char c (x ++ y) = has_char c x || has_char c y.
Proof. unfold has_char. apply existsb_app. Qed.

(** The name a colliding member is renamed to is a plain name. *)
Lemma renamed_is_relative (b zb ext : str) :
  has_char slash b = false ->
  startswith [slash]
    (fst (Path.splitext b) ++ txt "_" ++ zb ++ ext) = false /\
  fst (Path.splitext b) ++ txt "_" ++ zb ++ ext <> [].
Proof.
  intros Hb. rewrite <- (splitext_app b), has_char_app in Hb.
  apply orb_false_iff in Hb. destruct Hb as [Hr _].
  destruct (fst (Path.splitext b)) as [|c r]; simpl.
  - split; [reflexivity | discriminate].
  - split; [|discriminate].
    unfold has_char in Hr. simpl in Hr. apply orb_false_iff in Hr.
    destruct Hr as [Hc _]. now rewrite Hc.
Qed.

Lemma extract_member_extends (members : list member)
      (zip_path t log_file : str) (st st' : state) (r : res str) :
  has_suffix ".LOG" log_file = true ->
  extract_member members zip_path t log_file st = (r, st') ->
  extends t st st'.
Proof.
  intros Hlog. unfold extract_member, bind at 1.
  destruct (zip_extract members log_file t st) as [[[]|e] st1] eqn:Hx;
    [|intros H; inversion H; subst; eapply zip_extract_extends; eauto].
  apply zip_extract_extends in Hx.
  destruct (truthy (Path.dirname log_file));
    [|intros H; inversion H; subst; exact Hx].
  unfold bind, path_exists, get_fs, ret. simpl.
  set (new_path :=
         if FS.exists_ (st_fs st1)
                       (Path.join t (Path.basename log_file))
         then _ else _).
  assert (Hb : FS.below t new_path = true).
  { subst new_path.
    destruct (FS.exists_ (st_fs st1) (Path.join t (Path.basename log_file))).
    - destruct (renamed_is_relative
                  (Path.basename log_file) (Path.basename zip_path)
                  (snd (Path.splitext log_file))
                  (basename_no_slash log_file)) as [H1 H2].
      now apply below_join.
    - apply below_join; [now apply basename_of_log|].
      apply no_slash_not_absolute, basename_no_slash. }
  destruct (shutil_move (Path.join t log_file) new_path st1)
    as [[[]|e] st2] eqn:Hmv;
    intros H; inversion H; subst; clear H;
    (eapply extends_trans; [exact Hx|]);
    (eapply shutil_move_extends; [| exact Hb | exact Hmv]);
    now apply has_suffix_join.
Qed.

Lemma extract_members_extends (members : list member) (zip_path t : str) :
  forall log_files extracted st l oe st',
    Forall (fun f => has_suffix ".LOG" f = true) log_files ->
    extract_members members zip_path t log_files extracted st
    = ((l, oe), st') ->
    extends t st st'.
Proof.
  induction log_files as [|f log_files IH];
    intros extracted st l oe st' Hall; simpl.
  - intros H; inversion H; apply extends_refl.
  - inversion Hall; subst.
    destruct (extract_member members zip_path t f st) as [[p|e] st1] eqn:Hx;
      apply extract_member_extends in Hx; auto.
    + intros H. eapply extends_trans; [exact Hx|]. eapply IH; eauto.
    + intros H; inversion H; subst; exact Hx.
Qed.

Lemma extract_handler_extends (zip_path t : str) (e : exn) (l : list str)
      (st : state) :
  exists st', extract_handler zip_path e l st = (Ok l, st') /\
              extends t st st'.
Proof.
  unfold extract_handler, bind, print, emit, ret.
  destruct e; simpl; eexists; split; try reflexivity; apply extends_print.
Qed.

(** The Archive Extractor always returns: no exception leaves it. *)
Lemma extract_log_files_from_zip_extends (zip_path t : str) (st : state) :
  exists l st',
    extract_log_files_from_zip zip_path t st = (Ok l, st') /\
    extends t st st'.
Proof.
  unfold extract_log_files_from_zip.
  destruct (zip_open zip_path st) as [[members|e] st1] eqn:Ho.
  - assert (st1 = st).
    { unfold zip_open, bind, get_fs, ret, raise in Ho.
      destruct (FS.lookup (st_fs st) zip_path) as [[|f]|];
        try (inversion Ho; reflexivity).
      destruct (f_archive f); inversion Ho; reflexivity. }
    subst st1.
    destruct (truthy (filter (has_suffix ".LOG") (map m_name members)));
      simpl.
    + unfold print, emit. simpl.
      destruct (extract_members members zip_path t
                  (filter (has_suffix ".LOG") (map m_name members)) []
                  _) as [[l [e|]] st3] eqn:Hx;
        apply extract_members_extends in Hx;
        try (apply Forall_forall; intros f Hf; apply filter_In in Hf; tauto).
      * destruct (extract_handler_extends zip_path t e l st3)
          as (st4 & -> & H4).
        eexists _, _. split; [reflexivity|].
        eapply extends_trans; [apply extends_print|].
        eapply extends_trans; eauto.
      * eexists _, _. split; [reflexivity|].
        eapply extends_trans; [apply extends_print|]. exact Hx.
    + unfold bind, print, emit, ret. simpl.
      eexists _, _. split; [reflexivity|]. apply extends_print.
  - assert (st1 = st).
    { unfold zip_open, bind, get_fs, ret, raise in Ho.
      destruct (FS.lookup (st_fs st) zip_path) as [[|f]|];
        try (inversion Ho; reflexivity).
      destruct (f_archive f); inversion Ho; reflexivity. }
    subst st1.
    destruct (extract_handler_extends zip_path t e [] st) as (st4 & -> & H4).
    eauto.
Qed.

(** On a file that is not a ZIP archive the extractor returns no
    path, leaves the file system as it is and prints one message. *)
Lemma extract_from_bad_archive (zip_path t : str) (fs : filesystem)
      (tr : list event) (f : file) :
  FS.lookup fs zip_path = Some (Reg f) -> f_archive f = None ->
  extract_log_files_from_zip zip_path t (State fs tr) =
  (Ok [], State fs (tr ++ [Printed (MsgBadZip (Path.basename zip_path))])).
Proof.
  intros Hf Ha.
  unfold extract_log_files_from_zip, zip_open, bind, get_fs. simpl.
  rewrite Hf, Ha. reflexivity.
Qed.

(** ** Line Filter: always returns, never touches the file system *)

(** A path that is not there gives one of two errors. *)
Lemma missing_cases (fs : filesystem) (p : str) :
  missing fs p = FileNotFoundError \/ missing fs p = NotADirectoryError.
Proof.
  unfold missing.
  destruct (find _ _) as [d|]; [destruct (FS.isfile fs d)|]; auto.
Qed.

Lemma filter_log_file_returns (path : str) (pats : list Re.pattern)
      (hw : option (dict Colors)) (st : state) :
  exists l new,
    filter_log_file path pats hw st
    = (Ok l, State (st_fs st) (st_trace st ++ new)) /\
    forallb is_print new = true.
Proof.
  unfold filter_log_file, catch, read_text, bind, get_fs, ret, raise,
    print, emit.
  simpl. destruct (FS.lookup (st_fs st) path) as [[|f]|]; simpl;
    [| |destruct (missing_cases (st_fs st) path) as [-> | ->]];
    eexists _, _; split; try reflexivity; reflexivity.
Qed.

(** ** The two loops of the run *)

Lemma extract_all_spec (t : str) : forall zip_files log_files st,
  exists l st' new,
    extract_all zip_files t log_files st = (Ok (log_files ++ l), st') /\
    st_trace st' = st_trace st ++ new /\
    forallb is_print new = true /\
    kept t (st_fs st) (st_fs st') /\
    (forall z, In z zip_files ->
               In (Printed (MsgProcessingZip (Path.basename z))) new).
Proof.
  induction zip_files as [|z zs IH]; intros log_files st; simpl.
  - exists [], st, []. unfold ret. rewrite !app_nil_r.
    repeat split; auto; intros z [].
  - unfold bind at 1. unfold print, emit. simpl. unfold bind at 1.
    destruct (extract_log_files_from_zip_extends z t
                (State (st_fs st)
                       (st_trace st ++
                        [Printed (MsgProcessingZip (Path.basename z))])))
      as (l1 & st1 & -> & (n1 & E1 & P1) & K1).
    destruct (IH (log_files ++ l1) st1) as (l2 & st2 & n2 & -> & E2 & P2 & K2 & I2).
    exists (l1 ++ l2), st2,
      (Printed (MsgProcessingZip (Path.basename z)) :: n1 ++ n2).
    simpl in *. repeat split.
    + now rewrite app_assoc.
    + rewrite E2, E1, <- !app_assoc. reflexivity.
    + now rewrite forallb_app, P1, P2.
    + eapply kept_trans; eauto.
    + eapply kept_trans; eauto.
    + intros z' [<- | Hz]; [now left|].
      right. apply in_or_app. right. now apply I2.
Qed.

Lemma extract_all_cons (t z : str) (zs log_files : list str) :
  extract_all (z :: zs) t log_files =
  (print (MsgProcessingZip (Path.basename z)) ;;;
   extracted_logs <- extract_log_files_from_zip z t ;;
   extract_all zs t (log_files ++ extracted_logs)).
Proof. reflexivity. Qed.

Lemma extract_all_app (t : str) : forall zs1 zs2 log_files st,
  extract_all (zs1 ++ zs2) t log_files st =
  match extract_all zs1 t log_files st with
  | (Ok l1, st1) => extract_all zs2 t l1 st1
  | (Raise e, st1) => (Raise e, st1)
  end.
Proof.
  induction zs1 as [|z zs1 IH]; intros zs2 log_files st.
  - reflexivity.
  - rewrite <- app_comm_cons, !extract_all_cons.
    unfold bind at 1 3. unfold print, emit. cbn [fst snd].
    unfold bind at 1 2.
    destruct (extract_log_files_from_zip z t _) as [[l|e] st1];
      [apply IH | reflexivity].
Qed.

Lemma dict_set_not_nil {V} (d : dict V) (k : str) (v : V) :
  dict_set d k v <> [].
Proof.
  destruct d as [|[k' v'] d]; simpl; [discriminate|].
  destruct (str_eqb k' k); discriminate.
Qed.

Lemma scan_all_spec (pats : list Re.pattern) (hw : option (dict Colors)) :
  forall log_files results all st,
  exists results' all' new,
    scan_all log_files pats hw results all st
    = (Ok (results', all'), State (st_fs st) (st_trace st ++ new)) /\
    forallb is_print new = true /\
    (forall l, In l log_files ->
               (exists n, In (Printed (MsgMatches n (Path.basename l))) new) \/
               In (Printed (MsgNoMatches (Path.basename l))) new) /\
    ((results = [] <-> all = []) -> (results' = [] <-> all' = [])).
Proof.
  induction log_files as [|p ps IH]; intros results all st; simpl.
  - destruct st as [fs tr]. exists results, all, []. unfold ret. simpl.
    rewrite app_nil_r. repeat split; auto; try tauto; intros l [].
  - unfold bind at 1.
    destruct (filter_log_file_returns p pats hw st) as (l & n1 & -> & P1).
    destruct l as [|m l]; simpl.
    + unfold bind at 1, print, emit. simpl.
      destruct (IH results all
                   (State (st_fs st)
                          ((st_trace st ++ n1) ++
                           [Printed (MsgNoMatches (Path.basename p))])))
        as (r' & a' & n2 & -> & P2 & I2 & R2).
      exists r', a', (n1 ++ Printed (MsgNoMatches (Path.basename p)) :: n2).
      simpl. repeat split.
      * now rewrite <- !app_assoc.
      * rewrite forallb_app, P1. simpl. exact P2.
      * intros l' [<- | Hl].
        -- right. apply in_or_app. right. now left.
        -- destruct (I2 l' Hl) as [[n Hn] | Hn].
           ++ left. exists n. apply in_or_app. right. now right.
           ++ right. apply in_or_app. right. now right.
      * tauto.
      * tauto.
    + unfold bind at 1, print, emit. simpl.
      destruct (IH (dict_set results (Path.basename p) (m :: l))
                   (all ++ m :: l)
                   (State (st_fs st)
                          ((st_trace st ++ n1) ++
                           [Printed (MsgMatches (S (length l))
                                              (Path.basename p))])))
        as (r' & a' & n2 & -> & P2 & I2 & R2).
      exists r', a',
        (n1 ++ Printed (MsgMatches (S (length l)) (Path.basename p)) :: n2).
      simpl. repeat split.
      * now rewrite <- !app_assoc.
      * rewrite forallb_app, P1. simpl. exact P2.
      * intros l' [<- | Hl].
        -- left. exists (S (length l)). apply in_or_app. right. now left.
        -- destruct (I2 l' Hl) as [[n Hn] | Hn].
           ++ left. exists n. apply in_or_app. right. now right.
           ++ right. apply in_or_app. right. now right.
      * apply R2. split; intros H'.
        -- exfalso. eapply dict_set_not_nil; eauto.
        -- apply app_eq_nil in H'. destruct H'; discriminate.
      * apply R2. split; intros H'.
        -- exfalso. eapply dict_set_not_nil; eauto.
        -- apply app_eq_nil in H'. destruct H'; discriminate.
Qed.

(** ** Report Writers: they return, and only write and print *)

Lemma write_text_cases (p content : str) (st : state) :
  (exists e, write_text p content st = (Raise e, st)) \/
  write_text p content st =
  (Ok tt, State (FS.set (st_fs st) p (Reg (text_file content)))
                (st_trace st ++ [Wrote p content])).
Proof.
  unfold write_text, bind, get_fs, put_fs, emit, raise. simpl.
  destruct (Path.is_nil p); [left; eauto|].
  destruct (FS.isdir (st_fs st) p); [left; eauto|].
  destruct (Path.is_nil (Path.dirname p)
            || FS.isdir (st_fs st) (Path.dirname p));
    [right; reflexivity | left; eauto].
Qed.

Lemma lookup_set_other (fs : filesystem) (p q : str) (n : node) :
  q <> p -> FS.lookup (FS.set fs p n) q = FS.lookup fs q.
Proof.
  intros H. rewrite lookup_set.
  destruct (str_eqb p q) eqn:E; [|reflexivity].
  apply str_eqb_eq in E. congruence.
Qed.

Lemma save_results_as_text_returns (l : list Match) (p : str) (st : state) :
  exists st' post,
    save_results_as_text l p st = (Ok tt, st') /\
    st_trace st' = st_trace st ++ post /\ no_lifecycle post /\
    (forall q, q <> p -> FS.lookup (st_fs st') q = FS.lookup (st_fs st) q).
Proof.
  unfold save_results_as_text, catch, bind at 1.
  destruct (write_text_cases p (text_report l) st) as [[e ->] | ->];
    unfold print, emit; simpl.
  - exists (State (st_fs st) (st_trace st ++ [Printed (MsgTextWriteError e)])),
      [Printed (MsgTextWriteError e)].
    repeat split.
  - exists (State (FS.set (st_fs st) p (Reg (text_file (text_report l))))
                  ((st_trace st ++ [Wrote p (text_report l)]) ++
                   [Printed (MsgSavedText p)])),
      [Wrote p (text_report l); Printed (MsgSavedText p)].
    repeat split.
    + simpl. now rewrite <- app_assoc.
    + intros q Hq. simpl. now apply lookup_set_other.
Qed.

Lemma save_results_as_html_returns (l : list Match) (p : str)
      (hw : option (dict Colors)) (st : state) :
  exists st' post,
    save_results_as_html l p hw st = (Ok tt, st') /\
    st_trace st' = st_trace st ++ post /\ no_lifecycle post /\
    (forall q, q <> p -> FS.lookup (st_fs st') q = FS.lookup (st_fs st) q).
Proof.
  unfold save_results_as_html, catch.
  destruct (html_blocks l hw) as [blocks [e|]].
  - unfold bind at 1.
    destruct (write_text_cases p (html_header (length l) ++ blocks) st)
      as [[e' ->] | ->]; unfold raise, print, emit; simpl.
    + exists (State (st_fs st)
                    (st_trace st ++ [Printed (MsgHtmlWriteError e')])),
        [Printed (MsgHtmlWriteError e')].
      repeat split.
    + eexists (State _ _),
        [Wrote p (html_header (length l) ++ blocks);
         Printed (MsgHtmlWriteError e)].
      repeat split.
      * simpl. now rewrite <- app_assoc.
      * intros q Hq. simpl. now apply lookup_set_other.
  - unfold bind at 1.
    destruct (write_text_cases
                p (html_header (length l) ++ blocks ++ html_footer) st)
      as [[e' ->] | ->]; unfold raise, print, emit; simpl.
    + exists (State (st_fs st)
                    (st_trace st ++ [Printed (MsgHtmlWriteError e')])),
        [Printed (MsgHtmlWriteError e')].
      repeat split.
    + eexists (State _ _),
        [Wrote p (html_header (length l) ++ blocks ++ html_footer);
         Printed (MsgSavedHtml p)].
      repeat split.
      * simpl. now rewrite <- app_assoc.
      * intros q Hq. simpl. now apply lookup_set_other.
Qed.

Lemma write_reports_spec (results : dict (list Match)) (all : list Match)
      (output_txt output_html : str) (hw : option (dict Colors))
      (st : state) :
  exists st' post,
    write_reports results all output_txt output_html hw st
    = (Ok results, st') /\
    st_trace st' = st_trace st ++ post /\ no_lifecycle post /\
    (all = [] -> post = [] /\ st' = st) /\
    (forall q, q <> output_txt -> q <> output_html ->
               FS.lookup (st_fs st') q = FS.lookup (st_fs st) q).
Proof.
  unfold write_reports. destruct all as [|m all]; simpl.
  - exists st, []. unfold ret. rewrite app_nil_r. repeat split; auto.
  - unfold bind at 1.
    destruct (save_results_as_text_returns (m :: all) output_txt st)
      as (st1 & p1 & -> & E1 & N1 & F1).
    unfold bind at 1.
    destruct (save_results_as_html_returns (m :: all) output_html hw st1)
      as (st2 & p2 & -> & E2 & N2 & F2).
    exists st2, (p1 ++ p2). unfold ret.
    split; [reflexivity|]. split; [|split; [|split]].
    + now rewrite E2, E1, <- app_assoc.
    + unfold no_lifecycle in *. now rewrite forallb_app, N1, N2.
    + discriminate.
    + intros q H1 H2. now rewrite F2, F1.
Qed.

(** ** The run *)

Arguments extract_all : simpl never.
Arguments scan_all : simpl never.
Arguments write_reports : simpl never.

Section Run.

Variables (folder : str) (keywords : list str) (output_txt output_html : str)
          (hw : option (dict Colors)) (process_zips : bool)
          (tmp : option str) (fs : filesystem) (tr : list event).

Let run := process_all_log_files folder keywords output_txt output_html
                                 hw process_zips tmp (State fs tr).
Let logs := discovered_logs fs folder.
Let zips := discovered_zips fs folder process_zips.

(** A listing failure aborts the run before anything else happens. *)
Lemma run_without_listing :
  FS.isdir fs folder = false -> exists e, run = (Raise e, State fs tr).
Proof.
  intros H. subst run. unfold process_all_log_files.
  rewrite compile_keyword_patterns_ok.
  unfold bind at 1. unfold listdir, bind, get_fs, raise. simpl.
  rewrite H. destruct (FS.exists_ fs folder); eauto.
Qed.

Lemma run_unfold :
  FS.isdir fs folder = true ->
  run =
  if negb (truthy logs) && negb (truthy zips) then
    (Ok [], State fs (tr ++ [Printed MsgNothingFound]))
  else
    let st := State fs (tr ++ [found_message fs folder process_zips]) in
    let '((r, temp_dir), st1) :=
      try_block zips logs (map literal keywords) hw tmp st in
    match finally_block temp_dir st1 with
    | (Raise e, st2) => (Raise e, st2)
    | (Ok _, st2) =>
        match r with
        | Raise e => (Raise e, st2)
        | Ok (results, all) =>
            write_reports results all output_txt output_html hw st2
        end
    end.
Proof.
  intros H. subst run logs zips. unfold process_all_log_files.
  rewrite compile_keyword_patterns_ok.
  unfold bind at 1. unfold listdir, bind at 1, get_fs, ret. simpl.
  rewrite H. unfold bind at 1. simpl.
  fold (discovered_logs fs folder).
  fold (discovered_zips fs folder process_zips).
  destruct (negb (truthy (discovered_logs fs folder))
            && negb (truthy (discovered_zips fs folder process_zips))).
  - reflexivity.
  - reflexivity.
Qed.

(** Nothing to scan: one message, no other effect. *)
Lemma run_nothing_found :
  FS.isdir fs folder = true -> logs = [] -> zips = [] ->
  run = (Ok [], State fs (tr ++ [Printed MsgNothingFound])).
Proof.
  intros H Hl Hz. rewrite (run_unfold H), Hl, Hz. reflexivity.
Qed.

(** No container: the plain files are scanned, no directory is made. *)
Lemma run_without_containers :
  FS.isdir fs folder = true -> logs <> [] -> zips = [] ->
  exists (results : dict (list Match)) (all : list Match)
         (mid post : list event) (st' : state),
    run = (Ok results, st') /\
    st_trace st' =
      tr ++ [found_message fs folder process_zips] ++ mid ++ post /\
    forallb is_print mid = true /\ no_lifecycle post /\
    (results = [] <-> all = []) /\
    (all = [] -> post = [] /\ st_fs st' = fs) /\
    (forall l, In l logs ->
               (exists n, In (Printed (MsgMatches n (Path.basename l))) mid) \/
               In (Printed (MsgNoMatches (Path.basename l))) mid).
Proof.
  intros H Hl Hz. rewrite (run_unfold H), Hz.
  destruct logs as [|l0 ls] eqn:El; [congruence|]. cbn [truthy Path.is_nil negb andb].
  cbv zeta. unfold try_block. cbn [truthy Path.is_nil negb].
  destruct (scan_all_spec (map literal keywords) hw (l0 :: ls) [] []
              (State fs (tr ++ [found_message fs folder process_zips])))
    as (results & all & mid & -> & Pm & Im & Rm).
  cbn [finally_block ret st_fs st_trace].
  destruct (write_reports_spec results all output_txt output_html hw
              (State fs ((tr ++ [found_message fs folder process_zips])
                         ++ mid)))
    as (st' & post & -> & Et & Np & Ep & Fp).
  exists results, all, mid, post, st'.
  split; [reflexivity|]. split; [|split; [exact Pm|split; [exact Np|]]].
  { rewrite Et. simpl. now rewrite <- !app_assoc. }
  split; [apply Rm; tauto|]. split; [|exact Im].
  intros Ha. destruct (Ep Ha) as [-> ->]. split; reflexivity.
Qed.

(** Containers were found but no temporary directory could be made:
    the run is aborted, nothing was created and nothing is removed. *)
Lemma run_without_temp_dir :
  FS.isdir fs folder = true -> zips <> [] -> tmp = None ->
  run = (Raise OSError,
         State fs (tr ++ [found_message fs folder process_zips])).
Proof.
  intros H Hz Ht. rewrite (run_unfold H).
  destruct zips as [|z0 zs] eqn:Ez; [congruence|].
  rewrite andb_false_r. cbv zeta. unfold try_block.
  cbn [truthy Path.is_nil negb]. rewrite Ht. reflexivity.
Qed.

(** Containers were found and the temporary directory [t] was made:
    every container is processed, then every file of the scan list,
    then [t] is removed, then the reports are written. *)
Lemma run_with_containers (t : str) :
  FS.isdir fs folder = true -> zips <> [] -> tmp = Some t ->
  let st0 := State (FS.set fs t Dir)
                   (tr ++ [found_message fs folder process_zips;
                           Mkdtemp t; Printed (MsgCreatedTemp t)]) in
  exists (results : dict (list Match)) (all : list Match)
         (extracted : list str) (st1 : state)
         (mid post : list event) (st' : state),
    run = (Ok results, st') /\
    extract_all zips t logs st0 = (Ok (logs ++ extracted), st1) /\
    st_trace st' =
      tr ++ [found_message fs folder process_zips;
             Mkdtemp t; Printed (MsgCreatedTemp t)]
         ++ mid ++ removal t ++ post /\
    forallb is_print mid = true /\ no_lifecycle post /\
    (results = [] <-> all = []) /\ (all = [] -> post = []) /\
    (forall z, In z zips ->
               In (Printed (MsgProcessingZip (Path.basename z))) mid) /\
    (forall l, In l (logs ++ extracted) ->
               (exists n, In (Printed (MsgMatches n (Path.basename l))) mid) \/
               In (Printed (MsgNoMatches (Path.basename l))) mid) /\
    (t <> [] ->
     forall q, str_eqb q t || FS.below t q = true ->
               q <> output_txt -> q <> output_html ->
               FS.lookup (st_fs st') q = None).
Proof.
  intros H Hz Ht st0. rewrite (run_unfold H).
  destruct zips as [|z0 zs] eqn:Ez; [congruence|].
  rewrite andb_false_r. cbv zeta. unfold try_block.
  cbn [truthy Path.is_nil negb]. rewrite Ht.
  unfold mkdtemp, bind at 1, get_fs, put_fs, emit, ret. simpl.
  unfold bind at 1, print, emit. simpl. unfold bind at 1.
  rewrite <- !app_assoc. simpl.
  destruct (extract_all_spec t (z0 :: zs) logs st0)
    as (extracted & st1 & n1 & Ex & E1 & P1 & K1 & I1).
  subst st0. rewrite Ex.
  destruct (scan_all_spec (map literal keywords) hw (logs ++ extracted)
                          [] [] st1)
    as (results & all & n2 & -> & P2 & I2 & R2).
  assert (Hdir : FS.lookup (st_fs st1) t = Some Dir).
  { destruct K1 as [K1 _]. apply K1. simpl.
    now rewrite lookup_set, str_eqb_refl. }
  unfold finally_block, bind at 1, path_exists, bind, get_fs, ret.
  simpl. unfold FS.exists_. rewrite Hdir. simpl.
  rewrite andb_true_r.
  destruct t as [|c t'] eqn:Etn; simpl.
  - destruct (write_reports_spec results all output_txt output_html hw
                (State (st_fs st1) (st_trace st1 ++ n2)))
      as (st' & post & -> & Et & Np & Ep & Fp).
    exists results, all, extracted, st1, (n1 ++ n2), post, st'.
    repeat split; auto.
    + rewrite Et, E1. simpl. now rewrite <- !app_assoc.
    + now rewrite forallb_app, P1, P2.
    + apply R2; tauto.
    + apply R2; tauto.
    + intros Ha. now apply Ep.
    + intros z Hin. apply in_or_app. left. now apply I1.
    + intros l Hin. destruct (I2 l Hin) as [[n Hn] | Hn].
      * left. exists n. apply in_or_app. now right.
      * right. apply in_or_app. now right.
    + congruence.
  - unfold rmtree, bind, get_fs, put_fs, emit, print, emit, FS.isdir.
    simpl. rewrite Hdir. simpl.
    destruct (write_reports_spec results all output_txt output_html hw
                (State (FS.without_tree (st_fs st1) (c :: t'))
                       (((st_trace st1 ++ n2) ++ [Rmtree (c :: t')]) ++
                        [Printed (MsgRemovedTemp (c :: t'))])))
      as (st' & post & -> & Et & Np & Ep & Fp).
    exists results, all, extracted, st1, (n1 ++ n2), post, st'.
    repeat split; auto.
    + rewrite Et, E1. simpl. rewrite <- !app_assoc. reflexivity.
    + now rewrite forallb_app, P1, P2.
    + apply R2; tauto.
    + apply R2; tauto.
    + intros Ha. now apply Ep.
    + intros z Hin. apply in_or_app. left. now apply I1.
    + intros l Hin. destruct (I2 l Hin) as [[n Hn] | Hn].
      * left. exists n. apply in_or_app. now right.
      * right. apply in_or_app. now right.
    + intros _ q Hq Hq1 Hq2. rewrite (Fp q Hq1 Hq2). simpl.
      rewrite lookup_without_tree, Hq. reflexivity.
Qed.

End Run.

Lemma prints_have_no_lifecycle (l : list event) :
  forallb is_print l = true -> filter is_lifecycle l = [].
Proof.
  induction l as [|e l IH]; simpl; auto.
  destruct e; simpl; try discriminate. exact IH.
Qed.

Lemma no_lifecycle_filter (l : list event) :
  no_lifecycle l -> filter is_lifecycle l = [].
Proof.
  unfold no_lifecycle. induction l as [|e l IH]; simpl; auto.
  destruct (is_lifecycle e); simpl; [discriminate | exact IH].
Qed.

Lemma prints_have_no_write (l : list event) :
  forallb is_print l = true ->
  forallb (fun e => negb (is_wrote e)) l = true.
Proof.
  induction l as [|e l IH]; simpl; auto.
  destruct e; simpl; try discriminate. exact IH.
Qed.

(** C8.  In every run the temporary directory is either never created
    and never removed (the folder cannot be listed, no container was
    discovered, or the system has no directory to give), or it is
    created once and removed once before the function returns; in that
    case the run is not aborted, every discovered container is
    processed between the creation and the removal, whatever happens
    while extracting, nothing is created or removed afterwards, and
    when the function returns nothing exists at the directory's path or
    below it, the output paths apart. *)
Theorem temp_dir_created_once_and_removed_once
        (folder : str) (keywords : list str) (output_txt output_html : str)
        (hw : option (dict Colors)) (process_zips : bool)
        (tmp : option str) (fs : filesystem) (tr : list event)
        (Htmp : forall t, tmp = Some t -> t <> []) :
  let run := process_all_log_files folder keywords output_txt output_html
                                   hw process_zips tmp (State fs tr) in
  let zips := discovered_zips fs folder process_zips in
  exists new,
    st_trace (snd run) = tr ++ new /\
    ((filter is_lifecycle new = [] /\
      (FS.isdir fs folder = false \/ zips = [] \/ tmp = None))
     \/
     (exists t mid post results,
         tmp = Some t /\ zips <> [] /\ fst run = Ok results /\
         new = [found_message fs folder process_zips;
                Mkdtemp t; Printed (MsgCreatedTemp t)]
                 ++ mid ++ [Rmtree t; Printed (MsgRemovedTemp t)] ++ post /\
         filter is_lifecycle new = [Mkdtemp t; Rmtree t] /\
         forallb is_print mid = true /\ no_lifecycle post /\
         (forall z, In z zips ->
                    In (Printed (MsgProcessingZip (Path.basename z))) mid) /\
         (forall q, str_eqb q t || FS.below t q = true ->
                    q <> output_txt -> q <> output_html ->
                    FS.lookup (st_fs (snd run)) q = None))).
Proof.
  intros run zips. subst run zips.
  destruct (FS.isdir fs folder) eqn:Hdir.
  - destruct (discovered_zips fs folder process_zips) as [|z0 zs] eqn:Hz.
    + destruct (discovered_logs fs folder) as [|l0 ls] eqn:Hl.
      * rewrite (run_nothing_found folder keywords output_txt output_html
                   hw process_zips tmp fs tr Hdir Hl Hz).
        exists [Printed MsgNothingFound]. split; [reflexivity|].
        left. split; auto.
      * destruct (run_without_containers folder keywords output_txt
                    output_html hw process_zips tmp fs tr Hdir)
          as (results & all & mid & post & st' & -> & Et & Pm & Np & _);
          [rewrite Hl; discriminate | exact Hz |].
        eexists. split; [exact Et|]. left. split; auto.
        simpl. rewrite filter_app, (prints_have_no_lifecycle mid Pm),
                 (no_lifecycle_filter post Np).
        reflexivity.
    + destruct tmp as [t|] eqn:Ht.
      * destruct (run_with_containers folder keywords output_txt
                    output_html hw process_zips (Some t) fs tr t Hdir)
          as (results & all & extracted & st1 & mid & post & st' &
              -> & _ & Et & Pm & Np & _ & _ & Iz & _ & Hgone);
          [rewrite Hz; discriminate | reflexivity |].
        assert (Hrm : removal t = [Rmtree t; Printed (MsgRemovedTemp t)]).
        { unfold removal. destruct t; [|reflexivity].
          exfalso. now apply (Htmp []). }
        rewrite Hrm in Et.
        eexists. split; [exact Et|]. right.
        exists t, mid, post, results.
        split; [reflexivity|]. split; [discriminate|].
        split; [reflexivity|]. split; [reflexivity|].
        split; [|split; [exact Pm | split; [exact Np | split]]].
        -- simpl. rewrite filter_app, (prints_have_no_lifecycle mid Pm).
           simpl. now rewrite (no_lifecycle_filter post Np).
        -- rewrite Hz in Iz. exact Iz.
        -- apply Hgone. now apply (Htmp t).
      * rewrite (run_without_temp_dir folder keywords output_txt output_html
                   hw process_zips None fs tr Hdir);
          [| rewrite Hz; discriminate | reflexivity].
        eexists. split; [reflexivity|]. left. split; auto.
  - destruct (run_without_listing folder keywords output_txt output_html
                hw process_zips tmp fs tr Hdir) as [e ->].
    exists []. split; [simpl; now rewrite app_nil_r|]. left. split; auto.
Qed.

(** C9.  When the run returns no match at all, the report writers
    were not run: the events of the run contain no file write, to the
    path of the text report, to that of the structured report or
    anywhere else, and when no container was discovered the file system
    is the one the run started with. *)
Theorem no_match_no_report
        (folder : str) (keywords : list str) (output_txt output_html : str)
        (hw : option (dict Colors)) (process_zips : bool)
        (tmp : option str) (fs : filesystem) (tr : list event)
        (results : dict (list Match)) (st' : state)
        (Hrun : process_all_log_files folder keywords output_txt output_html
                                      hw process_zips tmp (State fs tr)
                = (Ok results, st'))
        (Hnone : results = []) :
  exists new,
    st_trace st' = tr ++ new /\
    forallb (fun e => negb (is_wrote e)) new = true /\
    (forall content, ~ In (Wrote output_txt content) new) /\
    (forall content, ~ In (Wrote output_html content) new) /\
    (discovered_zips fs folder process_zips = [] -> st_fs st' = fs).
Proof.
  assert (Hmain : exists new,
             st_trace st' = tr ++ new /\
             forallb (fun e => negb (is_wrote e)) new = true /\
             (discovered_zips fs folder process_zips = [] ->
              st_fs st' = fs)).
  { destruct (FS.isdir fs folder) eqn:Hdir.
    - destruct (discovered_zips fs folder process_zips) as [|z0 zs] eqn:Hz.
      + destruct (discovered_logs fs folder) as [|l0 ls] eqn:Hl.
        * rewrite (run_nothing_found folder keywords output_txt output_html
                     hw process_zips tmp fs tr Hdir Hl Hz) in Hrun.
          inversion Hrun; subst. eexists. repeat split.
        * destruct (run_without_containers folder keywords output_txt
                      output_html hw process_zips tmp fs tr Hdir)
            as (results' & all & mid & post & st2 & E & Et & Pm & Np &
                R & Ep & _);
            [rewrite Hl; discriminate | exact Hz |].
          rewrite E in Hrun. inversion Hrun; subst.
          destruct (Ep (proj1 R eq_refl)) as [-> Hfs].
          eexists. split; [exact Et|]. split; [|auto].
          simpl. rewrite app_nil_r. now apply prints_have_no_write.
      + destruct tmp as [t|] eqn:Ht.
        * destruct (run_with_containers folder keywords output_txt
                      output_html hw process_zips (Some t) fs tr t Hdir)
            as (results' & all & extracted & st1 & mid & post & st2 &
                E & _ & Et & Pm & Np & R & Ep & _);
            [rewrite Hz; discriminate | reflexivity |].
          rewrite E in Hrun. inversion Hrun; subst.
          rewrite (Ep (proj1 R eq_refl)) in Et.
          eexists. split; [exact Et|]. split; [|discriminate].
          simpl. rewrite forallb_app, (prints_have_no_write mid Pm).
          rewrite app_nil_r. unfold removal. now destruct t.
        * rewrite (run_without_temp_dir folder keywords output_txt
                     output_html hw process_zips None fs tr Hdir) in Hrun;
            [discriminate | rewrite Hz; discriminate | reflexivity].
    - destruct (run_without_listing folder keywords output_txt output_html
                  hw process_zips tmp fs tr Hdir) as [e E].
      rewrite E in Hrun. discriminate. }
  destruct Hmain as (new & Et & Hw & Hfs).
  exists new. split; [exact Et|]. split; [exact Hw|].
  rewrite forallb_forall in Hw.
  split; [|split; [|exact Hfs]]; intros content Hin;
    apply Hw in Hin; discriminate.
Qed.

Lemma fresh_lookup (fs : filesystem) (t p : str) :
  fresh fs t = true -> str_eqb p t || FS.below t p = true ->
  FS.lookup fs p = None.
Proof.
  unfold fresh. induction fs as [|[k n] fs IH]; simpl; auto.
  rewrite andb_true_iff, negb_true_iff. intros [Hk Hfs] Hp.
  destruct (str_eqb k p) eqn:E; [|auto].
  apply str_eqb_eq in E. subst k. congruence.
Qed.

Lemma in_files_with_suffix (fs : filesystem) (folder : str)
      (names : list str) (suffix : string) (p : str) :
  In p (files_with_suffix fs folder names suffix) ->
  has_suffix suffix p = true.
Proof.
  unfold files_with_suffix. rewrite in_map_iff.
  intros (n & <- & Hn). apply filter_In in Hn. destruct Hn as [_ Hn].
  apply andb_true_iff in Hn. destruct Hn as [_ Hn].
  now apply has_suffix_join.
Qed.

(** C7.  A container that is not a valid archive does not abort the
    run.  The containers before it are processed; when its turn comes
    it is still the file it was, the extractor returns no path for it,
    changes no file and prints one message, which is an error message;
    the containers after it are processed from there; and every
    discovered container and every file of the scan list is
    processed. *)
Theorem bad_archive_is_skipped
        (folder : str) (keywords : list str) (output_txt output_html : str)
        (hw : option (dict Colors)) (t : str)
        (fs : filesystem) (tr : list event)
        (before after : list str) (z : str) (f : file)
        (Hdir : FS.isdir fs folder = true)
        (Hzips : discovered_zips fs folder true = before ++ z :: after)
        (Hfile : FS.lookup fs z = Some (Reg f))
        (Hbad : f_archive f = None)
        (Hfresh : fresh fs t = true) :
  let logs := discovered_logs fs folder in
  let st0 := State (FS.set fs t Dir)
                   (tr ++ [found_message fs folder true;
                           Mkdtemp t; Printed (MsgCreatedTemp t)]) in
  exists (results : dict (list Match)) (st' : state)
         (l1 : list str) (st1 : state)
         (extracted : list str) (st2 : state) (new : list event),
    process_all_log_files folder keywords output_txt output_html hw
                          true (Some t) (State fs tr)
    = (Ok results, st') /\
    extract_all before t logs st0 = (Ok l1, st1) /\
    FS.lookup (st_fs st1) z = Some (Reg f) /\
    (forall tr1,
        extract_log_files_from_zip z t (State (st_fs st1) tr1)
        = (Ok [], State (st_fs st1)
                        (tr1 ++ [Printed (MsgBadZip (Path.basename z))]))) /\
    is_error (MsgBadZip (Path.basename z)) = true /\
    extract_all (before ++ z :: after) t logs st0
    = extract_all after t l1
        (State (st_fs st1)
               (st_trace st1 ++
                [Printed (MsgProcessingZip (Path.basename z));
                 Printed (MsgBadZip (Path.basename z))])) /\
    extract_all (before ++ z :: after) t logs st0
    = (Ok (logs ++ extracted), st2) /\
    st_trace st' = tr ++ new /\
    (forall z', In z' (before ++ z :: after) ->
                In (Printed (MsgProcessingZip (Path.basename z'))) new) /\
    (forall l, In l (logs ++ extracted) ->
               (exists n, In (Printed (MsgMatches n (Path.basename l))) new) \/
               In (Printed (MsgNoMatches (Path.basename l))) new).
Proof.
  intros logs st0.
  destruct (run_with_containers folder keywords output_txt output_html hw
              true (Some t) fs tr t Hdir)
    as (results & all & extracted & st2 & mid & post & st' &
        Hrun & Hex & Et & Pm & Np & _ & _ & Iz & Il & _);
    [rewrite Hzips; now destruct before | reflexivity |].
  rewrite Hzips in Hex, Iz. fold logs st0 in Hex.
  destruct (extract_all_spec t before logs st0)
    as (e1 & st1 & n1 & Hb & E1 & P1 & [_ K1] & _).
  assert (Hz1 : FS.lookup (st_fs st1) z = Some (Reg f)).
  { assert (Hzt : str_eqb z t || FS.below t z = false).
    { destruct (str_eqb z t || FS.below t z) eqn:E; auto.
      rewrite (fresh_lookup fs t z Hfresh E) in Hfile. discriminate. }
    apply orb_false_iff in Hzt. destruct Hzt as [Hne Hnb].
    apply K1; auto.
    - subst st0. simpl. rewrite lookup_set, str_eqb_sym, Hne. exact Hfile.
    - apply zip_is_not_log.
      apply (in_files_with_suffix fs folder (FS.names_in fs folder) ".ZIP").
      unfold discovered_zips in Hzips. rewrite Hzips.
      apply in_or_app. right. now left. }
  assert (Hstep : forall tr1,
             extract_log_files_from_zip z t (State (st_fs st1) tr1)
             = (Ok [], State (st_fs st1)
                             (tr1 ++ [Printed (MsgBadZip (Path.basename z))]))).
  { intros tr1. now apply (extract_from_bad_archive z t _ tr1 f). }
  assert (Hsplit :
            extract_all (before ++ z :: after) t logs st0
            = extract_all after t (logs ++ e1)
                (State (st_fs st1)
                       (st_trace st1 ++
                        [Printed (MsgProcessingZip (Path.basename z));
                         Printed (MsgBadZip (Path.basename z))]))).
  { rewrite extract_all_app, Hb, extract_all_cons.
    unfold bind at 1. unfold print, emit. cbn [fst snd st_fs st_trace].
    unfold bind at 1. rewrite Hstep, app_nil_r, <- app_assoc. reflexivity. }
  exists results, st', (logs ++ e1), st1, extracted, st2.
  eexists. split; [exact Hrun|]. split; [exact Hb|].
  split; [exact Hz1|]. split; [exact Hstep|]. split; [reflexivity|].
  split; [exact Hsplit|]. split; [exact Hex|]. split; [exact Et|].
  split.
  - intros z' Hin. simpl. right. right. right.
    apply in_or_app. left. now apply Iz.
  - intros l Hin. simpl. destruct (Il l Hin) as [[n Hn] | Hn].
    + left. exists n. right. right. right. apply in_or_app. now left.
    + right. right. right. right. apply in_or_app. now left.
Qed.

(** ** Extraction into an empty directory *)

Lemma str_eqb_app (p x y : str) : str_eqb (p ++ x) (p ++ y) = str_eqb x y.
Proof.
  induction p as [|c p IH]; simpl; auto. now rewrite Ascii.eqb_refl.
Qed.

Lemma str_eqb_app_nil (p x : str) : str_eqb p (p ++ x) = str_eqb [] x.
Proof. rewrite <- (app_nil_r p) at 1. apply str_eqb_app. Qed.

Lemma str_eqb_nil_app (p x : str) : str_eqb (p ++ x) p = str_eqb x [].
Proof. rewrite <- (app_nil_r p) at 2. apply str_eqb_app. Qed.

Lemma parents_from_app (x y acc : str) :
  Path.parents_from acc (x ++ y) =
  Path.parents_from (rev x ++ acc) y ++ Path.parents_from acc x.
Proof.
  revert acc; induction x as [|c x IH]; intros acc; simpl.
  - now rewrite app_nil_r.
  - rewrite IH, <- !app_assoc. reflexivity.
Qed.

Lemma parents_from_plain (name acc : str) :
  has_char slash name = false -> Path.parents_from acc name = [].
Proof.
  revert acc; induction name as [|c name IH]; intros acc; simpl; auto.
  unfold has_char. simpl. rewrite orb_false_iff, Ascii.eqb_sym.
  intros [-> H]. simpl. rewrite IH; auto.
Qed.

(** The directories above [d/name] are [d] and those above [d]. *)
Lemma parents_step (d name : str) :
  has_char slash name = false ->
  Path.drop_slashes (rev d) = rev d -> d <> [] ->
  Path.parents (d ++ slash :: name) = d :: Path.parents d.
Proof.
  intros Hn Hd Hne. unfold Path.parents.
  rewrite parents_from_app, app_nil_r. simpl.
  rewrite parents_from_plain by exact Hn. simpl. rewrite Hd.
  rewrite rev_involutive.
  destruct d as [|c d]; [congruence|].
  destruct (rev (c :: d)) eqn:E; [|reflexivity].
  apply (f_equal (@length ascii)) in E. rewrite length_rev in E.
  discriminate E.
Qed.

Lemma normal_join (t x : str) :
  normal_dir t = true -> startswith [slash] x = false ->
  Path.join t x = t ++ slash :: x.
Proof.
  intros Hnormal Hx. unfold Path.join. rewrite Hx.
  unfold normal_dir in Hnormal. apply andb_true_iff in Hnormal.
  destruct Hnormal as [H1 H2]. apply negb_true_iff in H2.
  rewrite H2. unfold truthy in H1. apply negb_true_iff in H1.
  now rewrite H1.
Qed.

Lemma normal_rev (t : str) :
  normal_dir t = true -> Path.drop_slashes (rev t) = rev t /\ t <> [].
Proof.
  intros Hnormal.
  unfold normal_dir in Hnormal. apply andb_true_iff in Hnormal.
  destruct Hnormal as [H1 H2]. apply negb_true_iff in H2.
  split; [|destruct t; [discriminate | discriminate]].
  unfold endswith in H2. simpl in H2.
  destruct (rev t) as [|c r]; simpl in *; auto.
  rewrite andb_true_r, Ascii.eqb_sym in H2. now rewrite H2.
Qed.

Lemma empty_lookup (fs : filesystem) (t x : str) :
  normal_dir t = true -> empty_dir fs t = true -> x <> [] ->
  FS.lookup fs (t ++ slash :: x) = None.
Proof.
  intros Hnormal Hempty Hx.
  assert (Hb : FS.below t (t ++ slash :: x) = true).
  { unfold FS.below. rewrite (normal_join t [] Hnormal) by reflexivity.
    change (t ++ slash :: x) with (t ++ [slash] ++ x).
    rewrite app_assoc, startswith_prefix. simpl.
    apply negb_true_iff. rewrite str_eqb_app_nil.
    now destruct x. }
  unfold empty_dir in Hempty.
  induction fs as [|[k n] fs' IH]; simpl in *; auto.
  apply andb_true_iff in Hempty. destruct Hempty as [Hk Hfs].
  destruct (str_eqb k (t ++ slash :: x)) eqn:E; auto.
  apply str_eqb_eq in E. subst k. rewrite Hb in Hk. discriminate.
Qed.

Lemma split_last_plain (p n : str) :
  has_char slash n = false ->
  Path.split_last (p ++ slash :: n) = (p ++ [slash], n).
Proof.
  intros Hn.
  assert (H0 : Path.split_last n = ([], n)).
  { induction n as [|c n IH]; simpl; auto.
    unfold has_char in Hn. simpl in Hn. apply orb_false_iff in Hn.
    destruct Hn as [Hc Hn]. rewrite (IH Hn), Ascii.eqb_sym, Hc. reflexivity. }
  induction p as [|c p IH]; simpl.
  - now rewrite H0.
  - rewrite IH. now destruct p.
Qed.

Lemma dirname_join_plain (t n : str) :
  normal_dir t = true -> has_char slash n = false ->
  Path.dirname (Path.join t n) = t /\ Path.basename (Path.join t n) = n.
Proof.
  intros Ht Hn.
  rewrite (normal_join t n Ht) by now apply no_slash_not_absolute.
  unfold Path.dirname, Path.basename. rewrite (split_last_plain t n Hn).
  simpl. split; [|reflexivity].
  destruct (normal_rev t Ht) as [Hr Hne].
  unfold Path.trim_head. rewrite rev_app_distr. simpl.
  rewrite Hr, rev_involutive.
  destruct (forallb (Ascii.eqb slash) (t ++ [slash])) eqn:E; [|reflexivity].
  exfalso. rewrite forallb_app in E. apply andb_true_iff in E.
  destruct E as [E _].
  destruct t as [|c t']; [congruence|].
  assert (Hin : In (last (c :: t') c) (c :: t'))
    by (apply (@exists_last _ (c :: t')) in Hne as (l' & a & ->);
        rewrite last_last; apply in_or_app; right; now left).
  rewrite forallb_forall in E. apply E in Hin.
  apply Ascii.eqb_eq in Hin.
  apply (@exists_last _ (c :: t')) in Hne as (l' & a & El).
  rewrite El in Hr, Hin. rewrite last_last in Hin. subst a.
  rewrite rev_app_distr in Hr. simpl in Hr.
  apply (f_equal (@length ascii)) in Hr. simpl in Hr.
  clear -Hr.
  assert (Hle : forall x, length (Path.drop_slashes x) <= length x).
  { induction x as [|d x IH]; simpl; auto.
    destruct (Ascii.eqb d slash); simpl; lia. }
  specialize (Hle (rev l')). lia.
Qed.

Lemma parents_nested (t d n : str) :
  normal_dir t = true ->
  has_char slash d = false -> has_char slash n = false ->
  d <> [] -> Path.drop_slashes (rev d) = rev d ->
  Path.parents (t ++ slash :: d ++ slash :: n)
  = (t ++ slash :: d) :: t :: Path.parents t.
Proof.
  intros Hnormal Hd Hn Hne Hrev.
  destruct (normal_rev t Hnormal) as [Hr Ht].
  change (t ++ slash :: d ++ slash :: n)
    with (t ++ (slash :: d) ++ slash :: n).
  rewrite app_assoc, parents_step; auto.
  - f_equal. apply parents_step; auto.
  - rewrite rev_app_distr. simpl. rewrite <- app_assoc.
    destruct (rev d) as [|c r] eqn:E.
    + apply (f_equal (@length ascii)) in E. rewrite length_rev in E.
      destruct d; [congruence | discriminate].
    + simpl in *. destruct (Ascii.eqb c slash); auto.
      exfalso. apply (f_equal (@length ascii)) in Hrev. simpl in Hrev.
      assert (Hle : forall x, length (Path.drop_slashes x) <= length x).
      { induction x as [|e x IH]; simpl; auto.
        destruct (Ascii.eqb e slash); simpl; lia. }
      specialize (Hle r). lia.
  - destruct t; [congruence | discriminate].
Qed.

(** Extracting the member [d/n] into [t] when neither [t/d] nor
    [t/d/n] exists: the directory is made and the file written. *)
Lemma zip_extract_nested (members : list member) (t d n data : str)
      (m : member) (fs0 : filesystem) (tr0 : list event) :
  normal_dir t = true ->
  getinfo members (d ++ slash :: n) = Some m -> m_data m = Some data ->
  sanitize (d ++ slash :: n) = d ++ slash :: n ->
  has_char slash d = false -> has_char slash n = false ->
  d <> [] -> Path.drop_slashes (rev d) = rev d ->
  FS.lookup fs0 t = Some Dir ->
  FS.lookup fs0 (t ++ slash :: d) = None ->
  FS.lookup fs0 (t ++ slash :: d ++ slash :: n) = None ->
  zip_extract members (d ++ slash :: n) t (State fs0 tr0)
  = (Ok tt,
     State (FS.set (FS.set fs0 (t ++ slash :: d) Dir)
                   (t ++ slash :: d ++ slash :: n) (Reg (text_file data)))
           tr0).
Proof.
  intros Hnormal Hget Hdata Hsan Hd Hn Hne Hrev Ht Hd0 Hf0.
  unfold zip_extract. rewrite Hget, Hsan.
  rewrite (normal_join t _ Hnormal)
    by (apply no_slash_not_absolute in Hd; destruct d; [congruence|];
        exact Hd).
  rewrite (parents_nested t d n Hnormal Hd Hn Hne Hrev).
  unfold bind, get_fs, put_fs, raise. cbn [st_fs st_trace makedirs].
  rewrite Hd0, Ht, Hdata. cbn [st_fs st_trace].
  unfold FS.isdir. rewrite lookup_set.
  assert (E : str_eqb (t ++ slash :: d) (t ++ slash :: d ++ slash :: n)
              = false).
  { rewrite str_eqb_app.
    change (slash :: d ++ slash :: n) with ((slash :: d) ++ slash :: n).
    rewrite str_eqb_app_nil. reflexivity. }
  rewrite E, Hf0. simpl.
  destruct d; [congruence | reflexivity].
Qed.

(** Moving a regular file onto a path where nothing is. *)
Lemma shutil_move_plain (src dst : str) (file : file) (fs0 : filesystem)
      (tr0 : list event) :
  FS.lookup fs0 src = Some (Reg file) -> FS.lookup fs0 dst = None ->
  shutil_move src dst (State fs0 tr0)
  = (Ok tt, State (FS.set (FS.remove fs0 src) dst (Reg file)) tr0).
Proof.
  intros Hs Hd. unfold shutil_move, bind, get_fs, put_fs, FS.isdir.
  simpl. rewrite Hd, Hs. reflexivity.
Qed.

(** Comparisons of the paths below [t] come down to comparisons of
    what follows [t]. *)
Ltac settle Hnormal Hempty Hdir :=
  repeat first
    [ rewrite lookup_set | rewrite lookup_remove
    | rewrite str_eqb_app | rewrite str_eqb_app_nil | rewrite str_eqb_nil_app
    | rewrite (empty_lookup _ _ _ Hnormal Hempty) by discriminate
    | rewrite Hdir
    | progress simpl ].

Section TwoLogs.

Variables (fs : filesystem) (tr : list event) (zip_path t : str)
          (da db : str) (dr : option str).
Hypothesis Hdir : FS.lookup fs t = Some Dir.
Hypothesis Hnormal : normal_dir t = true.
Hypothesis Hempty : empty_dir fs t = true.

Lemma extract_first :
  extract_member (two_logs_and_a_readme da db dr) zip_path t
                 (txt "a/x.LOG") (State fs tr)
  = (Ok (t ++ slash :: txt "x.LOG"), State (after_first fs t da) tr).
Proof.
  set (fs2 := FS.set (FS.set fs (t ++ slash :: txt "a") Dir)
                     (t ++ slash :: txt "a/x.LOG") (Reg (text_file da))).
  assert (HA : zip_extract (two_logs_and_a_readme da db dr)
                           (txt "a/x.LOG") t (State fs tr)
               = (Ok tt, State fs2 tr)).
  { apply (zip_extract_nested _ t (txt "a") (txt "x.LOG") da
             (Member (txt "a/x.LOG") (Some da)) fs tr);
      try reflexivity; try discriminate; auto;
      apply (empty_lookup fs t _ Hnormal Hempty); discriminate. }
  assert (HB : FS.lookup fs2 (t ++ slash :: txt "x.LOG") = None).
  { unfold fs2. settle Hnormal Hempty Hdir. reflexivity. }
  assert (HC : FS.lookup fs2 (t ++ slash :: txt "a/x.LOG")
               = Some (Reg (text_file da))).
  { unfold fs2. settle Hnormal Hempty Hdir. reflexivity. }
  unfold extract_member. unfold bind at 1. rewrite HA.
  change (Path.dirname (txt "a/x.LOG")) with (txt "a").
  change (Path.basename (txt "a/x.LOG")) with (txt "x.LOG").
  cbn [truthy Path.is_nil negb txt list_ascii_of_string].
  rewrite !(normal_join t _ Hnormal) by reflexivity.
  unfold bind at 1, path_exists, bind at 1, get_fs, ret, FS.exists_.
  cbn [st_fs st_trace].
  simpl in HB, HC. rewrite HB. cbn [is_some].
  unfold bind at 1.
  erewrite shutil_move_plain; [reflexivity | exact HC | exact HB].
Qed.

Lemma extract_second :
  let renamed := txt "x_" ++ Path.basename zip_path ++ txt ".LOG" in
  extract_member (two_logs_and_a_readme da db dr) zip_path t
                 (txt "b/x.LOG") (State (after_first fs t da) tr)
  = (Ok (t ++ slash :: renamed),
     State (after_second fs t renamed da db) tr).
Proof.
  intros renamed.
  set (fs5 := FS.set (FS.set (after_first fs t da)
                             (t ++ slash :: txt "b") Dir)
                     (t ++ slash :: txt "b/x.LOG") (Reg (text_file db))).
  assert (HA : zip_extract (two_logs_and_a_readme da db dr)
                           (txt "b/x.LOG") t (State (after_first fs t da) tr)
               = (Ok tt, State fs5 tr)).
  { apply (zip_extract_nested _ t (txt "b") (txt "x.LOG") db
             (Member (txt "b/x.LOG") (Some db)) (after_first fs t da) tr);
      try reflexivity; try discriminate; auto;
      unfold after_first; settle Hnormal Hempty Hdir; reflexivity. }
  assert (HB : FS.lookup fs5 (t ++ slash :: txt "x.LOG")
               = Some (Reg (text_file da))).
  { unfold fs5, after_first. settle Hnormal Hempty Hdir. reflexivity. }
  assert (HC : FS.lookup fs5 (t ++ slash :: txt "b/x.LOG")
               = Some (Reg (text_file db))).
  { unfold fs5, after_first. settle Hnormal Hempty Hdir. reflexivity. }
  assert (HD : FS.lookup fs5 (t ++ slash :: renamed) = None).
  { unfold fs5, after_first, renamed. settle Hnormal Hempty Hdir.
    reflexivity. }
  unfold extract_member. unfold bind at 1. rewrite HA.
  change (Path.dirname (txt "b/x.LOG")) with (txt "b").
  change (Path.basename (txt "b/x.LOG")) with (txt "x.LOG").
  change (Path.splitext (txt "x.LOG")) with (txt "x", txt ".LOG").
  change (Path.splitext (txt "b/x.LOG")) with (txt "b/x", txt ".LOG").
  cbn [truthy Path.is_nil negb txt list_ascii_of_string fst snd].
  rewrite !(normal_join t _ Hnormal) by reflexivity.
  unfold bind at 1, path_exists, bind at 1, get_fs, ret, FS.exists_.
  cbn [st_fs st_trace].
  unfold renamed in HB, HC, HD. simpl in HB, HC, HD.
  rewrite HB. cbn [is_some].
  unfold bind at 1.
  erewrite shutil_move_plain; [reflexivity | exact HC | exact HD].
Qed.

End TwoLogs.

(** X26.  In an empty scratch directory the collision is
    disambiguated.  Given a container whose members are [a/x.LOG],
    [b/x.LOG] and [readme.txt], and an empty scratch directory, the
    Archive Extractor returns two paths: [x.LOG] and [x_<container>.LOG], both joined
    directly to the scratch directory, different from each other, the
    first holding the data of [a/x.LOG] and the second that of
    [b/x.LOG]; nothing is extracted for [readme.txt]. *)
Theorem collision_is_disambiguated
        (fs : filesystem) (tr : list event) (zip_path t : str) (f : file)
        (da db : str) (dr : option str)
        (Hzip : FS.lookup fs zip_path = Some (Reg f))
        (Harch : f_archive f = Some (two_logs_and_a_readme da db dr))
        (Hdir : FS.lookup fs t = Some Dir)
        (Hnormal : normal_dir t = true)
        (Hempty : empty_dir fs t = true) :
  let renamed := txt "x_" ++ Path.basename zip_path ++ txt ".LOG" in
  let first := Path.join t (txt "x.LOG") in
  let second := Path.join t renamed in
  exists st',
    extract_log_files_from_zip zip_path t (State fs tr)
    = (Ok [first; second], st') /\
    first <> second /\
    Path.dirname first = t /\ Path.dirname second = t /\
    Path.basename first = txt "x.LOG" /\ Path.basename second = renamed /\
    FS.lookup (st_fs st') first = Some (Reg (text_file da)) /\
    FS.lookup (st_fs st') second = Some (Reg (text_file db)) /\
    FS.lookup (st_fs st') (Path.join t (txt "readme.txt")) = None /\
    st_trace st' = tr ++ [Printed (MsgFoundInZip 2 (Path.basename zip_path))].
Proof.
  intros renamed first second.
  assert (Hplain : has_char slash renamed = false).
  { unfold renamed. rewrite !has_char_app, basename_no_slash. reflexivity. }
  assert (Hfirst : first = t ++ slash :: txt "x.LOG")
    by (apply normal_join; auto).
  assert (Hsecond : second = t ++ slash :: renamed)
    by (apply normal_join; auto).
  exists (State (after_second fs t renamed da db)
                (tr ++ [Printed (MsgFoundInZip 2 (Path.basename zip_path))])).
  split.
  { unfold extract_log_files_from_zip, zip_open, bind, get_fs, ret.
    cbn [st_fs st_trace]. rewrite Hzip, Harch.
    change (filter (has_suffix ".LOG")
                   (map m_name (two_logs_and_a_readme da db dr)))
      with [txt "a/x.LOG"; txt "b/x.LOG"].
    cbn [truthy Path.is_nil negb]. unfold print, emit.
    cbn [st_fs st_trace length extract_members].
    rewrite (extract_first fs _ zip_path t da db dr Hdir Hnormal Hempty).
    pose proof (extract_second fs
                  (tr ++ [Printed (MsgFoundInZip 2 (Path.basename zip_path))])
                  zip_path t da db dr Hdir Hnormal Hempty) as H2.
    cbv zeta in H2. rewrite H2. rewrite Hfirst, Hsecond. reflexivity. }
  destruct (dirname_join_plain t (txt "x.LOG") Hnormal eq_refl) as [D1 B1].
  destruct (dirname_join_plain t renamed Hnormal Hplain) as [D2 B2].
  fold first in D1, B1. fold second in D2, B2.
  split.
  { rewrite Hfirst, Hsecond. intros E. apply app_inv_head in E.
    discriminate E. }
  repeat split; auto.
  - rewrite Hfirst. unfold after_second, after_first, renamed. simpl.
    settle Hnormal Hempty Hdir. reflexivity.
  - rewrite Hsecond. unfold after_second, after_first, renamed. simpl.
    settle Hnormal Hempty Hdir. reflexivity.
  - rewrite (normal_join t _ Hnormal) by reflexivity.
    unfold after_second, after_first, renamed. simpl.
    settle Hnormal Hempty Hdir. reflexivity.
Qed.

(** The extractor on [sample_scratch]. *)
Lemma collision_is_disambiguated_witness :
  exists st',
    extract_log_files_from_zip (txt "/logs/bundle.zip") (txt "/tmp/scratch")
                               (State sample_scratch [])
    = (Ok [txt "/tmp/scratch/x.LOG"; txt "/tmp/scratch/x_bundle.zip.LOG"],
       st').
Proof.
  destruct (collision_is_disambiguated
              sample_scratch [] (txt "/logs/bundle.zip") (txt "/tmp/scratch")
              _ (txt "one") (txt "two") None
              eq_refl eq_refl eq_refl eq_refl eq_refl)
    as (st' & Hrun & _).
  exists st'. exact Hrun.
Defined.

(** C6.  In a scratch directory that is in use the rename does not
    keep the two members apart.  When [x.LOG] is already there, as
    after an earlier container of the same run, both members of the
    container are given the name [x_<container>.LOG]: the path built
    under the comment "Avoid name conflicts" is not tested, the second
    member replaces the first without an error message, and the same
    path is returned twice.  A run over [shared_scratch_folder] ends
    with the line of [b/x.LOG] and without the line of [a/x.LOG]. *)
Example rename_can_collide_in_a_used_directory :
  let used :=
    sample_scratch ++
    [(txt "/tmp/scratch/x.LOG", Reg (text_file (txt "old")))] in
  let out :=
    extract_log_files_from_zip (txt "/logs/bundle.zip") (txt "/tmp/scratch")
                               (State used []) in
  fst out = Ok [txt "/tmp/scratch/x_bundle.zip.LOG";
                txt "/tmp/scratch/x_bundle.zip.LOG"] /\
  FS.lookup (st_fs (snd out)) (txt "/tmp/scratch/x_bundle.zip.LOG")
  = Some (Reg (text_file (txt "two"))) /\
  FS.lookup (st_fs (snd out)) (txt "/tmp/scratch/x.LOG")
  = Some (Reg (text_file (txt "old"))) /\
  st_trace (snd out) = [Printed (MsgFoundInZip 2 (txt "bundle.zip"))] /\
  fst (process_all_log_files (txt "/logs") [txt "CCP: EPK"] (txt "out.txt")
         (txt "out.html") None true (Some (txt "/tmp/scratch"))
         (State shared_scratch_folder []))
  = Ok [ (txt "x.LOG", [(txt "x.LOG", 1, txt "CCP: EPK zero")]);
         (txt "x_bundle.zip.LOG",
          [(txt "x_bundle.zip.LOG", 1, txt "CCP: EPK two")]) ].
Proof. repeat split. Qed.

(** The run over [sample_folder]: [broken.ZIP] stands between two
    archives, and all three are processed. *)
Lemma bad_archive_is_skipped_witness :
  exists results st',
    sample_run default_keywords = (Ok results, st') /\
    In (Printed (MsgProcessingZip (txt "bundle.zip"))) (st_trace st') /\
    In (Printed (MsgProcessingZip (txt "broken.ZIP"))) (st_trace st') /\
    In (Printed (MsgProcessingZip (txt "more.zip"))) (st_trace st').
Proof.
  destruct (bad_archive_is_skipped
              (txt "/logs") default_keywords (txt "out.txt") (txt "out.html")
              (Some default_highlight) (txt "/tmp/scratch")
              sample_folder []
              [txt "/logs/bundle.zip"] [txt "/logs/more.zip"]
              (txt "/logs/broken.ZIP") (text_file (txt "not an archive"))
              eq_refl eq_refl eq_refl eq_refl eq_refl)
    as (results & st' & l1 & st1 & extracted & st2 & new &
        Hrun & _ & _ & _ & _ & _ & _ & Et & Iz & _).
  exists results, st'. split; [exact Hrun|].
  rewrite Et. cbn [app].
  split; [|split].
  - apply (Iz (txt "/logs/bundle.zip")). simpl. auto.
  - apply (Iz (txt "/logs/broken.ZIP")). simpl. auto.
  - apply (Iz (txt "/logs/more.zip")). simpl. auto.
Defined.

(** The run over [sample_folder], where the second member of
    [more.zip] cannot be extracted: one creation, one removal. *)
Lemma temp_dir_created_once_and_removed_once_witness :
  exists new,
    st_trace (snd (sample_run default_keywords)) = new /\
    filter is_lifecycle new
    = [Mkdtemp (txt "/tmp/scratch"); Rmtree (txt "/tmp/scratch")].
Proof.
  destruct (temp_dir_created_once_and_removed_once
              (txt "/logs") default_keywords (txt "out.txt") (txt "out.html")
              (Some default_highlight) true (Some (txt "/tmp/scratch"))
              sample_folder [])
    as (new & Et & [[_ [H | [H | H]]] |
                    (t & mid & post & results & Ht & _ & _ & _ & Hl & _)]).
  - intros t Ht. inversion Ht. discriminate.
  - discriminate H.
  - discriminate H.
  - discriminate H.
  - exists new. split; [exact Et|]. inversion Ht; subst. exact Hl.
Defined.

(** The run over [sample_folder] with a keyword that occurs nowhere. *)
Lemma no_match_no_report_witness :
  exists new,
    st_trace (snd (sample_run [txt "no such text"])) = new /\
    forallb (fun e => negb (is_wrote e)) new = true.
Proof.
  destruct (no_match_no_report
              (txt "/logs") [txt "no such text"] (txt "out.txt")
              (txt "out.html") (Some default_highlight) true
              (Some (txt "/tmp/scratch")) sample_folder []
              [] (snd (sample_run [txt "no such text"])))
    as (new & Et & Hw & _).
  - vm_compute. reflexivity.
  - reflexivity.
  - exists new. split; [exact Et | exact Hw].
Defined.

(* ================================================================= *)
(** ** More on the Line Filter *)

Lemma filter_lines_sorted (name : str) (pats : list Re.pattern) :
  forall lines start,
    StronglySorted lt
      (map line_number_of (filter_lines name pats start lines)) /\
    Forall (fun k => start <= k)
      (map line_number_of (filter_lines name pats start lines)).
Proof.
  induction lines as [|line rest IH]; intro start; simpl.
  - split; constructor.
  - destruct (IH (S start)) as [Hs Hb].
    assert (Hb' : Forall (fun k => start <= k)
                    (map line_number_of
                         (filter_lines name pats (S start) rest))).
    { eapply Forall_impl; [|exact Hb]. simpl. intros; lia. }
    destruct (any_pattern_matches pats line); simpl.
    + split.
      * constructor; [exact Hs|].
        eapply Forall_impl; [|exact Hb]. unfold line_number_of; simpl.
        intros; lia.
      * constructor; [unfold line_number_of; simpl; lia|exact Hb'].
    + split; assumption.
Qed.

(** X1.  The matches [filter_log_file] returns for one file come in the
    order of the lines: their line numbers, which start at 1, increase
    strictly from one match to the next, so no line is recorded twice. *)
Theorem matches_come_in_line_order
        (file_path : str) (keyword_patterns : list Re.pattern)
        (highlight_words : option (dict Colors)) (st : state) :
  exists matches st',
    filter_log_file file_path keyword_patterns highlight_words st
    = (Ok matches, st') /\
    StronglySorted lt (map line_number_of matches) /\
    Forall (fun k => 1 <= k) (map line_number_of matches) /\
    NoDup (map line_number_of matches).
Proof.
  destruct st as [fs tr].
  destruct (FS.lookup fs file_path) as [[|f]|] eqn:E.
  - eexists [], _. split.
    + cbv [filter_log_file catch bind read_text get_fs print emit ret raise
             st_fs st_trace].
      rewrite E. reflexivity.
    + simpl. repeat split; constructor.
  - eexists _, _. split.
    + apply filter_log_file_reads. exact E.
    + destruct (filter_lines_sorted (Path.basename file_path)
                  keyword_patterns (readlines (f_text f)) 1) as [Hs Hb].
      repeat split; try assumption.
      clear Hb. induction Hs as [|k l Hs IH Hk]; constructor; auto.
      intro Hin. rewrite Forall_forall in Hk. apply Hk in Hin. lia.
  - destruct (missing_cases fs file_path) as [Hm | Hm];
      eexists [], _;
      (split; [|simpl; repeat split; constructor]);
      cbv [filter_log_file catch bind read_text get_fs print emit ret raise
             st_fs st_trace];
      rewrite E, Hm; reflexivity.
Qed.

(** X2.  A path that is not a regular file (missing, or a directory)
    makes [filter_log_file] return the empty list: it prints one error
    message and neither raises nor touches the file system.  For a
    missing file below existing directories the message is the "not
    found" one and names the full path; for a path that runs through a
    regular file, and for a directory, it is the "error reading" one,
    with the error of the system. *)
Theorem unreadable_file_gives_no_matches
        (file_path : str) (keyword_patterns : list Re.pattern)
        (highlight_words : option (dict Colors)) (st : state)
        (Hnofile : FS.isfile (st_fs st) file_path = false) :
  exists m,
    filter_log_file file_path keyword_patterns highlight_words st
    = (Ok [], State (st_fs st) (st_trace st ++ [Printed m])) /\
    is_error m = true /\
    (FS.exists_ (st_fs st) file_path = false ->
     missing (st_fs st) file_path = FileNotFoundError ->
     m = MsgFileNotFound file_path) /\
    (FS.exists_ (st_fs st) file_path = false ->
     missing (st_fs st) file_path = NotADirectoryError ->
     m = MsgReadError NotADirectoryError) /\
    (FS.isdir (st_fs st) file_path = true -> m = MsgReadError IsADirectoryError).
Proof.
  destruct st as [fs tr]. simpl in *.
  unfold FS.isfile, FS.exists_, FS.isdir in *.
  cbv [filter_log_file catch bind read_text get_fs print emit ret raise
       st_fs st_trace].
  destruct (FS.lookup fs file_path) as [[|f]|]; try discriminate.
  - eexists. split; [reflexivity|]. repeat split; auto; discriminate.
  - destruct (missing_cases fs file_path) as [-> | ->];
      (eexists; split; [reflexivity|]); repeat split; auto; discriminate.
Qed.

Lemma unreadable_file_gives_no_matches_witness :
  filter_log_file (txt "/logs/missing.LOG") [literal (txt "CCP: EPK")] None
                  (State sample_log [])
  = (Ok [], State sample_log
                  [Printed (MsgFileNotFound (txt "/logs/missing.LOG"))]) /\
  filter_log_file (txt "/logs/app.LOG/x.LOG") [literal (txt "CCP: EPK")] None
                  (State sample_log [])
  = (Ok [], State sample_log [Printed (MsgReadError NotADirectoryError)]) /\
  filter_log_file (txt "/logs") [literal (txt "CCP: EPK")] None
                  (State sample_log [])
  = (Ok [], State sample_log [Printed (MsgReadError IsADirectoryError)]).
Proof.
  split; [|split].
  - destruct (unreadable_file_gives_no_matches
                (txt "/logs/missing.LOG") [literal (txt "CCP: EPK")] None
                (State sample_log []) eq_refl) as (m & H & _ & Hm & _).
    rewrite H. rewrite (Hm eq_refl eq_refl). reflexivity.
  - destruct (unreadable_file_gives_no_matches
                (txt "/logs/app.LOG/x.LOG") [literal (txt "CCP: EPK")] None
                (State sample_log []) eq_refl) as (m & H & _ & _ & Hm & _).
    rewrite H. rewrite (Hm eq_refl eq_refl). reflexivity.
  - destruct (unreadable_file_gives_no_matches
                (txt "/logs") [literal (txt "CCP: EPK")] None
                (State sample_log []) eq_refl) as (m & H & _ & _ & _ & Hm).
    rewrite H. rewrite (Hm eq_refl). reflexivity.
Defined.

(* ================================================================= *)
(** ** More on the Highlighter *)

Lemma apply_terms_returns (html_mode : bool) :
  forall items result, exists r, apply_terms items html_mode result = Some r.
Proof.
  induction items as [|[word color] rest IH]; intro result; simpl.
  - eexists; reflexivity.
  - rewrite word_pattern_ok. apply IH.
Qed.

Lemma highlight_text_returns (text : str) (hw : option (dict Colors))
      (html_mode : bool) :
  exists r, highlight_text text hw html_mode = Some r.
Proof.
  unfold highlight_text. destruct hw as [items|]; [|eexists; reflexivity].
  destruct (negb (truthy items)); [eexists; reflexivity|].
  apply apply_terms_returns.
Qed.

(** X3.  [highlight_text] returns a text for every text, every
    highlight specification and both modes: no term, whatever
    characters it holds, makes the compilation of its pattern fail. *)
Theorem highlight_text_never_fails
        (text : str) (highlight_words : option (dict Colors))
        (html_mode : bool) :
  (exists result, highlight_text text highlight_words html_mode = Some result)
  /\ (forall word, exists atoms,
         word_pattern word = Some (Re.Pattern atoms true)).
Proof.
  split; [apply highlight_text_returns|].
  intro word. rewrite word_pattern_ok.
  destruct (wants_boundaries word); eexists; reflexivity.
Qed.

Lemma html_escape_app (x y : str) :
  html_escape (x ++ y) = html_escape x ++ html_escape y.
Proof.
  unfold html_escape, replace_char. now rewrite !flat_map_app.
Qed.

Lemma html_escape_char (c : ascii) : html_escape [c] = escape_char c.
Proof. each_char c. Qed.

Lemma escape_char_no_markup (c : ascii) :
  has_char "<" (escape_char c) = false /\
  has_char ">" (escape_char c) = false.
Proof. each_char c. Qed.

(** X4.  The three replacements of the HTML mode, made one after the
    other on the whole text, amount to one pass that replaces each
    character on its own: [&] by [&amp;], [<] by [&lt;], [>] by [&gt;].
    Nothing is escaped twice, and the escaped text holds no [<] and no
    [>]. *)
Theorem html_escape_is_one_pass (text : str) :
  html_escape text = flat_map escape_char text /\
  has_char "<" (html_escape text) = false /\
  has_char ">" (html_escape text) = false.
Proof.
  induction text as [|c text IH].
  - repeat split.
  - change (c :: text) with ([c] ++ text).
    rewrite html_escape_app, html_escape_char.
    destruct IH as (IH1 & IH2 & IH3).
    destruct (escape_char_no_markup c) as [H1 H2].
    rewrite !has_char_app, IH2, IH3, H1, H2.
    repeat split. simpl. now rewrite IH1.
Qed.

Lemma insert_by_length_perm {V} (e : str * V) (l : list (str * V)) :
  Permutation (insert_by_length e l) (e :: l).
Proof.
  induction l as [|h t IH]; simpl.
  - apply Permutation_refl.
  - destruct (length (fst h) <=? length (fst e)).
    + apply Permutation_refl.
    + eapply Permutation_trans; [apply perm_skip, IH|apply perm_swap].
Qed.

Lemma insert_by_length_sorted {V} (e : str * V) (l : list (str * V)) :
  StronglySorted (fun a b => length (fst b) <= length (fst a)) l ->
  StronglySorted (fun a b => length (fst b) <= length (fst a))
                 (insert_by_length e l).
Proof.
  unfold str in *. induction 1 as [|h t Hs IH Hh]; simpl.
  - constructor; constructor.
  - match goal with |- context [if ?b then _ else _] => destruct b eqn:E end.
    + apply Nat.leb_le in E. constructor.
      * constructor; assumption.
      * constructor; [exact E|].
        eapply Forall_impl; [|exact Hh]. simpl. intros a Ha.
        eapply Nat.le_trans; [exact Ha|exact E].
    + apply Nat.leb_gt in E. constructor; [exact IH|].
      rewrite Forall_forall. intros x Hx.
      apply (Permutation_in _ (insert_by_length_perm e t)) in Hx.
      destruct Hx as [<-|Hx]; [apply Nat.lt_le_incl; exact E|].
      rewrite Forall_forall in Hh. now apply Hh.
Qed.

Lemma insert_by_length_stable {V} (n : nat) (e : str * V)
      (l : list (str * V)) :
  of_length n (insert_by_length e l) = of_length n (e :: l).
Proof.
  unfold of_length, str in *.
  induction l as [|h t IH]; simpl; [reflexivity|].
  match goal with |- context [if ?b then _ else _] => destruct b eqn:E end;
    simpl; [reflexivity|].
  rewrite IH. simpl. apply Nat.leb_gt in E. unfold str in *.
  destruct (length (fst e) =? n) eqn:E1, (length (fst h) =? n) eqn:E2;
    try reflexivity.
  apply Nat.eqb_eq in E1, E2. rewrite E1, E2 in E. now apply Nat.lt_irrefl in E.
Qed.

Lemma terms_order_perm (items : dict Colors) :
  Permutation (sorted_by_length items) items /\
  StronglySorted (fun a b => length (fst b) <= length (fst a))
                 (sorted_by_length items).
Proof.
  induction items as [|e l (IH1 & IH2)]; unfold sorted_by_length in *; simpl.
  - split; constructor.
  - split.
    + eapply Permutation_trans; [apply insert_by_length_perm|].
      now apply perm_skip.
    + now apply insert_by_length_sorted.
Qed.

(** X5.  The order in which the Highlighter applies the terms: the
    items of the specification rearranged so that the length of the
    term never increases, terms of one length keeping the order they
    have in the specification. *)
Theorem terms_are_applied_longest_first
        (highlight_words : dict Colors) :
  Permutation (sorted_by_length highlight_words) highlight_words /\
  StronglySorted (fun a b => length (fst b) <= length (fst a))
                 (sorted_by_length highlight_words) /\
  (forall n, of_length n (sorted_by_length highlight_words)
             = of_length n highlight_words).
Proof.
  induction highlight_words as [|e l (IH1 & IH2 & IH3)];
    unfold sorted_by_length in *; simpl.
  - repeat split; constructor.
  - split; [|split].
    + eapply Permutation_trans; [apply insert_by_length_perm|].
      now apply perm_skip.
    + now apply insert_by_length_sorted.
    + intro n. rewrite insert_by_length_stable.
      unfold of_length in *. simpl. now rewrite IH3.
Qed.

(* ================================================================= *)
(** ** More on the Report Writers *)

Lemma one_line_app (x y : str) : one_line (x ++ y) = one_line x && one_line y.
Proof. apply forallb_app. Qed.

Lemma uint_one_line (d : Decimal.uint) :
  one_line (txt (NilEmpty.string_of_uint d)) = true.
Proof. induction d; simpl; auto. Qed.

Lemma str_of_nat_one_line (n : nat) : one_line (str_of_nat n) = true.
Proof. apply uint_one_line. Qed.

Lemma one_line_no_cr (x : str) :
  one_line x = true -> translate_newlines x = x.
Proof.
  induction x as [|c x IH]; simpl; [reflexivity|].
  intro H. apply andb_true_iff in H. destruct H as [Hc Hx].
  apply negb_true_iff, orb_false_iff in Hc. destruct Hc as [_ Hc].
  rewrite Hc. now rewrite IH.
Qed.

Lemma translate_newlines_line (x rest : str) :
  one_line x = true ->
  translate_newlines (x ++ newline :: rest)
  = x ++ newline :: translate_newlines rest.
Proof.
  induction x as [|c x IH]; simpl; [reflexivity|].
  intro H. apply andb_true_iff in H. destruct H as [Hc Hx].
  apply negb_true_iff, orb_false_iff in Hc. destruct Hc as [_ Hc].
  rewrite Hc. now rewrite IH.
Qed.

Lemma split_lines_line (x rest : str) :
  one_line x = true ->
  split_lines (x ++ newline :: rest) = (x ++ [newline]) :: split_lines rest.
Proof.
  induction x as [|c x IH]; simpl; [reflexivity|].
  intro H. apply andb_true_iff in H. destruct H as [Hc Hx].
  apply negb_true_iff, orb_false_iff in Hc. destruct Hc as [Hc _].
  rewrite Hc. now rewrite IH.
Qed.

Lemma readlines_line (x rest : str) :
  one_line x = true ->
  readlines (x ++ newline :: rest) = (x ++ [newline]) :: readlines rest.
Proof.
  intro H. unfold readlines.
  rewrite translate_newlines_line by exact H. now apply split_lines_line.
Qed.

Lemma text_line_body (m : Match) :
  clean m = true ->
  exists body, one_line body = true /\ text_line m = body ++ [newline].
Proof.
  destruct m as [[filename line_number] content]. unfold clean; simpl.
  intro H. apply andb_true_iff in H. destruct H as [Hf Hc].
  exists (filename ++ txt " - Line " ++ str_of_nat line_number ++ txt ": " ++
          content).
  split.
  - rewrite !one_line_app, Hf, Hc, str_of_nat_one_line. reflexivity.
  - now rewrite <- !app_assoc.
Qed.

Lemma readlines_text_lines (l : list Match) :
  forallb clean l = true -> readlines (flat_map text_line l) = map text_line l.
Proof.
  induction l as [|m l IH]; simpl; [reflexivity|].
  intro H. apply andb_true_iff in H. destruct H as [Hm Hl].
  destruct (text_line_body m Hm) as (body & Hb & ->).
  rewrite <- app_assoc. simpl. rewrite readlines_line by exact Hb.
  now rewrite IH.
Qed.

Lemma readlines_text_report (l : list Match) :
  forallb clean l = true ->
  readlines (text_report l)
  = (txt "Total matches found: " ++ str_of_nat (length l) ++ [newline])
      :: (repeat "="%char 50 ++ [newline])
      :: [newline]
      :: map text_line l.
Proof.
  intro H. unfold text_report.
  replace (txt "Total matches found: " ++ str_of_nat (length l) ++
           [newline] ++ repeat "="%char 50 ++ [newline; newline] ++
           flat_map text_line l)
    with ((txt "Total matches found: " ++ str_of_nat (length l)) ++
          newline :: repeat "="%char 50 ++
          newline :: [] ++ newline :: flat_map text_line l)
    by (rewrite <- !app_assoc; reflexivity).
  rewrite readlines_line
    by (rewrite one_line_app, str_of_nat_one_line; reflexivity).
  rewrite readlines_line by reflexivity.
  rewrite readlines_line by reflexivity.
  rewrite readlines_text_lines by exact H.
  now rewrite <- !app_assoc.
Qed.

Lemma write_text_writable (p content : str) (st : state) :
  write_text p content st =
  if writable (st_fs st) p
  then (Ok tt, State (FS.set (st_fs st) p (Reg (text_file content)))
                     (st_trace st ++ [Wrote p content]))
  else (Raise (open_error (st_fs st) p), st).
Proof.
  destruct st as [fs tr].
  cbv [write_text bind get_fs put_fs emit raise writable open_error
       st_fs st_trace].
  destruct (Path.is_nil p); simpl; [reflexivity|].
  destruct (FS.isdir fs p); simpl; [reflexivity|].
  destruct (Path.is_nil (Path.dirname p) || FS.isdir fs (Path.dirname p));
    reflexivity.
Qed.

(** X6.  The text report read back.  When the path can be opened for
    writing (it is not empty and no directory, and its directory
    exists) and no file name or content holds a line break,
    [save_results_as_text] writes a file that, read line by line, gives
    the line with the count, the line of fifty [=], an empty line, and
    then one line per match, in the order of the matches. *)
Theorem text_report_reads_back
        (filtered_lines : list Match) (output_file : str) (st : state)
        (Hwritable : writable (st_fs st) output_file = true)
        (Hclean : forallb clean filtered_lines = true) :
  exists st' text,
    save_results_as_text filtered_lines output_file st = (Ok tt, st') /\
    st_trace st' = st_trace st ++ [Wrote output_file text;
                                   Printed (MsgSavedText output_file)] /\
    read_text output_file st' = (Ok text, st') /\
    readlines text
    = (txt "Total matches found: " ++ str_of_nat (length filtered_lines)
         ++ [newline])
        :: (repeat "="%char 50 ++ [newline])
        :: [newline]
        :: map text_line filtered_lines.
Proof.
  exists (State (FS.set (st_fs st) output_file
                        (Reg (text_file (text_report filtered_lines))))
                (st_trace st ++ [Wrote output_file (text_report filtered_lines);
                                 Printed (MsgSavedText output_file)])),
         (text_report filtered_lines).
  split; [|split; [|split]].
  - unfold save_results_as_text, catch, bind.
    rewrite write_text_writable, Hwritable.
    cbv [print emit st_fs st_trace]. now rewrite <- app_assoc.
  - reflexivity.
  - cbv [read_text bind get_fs st_fs]. rewrite lookup_set, str_eqb_refl.
    reflexivity.
  - now apply readlines_text_report.
Qed.

Lemma text_report_reads_back_witness :
  exists st' text,
    save_results_as_text
      [(txt "app.LOG", 2, txt "CCP: EPK found");
       (txt "app.LOG", 12, txt "Configuration file: a.cfg")]
      (txt "/out/r.txt") (State out_dir []) = (Ok tt, st') /\
    read_text (txt "/out/r.txt") st' = (Ok text, st') /\
    readlines text
    = [ txt "Total matches found: 2" ++ [newline];
        repeat "="%char 50 ++ [newline];
        [newline];
        txt "app.LOG - Line 2: CCP: EPK found" ++ [newline];
        txt "app.LOG - Line 12: Configuration file: a.cfg" ++ [newline] ].
Proof.
  destruct (text_report_reads_back
              [(txt "app.LOG", 2, txt "CCP: EPK found");
               (txt "app.LOG", 12, txt "Configuration file: a.cfg")]
              (txt "/out/r.txt") (State out_dir []) eq_refl eq_refl)
    as (st' & text & H1 & _ & H2 & H3).
  exists st', text. repeat split; assumption.
Defined.

Lemma translate_newlines_no_cr (n : nat) : forall x,
  length x <= n -> ~ In "013"%char (translate_newlines x).
Proof.
  induction n as [|n IH]; intros x Hn.
  - destruct x; [intros []|simpl in Hn; lia].
  - destruct x as [|c x]; [intros []|]. simpl in Hn. simpl.
    destruct (Ascii.eqb c "013") eqn:Ec.
    + destruct x as [|d x].
      * intros [H|[]]. discriminate H.
      * simpl in Hn.
        destruct (Ascii.eqb d newline); intros [H|H]; try discriminate H.
        -- revert H. apply IH. lia.
        -- revert H. apply (IH (d :: x)). simpl. lia.
    + intros [H|H].
      * subst c. discriminate Ec.
      * revert H. apply IH. lia.
Qed.

Lemma split_lines_shape (y : str) :
  Forall (fun l => exists body, ~ In newline body /\
                                (l = body ++ [newline] \/ l = body))
         (split_lines y).
Proof.
  induction y as [|c y IH]; simpl; [constructor|].
  destruct (Ascii.eqb c newline) eqn:Ec.
  - apply Ascii.eqb_eq in Ec. subst c. constructor; [|exact IH].
    exists []. split; [intros []|now left].
  - apply Ascii.eqb_neq in Ec.
    destruct (split_lines y) as [|l ls].
    + constructor; [|constructor].
      exists [c]. split; [|now right]. intros [H|[]]. congruence.
    + inversion IH as [|? ? (body & Hb & Hl) Hls]; subst.
      constructor; [|exact Hls].
      exists (c :: body). split.
      * intros [H|H]; [congruence|contradiction].
      * destruct Hl as [->| ->]; [now left|now right].
Qed.

Lemma in_split_lines (y l : str) (c : ascii) :
  In l (split_lines y) -> In c l -> In c y.
Proof.
  intros Hl Hc. rewrite <- (concat_split_lines y). apply in_concat.
  now exists l.
Qed.

Lemma newline_is_last (x : str) : forall body y,
  x ++ y = body ++ [newline] -> ~ In newline body -> In newline x -> y = [].
Proof.
  induction x as [|c x IH]; intros body y He Hb Hx; [destruct Hx|].
  destruct body as [|d body]; simpl in He.
  - injection He as _ He. now destruct (app_eq_nil _ _ He).
  - injection He as -> He. eapply IH; [exact He| |].
    + intro H. apply Hb. now right.
    + destruct Hx as [Hx|Hx]; [|exact Hx]. exfalso. apply Hb. now left.
Qed.

Lemma strip_of_line (l body : str) :
  ~ In newline body -> l = body ++ [newline] \/ l = body ->
  ~ In newline (strip l).
Proof.
  intros Hb Hl Hin.
  destruct (strip_spec l) as (a & b & He & _ & _ & _ & Hlast).
  destruct Hl as [Hl|Hl].
  - assert (Hy : b = []).
    { apply (newline_is_last (a ++ strip l) body b).
      - rewrite <- app_assoc, <- He. exact Hl.
      - exact Hb.
      - apply in_or_app. now right. }
    subst b. rewrite app_nil_r in He.
    assert (Hne : strip l <> []) by (intro H0; rewrite H0 in Hin; destruct Hin).
    destruct (exists_last Hne) as (s' & c & Es).
    rewrite Es in He. rewrite He, app_assoc in Hl.
    apply app_inj_tail in Hl. destruct Hl as [_ Hl]. subst c.
    specialize (Hlast newline s' Es). discriminate Hlast.
  - apply Hb. rewrite <- Hl, He. apply in_or_app. right.
    apply in_or_app. now left.
Qed.

Lemma recorded_content_one_line (name : str) (pats : list Re.pattern)
      (start : nat) (text : str) :
  forallb (fun m => one_line (snd m))
          (filter_lines name pats start (readlines text)) = true.
Proof.
  apply forallb_forall. intros [[fname k] content] Hin.
  apply in_filter_lines in Hin.
  destruct Hin as (_ & i & line & _ & Hnth & _ & ->). simpl.
  apply nth_error_In in Hnth.
  apply forallb_forall. intros c Hc.
  apply negb_true_iff, orb_false_iff. split; apply Ascii.eqb_neq; intro; subst c.
  - pose proof (split_lines_shape (translate_newlines text)) as Hs.
    rewrite Forall_forall in Hs. destruct (Hs line Hnth) as (body & Hb & Hl).
    now apply (strip_of_line line body Hb Hl).
  - destruct (strip_spec line) as (a & b & He & _).
    apply (translate_newlines_no_cr (length text) text (Nat.le_refl _)).
    apply (in_split_lines _ line); [exact Hnth|].
    rewrite He. apply in_or_app. right. apply in_or_app. now left.
Qed.

(** X7.  The content [filter_log_file] records for a match never holds
    a line break, whatever line ends the file uses: the carriage
    returns are gone when the lines are read, and the line feed that
    ends a line is stripped with the other white space.  With a file
    name free of line breaks, every match therefore takes exactly one
    line of the text report. *)
Theorem recorded_content_is_a_single_line
        (file_path : str) (keyword_patterns : list Re.pattern)
        (highlight_words : option (dict Colors)) (st : state) :
  exists matches st',
    filter_log_file file_path keyword_patterns highlight_words st
    = (Ok matches, st') /\
    forallb (fun m => one_line (snd m)) matches = true /\
    (one_line (Path.basename file_path) = true ->
     forallb clean matches = true /\
     readlines (flat_map text_line matches) = map text_line matches).
Proof.
  destruct st as [fs tr].
  assert (Hnil : forall m,
             exists matches st',
               (Ok ([] : list Match),
                State fs (tr ++ [Printed m])) = (Ok matches, st') /\
               forallb (fun m => one_line (snd m)) matches = true /\
               (one_line (Path.basename file_path) = true ->
                forallb clean matches = true /\
                readlines (flat_map text_line matches)
                = map text_line matches)).
  { intro m. eexists [], _. repeat split. }
  destruct (FS.lookup fs file_path) as [[|f]|] eqn:E.
  - cbv [filter_log_file catch bind read_text get_fs print emit ret raise
         st_fs st_trace]. rewrite E. apply Hnil.
  - rewrite (filter_log_file_reads fs tr file_path f _ _ E).
    eexists _, _. split; [reflexivity|].
    pose proof (recorded_content_one_line (Path.basename file_path)
                  keyword_patterns 1 (f_text f)) as Hc.
    split; [exact Hc|]. intro Hname.
    assert (Hclean : forallb clean
                       (filter_lines (Path.basename file_path)
                          keyword_patterns 1 (readlines (f_text f))) = true).
    { apply forallb_forall. intros [[fname k] content] Hin.
      rewrite forallb_forall in Hc. specialize (Hc _ Hin). simpl in Hc.
      apply in_filter_lines in Hin. destruct Hin as (-> & _).
      unfold clean. simpl. now rewrite Hname, Hc. }
    split; [exact Hclean|]. now apply readlines_text_lines.
  - cbv [filter_log_file catch bind read_text get_fs print emit ret raise
         st_fs st_trace]. rewrite E.
    destruct (missing_cases fs file_path) as [-> | ->]; apply Hnil.
Qed.

Lemma html_blocks_complete (l : list Match) (hw : option (dict Colors)) :
  html_blocks l hw
  = (flat_map (fun m => html_block m (html_content_of hw m)) l, None).
Proof.
  induction l as [|m l IH]; simpl; [reflexivity|].
  unfold html_content_of.
  destruct (highlight_text_returns (snd m) hw true) as (r & ->).
  now rewrite IH.
Qed.

(** What an attempt to write [content] to [p] leaves. *)
Lemma save_results_as_text_spec (l : list Match) (p : str) (st : state) :
  save_results_as_text l p st =
  (Ok tt,
   State (after_write (st_fs st) p (text_report l))
         (st_trace st ++ report_events (st_fs st) p (text_report l)
                           (MsgSavedText p) MsgTextWriteError)).
Proof.
  unfold save_results_as_text, catch, bind, report_events, after_write.
  rewrite write_text_writable.
  destruct (writable (st_fs st) p); cbv [print emit st_fs st_trace].
  - now rewrite <- app_assoc.
  - destruct st; reflexivity.
Qed.

Lemma save_results_as_html_spec (l : list Match) (p : str)
      (hw : option (dict Colors)) (st : state) :
  save_results_as_html l p hw st =
  (Ok tt,
   State (after_write (st_fs st) p (html_document l hw))
         (st_trace st ++ report_events (st_fs st) p (html_document l hw)
                           (MsgSavedHtml p) MsgHtmlWriteError)).
Proof.
  unfold save_results_as_html. rewrite html_blocks_complete.
  unfold catch, bind, report_events, after_write.
  rewrite write_text_writable. fold (html_document l hw).
  destruct (writable (st_fs st) p); cbv [print emit st_fs st_trace].
  - now rewrite <- app_assoc.
  - destruct st; reflexivity.
Qed.

Lemma isdir_set_file (fs : filesystem) (p q : str) (f : file) :
  FS.isdir fs p = false ->
  FS.isdir (FS.set fs p (Reg f)) q = FS.isdir fs q.
Proof.
  unfold FS.isdir. intro H. rewrite lookup_set.
  destruct (str_eqb p q) eqn:E; [|reflexivity].
  apply str_eqb_eq in E. subst q. now rewrite H.
Qed.

Lemma writable_not_dir (fs : filesystem) (p : str) :
  writable fs p = true -> FS.isdir fs p = false.
Proof.
  unfold writable. rewrite !andb_true_iff, !negb_true_iff. tauto.
Qed.

Lemma writable_set_file (fs : filesystem) (p q : str) (f : file) :
  FS.isdir fs p = false ->
  writable (FS.set fs p (Reg f)) q = writable fs q.
Proof.
  intro H. unfold writable.
  now rewrite !isdir_set_file by exact H.
Qed.

(** A new regular file changes the error of the paths that run through
    it, and of no other. *)
Lemma missing_set_file (fs : filesystem) (p q : str) (f : file) :
  FS.isdir fs p = false -> ~ In p (Path.parents q) ->
  missing (FS.set fs p (Reg f)) q = missing fs q.
Proof.
  intros H Hp. unfold missing.
  assert (Hp' : ~ In p (rev (Path.parents q)))
    by (intro Hin; apply Hp; now apply in_rev).
  induction (rev (Path.parents q)) as [|d l IH]; [reflexivity|].
  simpl. rewrite isdir_set_file by exact H.
  destruct (FS.isdir fs d); simpl.
  - apply IH. intro Hin. apply Hp'. now right.
  - unfold FS.isfile. rewrite lookup_set.
    destruct (str_eqb p d) eqn:E; [|reflexivity].
    apply str_eqb_eq in E. exfalso. apply Hp'. now left.
Qed.

Lemma open_error_set_file (fs : filesystem) (p q : str) (f : file) :
  FS.isdir fs p = false -> ~ In p (Path.parents q) ->
  open_error (FS.set fs p (Reg f)) q = open_error fs q.
Proof.
  intros H Hp. unfold open_error.
  now rewrite isdir_set_file, missing_set_file.
Qed.

Lemma writable_after_write (fs : filesystem) (p content q : str) :
  writable (after_write fs p content) q = writable fs q.
Proof.
  unfold after_write. destruct (writable fs p) eqn:E; [|reflexivity].
  apply writable_set_file. now apply writable_not_dir.
Qed.

Lemma open_error_after_write (fs : filesystem) (p content q : str) :
  ~ In p (Path.parents q) ->
  open_error (after_write fs p content) q = open_error fs q.
Proof.
  intro Hp. unfold after_write.
  destruct (writable fs p) eqn:E; [|reflexivity].
  apply open_error_set_file; [now apply writable_not_dir|exact Hp].
Qed.

Lemma report_events_after_write
      (fs : filesystem) (p content q c : str)
      (saved : message) (failed : exn -> message) :
  ~ In p (Path.parents q) ->
  report_events (after_write fs p content) q c saved failed =
  report_events fs q c saved failed.
Proof.
  intro Hp. unfold report_events.
  now rewrite writable_after_write, open_error_after_write.
Qed.

(** X8.  The two reports are written independently of each other.
    [write_reports], given at least one match and two different paths,
    never raises; each report is written in full when its own path can
    be opened for writing and otherwise costs one error message and
    leaves the file system as it is, whatever happened to the other
    report; no other path is touched.  Whether the structured report
    can be written is not changed by the attempt on the text report;
    the error it is refused with is not changed either, unless its
    path runs through the path of the text report. *)
Theorem reports_are_written_independently
        (results : dict (list Match)) (all_filtered_lines : list Match)
        (output_txt output_html : str) (hw : option (dict Colors))
        (st : state)
        (Hsome : all_filtered_lines <> [])
        (Hdiff : output_txt <> output_html) :
  exists st',
    write_reports results all_filtered_lines output_txt output_html hw st
    = (Ok results, st') /\
    st_trace st' =
      st_trace st
      ++ report_events (st_fs st) output_txt (text_report all_filtered_lines)
           (MsgSavedText output_txt) MsgTextWriteError
      ++ report_events
           (after_write (st_fs st) output_txt
                        (text_report all_filtered_lines))
           output_html (html_document all_filtered_lines hw)
           (MsgSavedHtml output_html) MsgHtmlWriteError /\
    writable (after_write (st_fs st) output_txt
                          (text_report all_filtered_lines)) output_html
    = writable (st_fs st) output_html /\
    (~ In output_txt (Path.parents output_html) ->
     report_events
       (after_write (st_fs st) output_txt (text_report all_filtered_lines))
       output_html (html_document all_filtered_lines hw)
       (MsgSavedHtml output_html) MsgHtmlWriteError
     = report_events (st_fs st) output_html
         (html_document all_filtered_lines hw)
         (MsgSavedHtml output_html) MsgHtmlWriteError) /\
    FS.lookup (st_fs st') output_txt
    = report_node (st_fs st) output_txt (text_report all_filtered_lines) /\
    FS.lookup (st_fs st') output_html
    = report_node (st_fs st) output_html
                  (html_document all_filtered_lines hw) /\
    (forall q, q <> output_txt -> q <> output_html ->
               FS.lookup (st_fs st') q = FS.lookup (st_fs st) q).
Proof.
  destruct st as [fs tr]. unfold write_reports.
  destruct all_filtered_lines as [|m l]; [congruence|].
  change (truthy (m :: l)) with true. cbv iota.
  unfold bind. rewrite save_results_as_text_spec.
  rewrite save_results_as_html_spec. cbv [ret st_fs st_trace].
  eexists. split; [reflexivity|]. cbv [st_fs st_trace].
  assert (Hneq : str_eqb output_txt output_html = false)
    by now apply str_eqb_neq.
  assert (Hneq' : str_eqb output_html output_txt = false)
    by (apply str_eqb_neq; congruence).
  split; [now rewrite <- app_assoc|].
  split; [apply writable_after_write|].
  split; [apply report_events_after_write|].
  unfold report_node, after_write at 1 3 5.
  rewrite writable_after_write.
  unfold after_write.
  destruct (writable fs output_txt), (writable fs output_html);
    repeat split;
    rewrite ?lookup_set, ?str_eqb_refl, ?Hneq, ?Hneq'; try reflexivity;
    intros q H1 H2; rewrite ?lookup_set;
    repeat match goal with
    | |- context [str_eqb ?a q] =>
        let E := fresh "E" in
        destruct (str_eqb a q) eqn:E;
        [apply str_eqb_eq in E; congruence|]
    end; reflexivity.
Qed.

Lemma reports_are_written_independently_witness :
  exists st',
    write_reports [] [(txt "app.LOG", 2, txt "a <b> c")]
                  (txt "/missing/r.txt") (txt "/out/r.html")
                  (Some default_highlight) (State out_dir [])
    = (Ok [], st') /\
    st_trace st' =
      [ Printed (MsgTextWriteError FileNotFoundError);
        Wrote (txt "/out/r.html")
              (html_document [(txt "app.LOG", 2, txt "a <b> c")]
                             (Some default_highlight));
        Printed (MsgSavedHtml (txt "/out/r.html")) ] /\
    FS.lookup (st_fs st') (txt "/missing/r.txt") = None.
Proof.
  destruct (reports_are_written_independently
              [] [(txt "app.LOG", 2, txt "a <b> c")]
              (txt "/missing/r.txt") (txt "/out/r.html")
              (Some default_highlight) (State out_dir []))
    as (st' & H1 & H2 & _ & _ & H3 & _); [discriminate|discriminate|].
  exists st'. split; [exact H1|]. split; [exact H2|exact H3].
Defined.

Lemma recorded_content_is_a_single_line_witness :
  exists matches st',
    filter_log_file (txt "/logs/app.LOG") [literal (txt "CCP: EPK")] None
                    (State sample_log []) = (Ok matches, st') /\
    forallb clean matches = true /\
    readlines (flat_map text_line matches) = map text_line matches.
Proof.
  destruct (recorded_content_is_a_single_line
              (txt "/logs/app.LOG") [literal (txt "CCP: EPK")] None
              (State sample_log []))
    as (matches & st' & H & _ & Himp).
  exists matches, st'. split; [exact H|]. apply Himp. reflexivity.
Defined.

(* ================================================================= *)
(** ** More on the Configuration *)

(** X9.  [load_config] falls back on the built-in defaults when the
    path is empty, does not exist, is a directory, or names a file
    whose text is not well-formed JSON.  With an empty path or a path
    that does not exist it does so silently; with a directory, or with
    text that is not JSON and makes [json.load] raise, it prints one
    error message first.  It never raises and never changes the file
    system.  (A file whose text is JSON holds, in this embedding, a
    document of the shape of [config]; [usable_config] is true of
    it.) *)
Theorem unusable_config_gives_defaults
        (config_file : str) (st : state)
        (Hunusable : usable_config (st_fs st) config_file = false) :
  exists new,
    load_config config_file st
    = (Ok (default_keywords, default_highlight),
       State (st_fs st) (st_trace st ++ new)) /\
    (config_file = [] \/ FS.exists_ (st_fs st) config_file = false ->
     new = []) /\
    (config_file <> [] -> FS.isdir (st_fs st) config_file = true ->
     new = [Printed (MsgConfigError IsADirectoryError)]) /\
    (config_file <> [] -> FS.isfile (st_fs st) config_file = true ->
     new = [Printed (MsgConfigError JSONDecodeError)]).
Proof.
  destruct st as [fs tr]. simpl in *.
  unfold usable_config in Hunusable.
  unfold FS.exists_, FS.isdir, FS.isfile.
  destruct config_file as [|c p].
  - exists []. rewrite app_nil_r.
    split; [reflexivity|]. repeat split; congruence.
  - change (truthy (c :: p)) with true in Hunusable.
    cbv [andb] in Hunusable.
    unfold load_config, bind at 1, path_exists, bind, get_fs, ret.
    cbv [st_fs]. unfold FS.exists_.
    change (truthy (c :: p)) with true.
    destruct (FS.lookup fs (c :: p)) as [[|f]|] eqn:E.
    + cbv [is_some negb orb catch json_load bind get_fs raise print emit
           ret st_fs st_trace]. rewrite E.
      eexists. split; [reflexivity|].
      repeat split; try reflexivity; try discriminate.
      intros [H|H]; discriminate.
    + cbv [is_some negb orb catch json_load bind get_fs raise print emit
           ret st_fs st_trace]. rewrite E.
      destruct (f_config f); [discriminate|].
      eexists. split; [reflexivity|].
      repeat split; try reflexivity; try discriminate.
      intros [H|H]; discriminate.
    + cbv [is_some negb orb]. exists []. rewrite app_nil_r.
      repeat split; discriminate.
Qed.

Lemma unusable_config_gives_defaults_witness :
  load_config (txt "/logs/app.LOG") (State sample_log [])
  = (Ok (default_keywords, default_highlight),
     State sample_log [Printed (MsgConfigError JSONDecodeError)]) /\
  load_config (txt "log_filter_config.json") (State sample_log [])
  = (Ok (default_keywords, default_highlight), State sample_log []).
Proof.
  split.
  - destruct (unusable_config_gives_defaults
                (txt "/logs/app.LOG") (State sample_log []) eq_refl)
      as (new & H & _ & _ & Hnew).
    rewrite H. rewrite Hnew; [reflexivity|discriminate|reflexivity].
  - destruct (unusable_config_gives_defaults
                (txt "log_filter_config.json") (State sample_log []) eq_refl)
      as (new & H & Hnew & _).
    rewrite H. rewrite Hnew; [reflexivity|now right].
Defined.

Lemma json_dump_spec (p : str) (c : config) (st : state) :
  json_dump p c st =
  if creatable (st_fs st) p
  then (Ok tt, State (FS.set (st_fs st) p
                             (Reg (File (json_dumps c) None (Some c))))
                     (st_trace st))
  else (Raise (if Path.is_nil p then FileNotFoundError
               else open_error (st_fs st) p), st).
Proof.
  destruct st as [fs tr].
  cbv [json_dump bind get_fs put_fs raise creatable writable open_error
       st_fs st_trace].
  destruct p as [|ch p]; [reflexivity|].
  change (truthy (ch :: p)) with true.
  change (Path.is_nil (ch :: p)) with false. cbv iota.
  destruct (FS.isdir fs (ch :: p)); simpl; [reflexivity|].
  destruct (Path.is_nil (Path.dirname (ch :: p))
            || FS.isdir fs (Path.dirname (ch :: p))); reflexivity.
Qed.

Lemma create_default_config_spec (p : str) (ms : main_state) :
  create_default_config p ms =
  if creatable (ms_fs ms) p
  then (Ok tt,
        MainState (FS.set (ms_fs ms) p
                          (Reg (File (json_dumps default_config) None
                                     (Some default_config))))
                  (ms_trace ms ++ [Said (MsgConfigCreated p)]))
  else (Ok tt,
        MainState (ms_fs ms)
                  (ms_trace ms ++
                   [Said (MsgConfigCreateError
                            (if Path.is_nil p then FileNotFoundError
                             else open_error (ms_fs ms) p))])).
Proof.
  destruct ms as [fs tr].
  unfold create_default_config, main_catch, main_bind, call.
  rewrite json_dump_spec. cbv [st_fs st_trace ms_fs ms_trace].
  destruct (creatable fs p); cbv [say ms_fs ms_trace map];
    now rewrite ?app_nil_r.
Qed.

(** The text [json.dump] writes for the default document. *)
Lemma default_config_text :
  json_dumps default_config =
  unlines
    [ txt "{";
      txt "    " ++ quoted (txt "keywords") ++ txt ": [";
      txt "        " ++ quoted (txt "CCP: EPK") ++ txt ",";
      txt "        " ++ quoted (txt "Configuration file:");
      txt "    ],";
      txt "    " ++ quoted (txt "highlight_words") ++ txt ": {";
      txt "        " ++ quoted (txt "mismatch") ++ txt ": "
        ++ quoted (txt "RED") ++ txt ",";
      txt "        " ++ quoted (txt "match") ++ txt ": "
        ++ quoted (txt "GREEN") ++ txt ",";
      txt "        " ++ quoted (txt "Configuration file:") ++ txt ": "
        ++ quoted (txt "BLUE");
      txt "    }" ] ++ txt "}".
Proof. reflexivity. Qed.

(** X10.  The file [--create-config] writes is read back as the
    built-in defaults.  With that flag [main] does nothing but create
    the file: where the path can be opened for writing it writes the
    default document there, prints one line and touches no other path,
    and a later [load_config] of that path returns the default
    keywords and the default highlight mapping without a message;
    where it cannot, [main] prints one error and changes nothing. *)
Theorem created_config_loads_as_defaults
        (a : args) (tmp : option str) (ms : main_state)
        (Hflag : arg_create_config a = true) :
  let p := arg_config a in
  exists ms',
    main a tmp ms = (Ok tt, ms') /\
    (creatable (ms_fs ms) p = true ->
     ms_trace ms' = ms_trace ms ++ [Said (MsgConfigCreated p)] /\
     (forall q, q <> p -> FS.lookup (ms_fs ms') q = FS.lookup (ms_fs ms) q) /\
     (forall tr,
         load_config p (State (ms_fs ms') tr)
         = (Ok (default_keywords, default_highlight),
            State (ms_fs ms') tr))) /\
    (creatable (ms_fs ms) p = false ->
     ms_fs ms' = ms_fs ms /\
     exists e, ms_trace ms' = ms_trace ms ++ [Said (MsgConfigCreateError e)]).
Proof.
  intro p. unfold main. rewrite Hflag. fold p.
  rewrite create_default_config_spec.
  destruct (creatable (ms_fs ms) p) eqn:E.
  - eexists. split; [reflexivity|]. split; [|discriminate].
    intros _. cbv [ms_fs ms_trace]. split; [reflexivity|]. split.
    + intros q Hq. now apply lookup_set_other.
    + intro tr. unfold creatable in E. apply andb_true_iff in E.
      destruct E as [E _].
      rewrite (load_config_reads _ tr p
                 (File (json_dumps default_config) None (Some default_config))
                 default_config).
      * reflexivity.
      * intro H. rewrite H in E. discriminate E.
      * rewrite lookup_set, str_eqb_refl. reflexivity.
      * reflexivity.
  - eexists. split; [reflexivity|]. split; [discriminate|].
    intros _. cbv [ms_fs ms_trace]. split; [reflexivity|].
    eexists; reflexivity.
Qed.

Lemma created_config_loads_as_defaults_witness :
  exists ms',
    main (Args (txt ".") (txt "filtered_log_results")
               (txt "/out/conf.json") true false) None
         (MainState out_dir []) = (Ok tt, ms') /\
    ms_trace ms' = [Said (MsgConfigCreated (txt "/out/conf.json"))] /\
    load_config (txt "/out/conf.json") (State (ms_fs ms') [])
    = (Ok (default_keywords, default_highlight), State (ms_fs ms') []).
Proof.
  destruct (created_config_loads_as_defaults
              (Args (txt ".") (txt "filtered_log_results")
                    (txt "/out/conf.json") true false) None
              (MainState out_dir []) eq_refl)
    as (ms' & H & Hyes & _).
  destruct (Hyes eq_refl) as (Htr & _ & Hload).
  exists ms'. split; [exact H|]. split; [exact Htr|apply Hload].
Defined.

(* ================================================================= *)
(** ** The console sample of [main] *)

Lemma total_matches_length (results : dict (list Match)) :
  total_matches results = length (all_of results).
Proof.
  unfold total_matches, all_of.
  induction results as [|[name l] rest IH]; simpl; [reflexivity|].
  now rewrite length_app, IH.
Qed.

Lemma sample_lines_spec (hw : option (dict Colors)) :
  forall result_lines count ms,
    count < 10 ->
    sample_lines result_lines hw count ms
    = (Ok (Nat.min 10 (count + length result_lines)),
       MainState (ms_fs ms)
                 (ms_trace ms ++
                  map (sample_of hw) (firstn (10 - count) result_lines))).
Proof.
  induction result_lines as [|[[f_name line_number] content] rest IH];
    intros count ms Hc.
  - cbn [sample_lines length]. unfold main_ret.
    rewrite firstn_nil, Nat.add_0_r, Nat.min_r by lia.
    cbn [map]. rewrite app_nil_r. destruct ms; reflexivity.
  - cbn [sample_lines].
    destruct (highlight_text_returns content hw false) as (r & Hr).
    rewrite Hr. unfold main_bind, say.
    destruct (10 <=? S count) eqn:E.
    + apply Nat.leb_le in E. assert (count = 9) by lia. subst count.
      cbn [Nat.sub firstn map length]. unfold sample_of. cbn [fst snd].
      rewrite Hr. unfold main_ret. rewrite Nat.min_l by lia. reflexivity.
    + apply Nat.leb_gt in E. rewrite IH by lia.
      cbn [ms_fs ms_trace length].
      replace (10 - count) with (S (10 - S count)) by lia.
      cbn [firstn map]. unfold sample_of at 2. cbn [fst snd]. rewrite Hr.
      rewrite <- app_assoc. cbn [app].
      now replace (S count + length rest) with (count + S (length rest))
        by lia.
Qed.

Lemma sample_results_spec (hw : option (dict Colors)) (total : nat) :
  forall items count ms,
    count < 10 ->
    sample_results items hw total count ms
    = (Ok tt,
       MainState (ms_fs ms)
                 (ms_trace ms ++
                  map (sample_of hw) (firstn (10 - count) (all_of items)) ++
                  if 10 <=? count + total_matches items
                  then [Said (MsgMore (total - 10))] else [])).
Proof.
  induction items as [|[filename result_lines] rest IH]; intros count ms Hc.
  - cbn [sample_results]. unfold main_ret, all_of, total_matches.
    cbn [flat_map map list_sum]. rewrite Nat.add_0_r, firstn_nil.
    destruct (10 <=? count) eqn:E; [apply Nat.leb_le in E; lia|].
    cbn [map app]. rewrite app_nil_r. destruct ms; reflexivity.
  - cbn [sample_results]. unfold main_bind.
    rewrite sample_lines_spec by exact Hc.
    change (all_of ((filename, result_lines) :: rest))
      with (result_lines ++ all_of rest).
    change (total_matches ((filename, result_lines) :: rest))
      with (length result_lines + total_matches rest).
    destruct (10 <=? Nat.min 10 (count + length result_lines)) eqn:E.
    + apply Nat.leb_le in E.
      assert (Hlen : 10 - count <= length result_lines) by lia.
      unfold say. cbn [ms_fs ms_trace].
      rewrite firstn_app.
      replace (10 - count - length result_lines) with 0 by lia.
      rewrite firstn_O, app_nil_r.
      replace (10 <=? count + (length result_lines + total_matches rest))
        with true by (symmetry; apply Nat.leb_le; lia).
      now rewrite <- app_assoc.
    + apply Nat.leb_gt in E.
      rewrite Nat.min_r in * by lia.
      rewrite IH by lia. cbn [ms_fs ms_trace].
      rewrite firstn_app, (firstn_all2 result_lines) by lia.
      replace (10 - count - length result_lines)
        with (10 - (count + length result_lines)) by lia.
      rewrite map_app, <- !app_assoc.
      now rewrite Nat.add_assoc.
Qed.

(** X11.  The console sample of [main] shows the first ten matches of
    [results], in the order of its items, each highlighted in console
    mode, and never fails.  It ends with the line that tells how many
    more there are exactly when [results] holds ten matches or more:
    with exactly ten, all of them shown, that line announces 0 more
    results. *)
Theorem sample_shows_the_first_ten
        (results : dict (list Match)) (hw : option (dict Colors))
        (ms : main_state) :
  let total := total_matches results in
  sample_results results hw total 0 ms
  = (Ok tt,
     MainState (ms_fs ms)
               (ms_trace ms ++
                map (sample_of hw) (firstn 10 (all_of results)) ++
                if 10 <=? total then [Said (MsgMore (total - 10))] else []))
  /\ length (firstn 10 (all_of results)) = Nat.min 10 total
  /\ (total = 10 ->
      firstn 10 (all_of results) = all_of results /\
      sample_results results hw total 0 ms
      = (Ok tt,
         MainState (ms_fs ms)
                   (ms_trace ms ++ map (sample_of hw) (all_of results)
                    ++ [Said (MsgMore 0)]))).
Proof.
  intro total.
  assert (H : sample_results results hw total 0 ms
              = (Ok tt,
                 MainState (ms_fs ms)
                   (ms_trace ms ++
                    map (sample_of hw) (firstn 10 (all_of results)) ++
                    if 10 <=? total
                    then [Said (MsgMore (total - 10))] else [])))
    by (rewrite sample_results_spec by lia; reflexivity).
  split; [exact H|]. split.
  - rewrite length_firstn. unfold total. now rewrite total_matches_length.
  - intro Hten.
    assert (Hall : firstn 10 (all_of results) = all_of results).
    { apply firstn_all2. rewrite <- total_matches_length. fold total. lia. }
    split; [exact Hall|].
    rewrite H, Hall, Hten. reflexivity.
Qed.

Lemma sample_shows_the_first_ten_witness :
  sample_results
    [(txt "a.LOG", repeat (txt "a.LOG", 1, txt "CCP: EPK") 10)]
    None 10 0 (MainState [] [])
  = (Ok tt,
     MainState []
       (map (sample_of None) (repeat (txt "a.LOG", 1, txt "CCP: EPK") 10)
        ++ [Said (MsgMore 0)])).
Proof.
  destruct (sample_shows_the_first_ten
              [(txt "a.LOG", repeat (txt "a.LOG", 1, txt "CCP: EPK") 10)]
              None (MainState [] []))
    as (_ & _ & H).
  destruct (H eq_refl) as [_ H2]. exact H2.
Defined.

(* ================================================================= *)
(** ** More on the run *)

Lemma filter_log_file_matches (fs : filesystem) (tr : list event) (p : str)
      (pats : list Re.pattern) (hw : option (dict Colors)) :
  filter_log_file p pats hw (State fs tr)
  = (Ok (file_matches fs pats p),
     State fs (tr ++ [Printed (read_message fs p)])).
Proof.
  unfold file_matches, read_message.
  destruct (FS.lookup fs p) as [[|f]|] eqn:E.
  - cbv [filter_log_file catch bind read_text get_fs print emit ret raise
         st_fs st_trace]. now rewrite E.
  - now apply filter_log_file_reads.
  - cbv [filter_log_file catch bind read_text get_fs print emit ret raise
         st_fs st_trace]. rewrite E.
    destruct (missing_cases fs p) as [-> | ->]; reflexivity.
Qed.

Lemma scan_all_cons (p : str) (rest : list str) (pats : list Re.pattern)
      (hw : option (dict Colors)) (results : dict (list Match))
      (all : list Match) :
  scan_all (p :: rest) pats hw results all =
  (filtered_lines <- filter_log_file p pats hw ;;
   if truthy filtered_lines then
     print (MsgMatches (length filtered_lines) (Path.basename p)) ;;;
     scan_all rest pats hw
              (dict_set results (Path.basename p) filtered_lines)
              (all ++ filtered_lines)
   else
     print (MsgNoMatches (Path.basename p)) ;;;
     scan_all rest pats hw results all).
Proof. reflexivity. Qed.

Lemma scan_all_result (fs : filesystem) (pats : list Re.pattern)
      (hw : option (dict Colors)) :
  forall files results all tr,
    scan_all files pats hw results all (State fs tr)
    = (Ok (fold_left (record fs pats) files results,
           all ++ flat_map (file_matches fs pats) files),
       State fs (tr ++ scan_events fs pats files)).
Proof.
  induction files as [|p rest IH]; intros results all tr.
  - cbn. now rewrite !app_nil_r.
  - rewrite scan_all_cons. unfold bind at 1.
    rewrite filter_log_file_matches.
    cbn [fold_left flat_map scan_events].
    unfold record at 2, count_message.
    destruct (truthy (file_matches fs pats p)) eqn:E;
      unfold bind, print, emit; cbn [st_fs st_trace]; rewrite IH;
      rewrite <- !app_assoc; cbn [app]; try reflexivity.
    destruct (file_matches fs pats p); [reflexivity|discriminate E].
Qed.

(** X12.  A run over a folder without containers, from end to end.  It
    scans the plain log files in the order of the directory listing
    and leaves every file as it is; the aggregate is the concatenation
    of the matches of the files in that order; when the aggregate is
    not empty both reports are attempted, each with the whole
    aggregate, the structured report in the file system the attempt
    on the text report left (which makes no difference to it unless
    its path runs through the path of the text report), and nothing
    but the two report paths can change. *)
Theorem plain_run_end_to_end
        (folder : str) (keywords : list str) (output_txt output_html : str)
        (hw : option (dict Colors)) (process_zips : bool)
        (tmp : option str) (fs : filesystem) (tr : list event)
        (Hdir : FS.isdir fs folder = true)
        (Hzips : discovered_zips fs folder process_zips = [])
        (Hlogs : discovered_logs fs folder <> []) :
  let pats := map literal keywords in
  let logs := discovered_logs fs folder in
  let all := flat_map (file_matches fs pats) logs in
  exists st',
    process_all_log_files folder keywords output_txt output_html hw
                          process_zips tmp (State fs tr)
    = (Ok (fold_left (record fs pats) logs []), st') /\
    st_trace st' =
      tr ++ [found_message fs folder process_zips]
         ++ scan_events fs pats logs
         ++ (if truthy all
             then report_events fs output_txt (text_report all)
                    (MsgSavedText output_txt) MsgTextWriteError
                  ++ report_events
                       (after_write fs output_txt (text_report all))
                       output_html (html_document all hw)
                       (MsgSavedHtml output_html) MsgHtmlWriteError
             else []) /\
    (forall q, q <> output_txt -> q <> output_html ->
               FS.lookup (st_fs st') q = FS.lookup fs q) /\
    (all = [] -> st_fs st' = fs) /\
    (~ In output_txt (Path.parents output_html) ->
     report_events (after_write fs output_txt (text_report all))
       output_html (html_document all hw)
       (MsgSavedHtml output_html) MsgHtmlWriteError
     = report_events fs output_html (html_document all hw)
         (MsgSavedHtml output_html) MsgHtmlWriteError).
Proof.
  intros pats logs all.
  assert (Ht : negb (truthy (discovered_logs fs folder))
               && negb (truthy (@nil str)) = false)
    by (destruct (discovered_logs fs folder); [congruence|reflexivity]).
  rewrite (run_unfold folder keywords output_txt output_html hw process_zips
                      tmp fs tr Hdir).
  rewrite Hzips, Ht. cbv zeta. unfold try_block.
  change (truthy (@nil str)) with false. cbv iota.
  rewrite scan_all_result. cbn [app]. fold pats logs all.
  cbn [finally_block ret].
  unfold write_reports. clearbody all.
  destruct all as [|m l].
  - change (truthy []) with false. cbv iota. unfold ret.
    eexists. split; [reflexivity|]. cbn [st_fs st_trace].
    rewrite app_nil_r, <- app_assoc.
    repeat split. apply report_events_after_write.
  - change (truthy (m :: l)) with true. cbv iota.
    unfold bind. rewrite save_results_as_text_spec.
    rewrite save_results_as_html_spec. cbv [ret st_fs st_trace].
    eexists. split; [reflexivity|]. cbn [st_fs st_trace].
    split; [now rewrite <- !app_assoc|].
    split; [|split; [discriminate|apply report_events_after_write]].
    intros q H1 H2. unfold after_write.
    repeat match goal with
    | |- context [if ?b then _ else _] => destruct b
    end;
      rewrite ?lookup_set_other by assumption; reflexivity.
Qed.

Lemma plain_run_end_to_end_witness :
  exists st',
    process_all_log_files (txt "/logs") [txt "ccp: epk"] (txt "/out/r.txt")
                          (txt "/out/r.html") None true None
                          (State two_plain_logs [])
    = (Ok [ (txt "a.LOG", [(txt "a.LOG", 2, txt "CCP: EPK one")]);
            (txt "b.log", [(txt "b.log", 1, txt "ccp: epk two")]) ], st') /\
    st_trace st' =
      [ Printed (MsgFound 2 0);
        Printed (MsgProcessing (txt "a.LOG"));
        Printed (MsgMatches 1 (txt "a.LOG"));
        Printed (MsgProcessing (txt "b.log"));
        Printed (MsgMatches 1 (txt "b.log"));
        Wrote (txt "/out/r.txt")
              (text_report [ (txt "a.LOG", 2, txt "CCP: EPK one");
                        (txt "b.log", 1, txt "ccp: epk two") ]);
        Printed (MsgSavedText (txt "/out/r.txt"));
        Wrote (txt "/out/r.html")
              (html_document [ (txt "a.LOG", 2, txt "CCP: EPK one");
                        (txt "b.log", 1, txt "ccp: epk two") ] None);
        Printed (MsgSavedHtml (txt "/out/r.html")) ] /\
    FS.lookup (st_fs st') (txt "/logs/a.LOG")
    = FS.lookup two_plain_logs (txt "/logs/a.LOG").
Proof.
  destruct (plain_run_end_to_end
              (txt "/logs") [txt "ccp: epk"] (txt "/out/r.txt")
              (txt "/out/r.html") None true None two_plain_logs [])
    as (st' & H & Htr & Hframe & _);
    [reflexivity|reflexivity|discriminate|].
  exists st'. split; [exact H|]. split; [exact Htr|].
  apply Hframe; discriminate.
Defined.

Lemma dict_set_known {V} (d : dict V) (k : str) (v : V) :
  In k (map fst d) -> map fst (dict_set d k v) = map fst d.
Proof.
  induction d as [|[k' v'] d IH]; simpl; [intros []|].
  intro H. destruct (str_eqb k' k) eqn:E; [reflexivity|].
  simpl. f_equal. apply IH. destruct H as [H|H]; [|exact H].
  apply str_eqb_neq in E. congruence.
Qed.

Lemma in_dict_set {V} (d : dict V) (k : str) (v : V) (n : str) (l : V) :
  In (n, l) (dict_set d k v) -> (n = k /\ l = v) \/ In (n, l) d.
Proof.
  induction d as [|[k' v'] d IH]; simpl.
  - intros [H|[]]. injection H as <- <-. now left.
  - destruct (str_eqb k' k) eqn:E; intros [H|H].
    + injection H as <- <-. apply str_eqb_eq in E. now left.
    + right. now right.
    + right. now left.
    + destruct (IH H) as [H'|H']; [now left|right; now right].
Qed.

Lemma total_matches_app (d e : dict (list Match)) :
  total_matches (d ++ e) = total_matches d + total_matches e.
Proof.
  unfold total_matches. now rewrite map_app, list_sum_app.
Qed.

Lemma total_matches_set (d : dict (list Match)) (k : str) (v : list Match) :
  total_matches (dict_set d k v) <= total_matches d + length v.
Proof.
  induction d as [|[k' v'] d IH].
  - cbn. lia.
  - cbn [dict_set]. destruct (str_eqb k' k).
    + change (total_matches ((k', v) :: d))
        with (length v + total_matches d).
      change (total_matches ((k', v') :: d))
        with (length v' + total_matches d). lia.
    + change (total_matches ((k', v') :: dict_set d k v))
        with (length v' + total_matches (dict_set d k v)).
      change (total_matches ((k', v') :: d))
        with (length v' + total_matches d). lia.
Qed.

Lemma dict_get_set_same {V} (d : dict V) (k : str) (v : V) :
  dict_get (dict_set d k v) k = Some v.
Proof.
  induction d as [|[k' v'] d IH]; simpl.
  - now rewrite str_eqb_refl.
  - destruct (str_eqb k' k) eqn:E; simpl; now rewrite E.
Qed.

Lemma dict_get_set_other {V} (d : dict V) (k k' : str) (v : V) :
  k' <> k -> dict_get (dict_set d k' v) k = dict_get d k.
Proof.
  intro Hk. induction d as [|[k0 v0] d IH]; simpl.
  - apply str_eqb_neq in Hk. now rewrite Hk.
  - destruct (str_eqb k0 k') eqn:E; simpl.
    + apply str_eqb_eq in E. subst k0.
      apply str_eqb_neq in Hk. now rewrite Hk.
    + now rewrite IH.
Qed.

Lemma in_keys_dec (k : str) (keys : list str) : In k keys \/ ~ In k keys.
Proof.
  induction keys as [|k' keys IH]; [now right|].
  destruct (str_eqb k' k) eqn:E.
  - apply str_eqb_eq in E. left. now left.
  - apply str_eqb_neq in E. destruct IH as [IH|IH]; [left; now right|].
    right. intros [H|H]; contradiction.
Qed.

Lemma record_fold_inv (fs : filesystem) (pats : list Re.pattern) :
  forall files results,
    NoDup (map fst results) ->
    NoDup (map fst (fold_left (record fs pats) files results)) /\
    (forall n l,
        In (n, l) (fold_left (record fs pats) files results) ->
        In (n, l) results \/
        (l <> [] /\ exists p, In p files /\ Path.basename p = n /\
                              l = file_matches fs pats p)) /\
    total_matches (fold_left (record fs pats) files results)
    <= total_matches results + length (flat_map (file_matches fs pats) files).
Proof.
  induction files as [|p rest IH]; intros results Hnd.
  - cbn [fold_left flat_map length]. rewrite Nat.add_0_r.
    repeat split; auto.
  - cbn [fold_left flat_map]. rewrite length_app.
    assert (Hnd' : NoDup (map fst (record fs pats results p))).
    { unfold record. destruct (truthy (file_matches fs pats p)); [|exact Hnd].
      destruct (in_keys_dec (Path.basename p) (map fst results)) as [H|H].
      - now rewrite dict_set_known.
      - rewrite dict_set_fresh by exact H. rewrite map_app. cbn.
        apply NoDup_app; [exact Hnd|repeat constructor; intros []|].
        intros a Ha [<-|[]]. contradiction. }
    destruct (IH _ Hnd') as (I1 & I2 & I3).
    split; [exact I1|]. split.
    + intros n l Hin. destruct (I2 n l Hin) as [H|(Hl & q & Hq & Hb & He)].
      * unfold record in H.
        destruct (file_matches fs pats p) as [|m ms] eqn:Em;
          [now left|].
        change (truthy (m :: ms)) with true in H. cbv iota in H.
        apply in_dict_set in H. destruct H as [[-> ->]|H]; [|now left].
        right. split; [discriminate|]. exists p.
        split; [now left|]. split; [reflexivity|]. now rewrite Em.
      * right. split; [exact Hl|]. exists q. split; [now right|]. now split.
    + assert (Hrec : total_matches (record fs pats results p)
                     <= total_matches results
                        + length (file_matches fs pats p)).
      { unfold record. destruct (file_matches fs pats p) as [|m ms].
        - change (truthy (@nil Match)) with false. cbv iota.
          cbn [length]. rewrite Nat.add_0_r. apply Nat.le_refl.
        - apply total_matches_set. }
      eapply Nat.le_trans; [exact I3|].
      rewrite Nat.add_assoc. apply Nat.add_le_mono_r. exact Hrec.
Qed.

Lemma all_of_app (d e : dict (list Match)) :
  all_of (d ++ e) = all_of d ++ all_of e.
Proof. unfold all_of. apply flat_map_app. Qed.

Lemma record_fold_distinct (fs : filesystem) (pats : list Re.pattern) :
  forall files results,
    NoDup (map Path.basename files) ->
    (forall p, In p files -> ~ In (Path.basename p) (map fst results)) ->
    all_of (fold_left (record fs pats) files results)
    = all_of results ++ flat_map (file_matches fs pats) files.
Proof.
  induction files as [|p rest IH]; intros results Hnd Hfresh.
  - cbn. now rewrite app_nil_r.
  - cbn [fold_left flat_map]. cbn [map] in Hnd.
    inversion Hnd as [|? ? Hp Hrest]; subst.
    unfold record at 2.
    destruct (file_matches fs pats p) as [|m ms] eqn:Em.
    + change (truthy []) with false. cbv iota.
      rewrite IH; [reflexivity|exact Hrest|].
      intros q Hq. apply Hfresh. now right.
    + change (truthy (m :: ms)) with true. cbv iota.
      rewrite dict_set_fresh by (apply Hfresh; now left).
      rewrite IH; [|exact Hrest|].
      * rewrite all_of_app. unfold all_of at 2. cbn [flat_map snd].
        rewrite app_nil_r. now rewrite <- app_assoc.
      * intros q Hq. rewrite map_app. cbn. intro H.
        apply in_app_or in H. destruct H as [H|[H|[]]].
        -- revert H. apply Hfresh. now right.
        -- apply Hp. rewrite H. now apply in_map.
Qed.

(** X13.  What the loop over the files leaves in [results].  Every
    entry holds the matches of one scanned file under its base name,
    never an empty list, and no base name has two entries.  The
    matches in [results] are never more than those of the aggregate
    that goes into the reports; when the scanned files have different
    base names they are the same matches in the same order. *)
Theorem results_hold_one_entry_per_base_name
        (fs : filesystem) (tr : list event) (files : list str)
        (keyword_patterns : list Re.pattern)
        (highlight_words : option (dict Colors)) :
  exists results all st',
    scan_all files keyword_patterns highlight_words [] [] (State fs tr)
    = (Ok (results, all), st') /\
    st_fs st' = fs /\
    all = flat_map (file_matches fs keyword_patterns) files /\
    NoDup (map fst results) /\
    (forall name l,
        In (name, l) results ->
        l <> [] /\
        exists p, In p files /\ Path.basename p = name /\
                  l = file_matches fs keyword_patterns p) /\
    total_matches results <= length all /\
    (NoDup (map Path.basename files) ->
     all_of results = all /\ total_matches results = length all).
Proof.
  rewrite scan_all_result. eexists _, _, _. split; [reflexivity|].
  destruct (record_fold_inv fs keyword_patterns files [] (NoDup_nil _))
    as (I1 & I2 & I3).
  cbn [app st_fs]. repeat split; try assumption.
  - destruct (I2 name l H) as [[]|(Hl & _)]. exact Hl.
  - destruct (I2 name l H) as [[]|(_ & Hp)]. exact Hp.
  - rewrite record_fold_distinct; [reflexivity|exact H|].
    intros p _ [].
  - rewrite total_matches_length.
    rewrite record_fold_distinct; [reflexivity|exact H|].
    intros p _ [].
Qed.

Lemma record_fold_other (fs : filesystem) (pats : list Re.pattern)
      (name : str) :
  forall files results,
    (forall q, In q files -> Path.basename q = name ->
               file_matches fs pats q = []) ->
    dict_get (fold_left (record fs pats) files results) name
    = dict_get results name.
Proof.
  induction files as [|q rest IH]; intros results H; [reflexivity|].
  cbn [fold_left]. rewrite IH by (intros q' Hq'; apply H; now right).
  unfold record. destruct (file_matches fs pats q) as [|m ms] eqn:Em;
    [reflexivity|].
  change (truthy (m :: ms)) with true. cbv iota.
  apply dict_get_set_other. intro Hb.
  specialize (H q (or_introl eq_refl) Hb). congruence.
Qed.

(** X14.  Of two scanned files with the same base name, as a log file
    of the folder and one extracted from a container can be, the later
    one takes the entry of [results]: when it has matches, the entry
    holds its matches alone, while the aggregate, and so the reports,
    hold the matches of both.  The totals [main] prints from [results]
    are then smaller than the count in the reports. *)
Theorem later_file_takes_the_entry
        (fs : filesystem) (tr : list event)
        (before after : list str) (p : str)
        (keyword_patterns : list Re.pattern)
        (highlight_words : option (dict Colors))
        (Hmatches : file_matches fs keyword_patterns p <> [])
        (Hlast : forall q, In q after ->
                           Path.basename q = Path.basename p ->
                           file_matches fs keyword_patterns q = []) :
  exists results all st',
    scan_all (before ++ p :: after) keyword_patterns highlight_words [] []
             (State fs tr)
    = (Ok (results, all), st') /\
    dict_get results (Path.basename p)
    = Some (file_matches fs keyword_patterns p) /\
    all = flat_map (file_matches fs keyword_patterns) before
          ++ file_matches fs keyword_patterns p
          ++ flat_map (file_matches fs keyword_patterns) after.
Proof.
  rewrite scan_all_result. eexists _, _, _. split; [reflexivity|].
  split.
  - rewrite fold_left_app. cbn [fold_left].
    rewrite record_fold_other by exact Hlast.
    unfold record.
    destruct (file_matches fs keyword_patterns p) as [|m ms];
      [congruence|].
    apply dict_get_set_same.
  - cbn [app]. now rewrite flat_map_app.
Qed.

Lemma later_file_takes_the_entry_witness :
  exists results all st',
    scan_all [txt "/a/x.LOG"; txt "/b/x.LOG"] [literal (txt "ccp")] None
             [] [] (State same_base_name [])
    = (Ok (results, all), st') /\
    dict_get results (txt "x.LOG")
    = Some [(txt "x.LOG", 1, txt "CCP: EPK second")] /\
    all = [ (txt "x.LOG", 1, txt "CCP: EPK first");
            (txt "x.LOG", 1, txt "CCP: EPK second") ] /\
    total_matches results = 1 /\ length all = 2.
Proof.
  destruct (later_file_takes_the_entry
              same_base_name [] [txt "/a/x.LOG"] [] (txt "/b/x.LOG")
              [literal (txt "ccp")] None)
    as (results & all & st' & H & Hget & Hall);
    [discriminate|intros q []|].
  exists results, all, st'.
  split; [exact H|]. split; [exact Hget|]. split; [exact Hall|].
  cbv [scan_all] in H. injection H as <- _ _. split; [reflexivity|].
  now rewrite Hall.
Defined.

Lemma results_hold_one_entry_per_base_name_witness :
  exists results all st',
    scan_all [txt "/logs/a.LOG"; txt "/logs/b.log"] [literal (txt "ccp")]
             None [] [] (State two_plain_logs [])
    = (Ok (results, all), st') /\
    all_of results = all /\ total_matches results = length all.
Proof.
  destruct (results_hold_one_entry_per_base_name
              two_plain_logs [] [txt "/logs/a.LOG"; txt "/logs/b.log"]
              [literal (txt "ccp")] None)
    as (results & all & st' & H & _ & _ & _ & _ & _ & Hd).
  exists results, all, st'. split; [exact H|]. apply Hd.
  repeat constructor; simpl; intuition discriminate.
Defined.

(* ================================================================= *)
(** ** The outcomes of the run *)

(** X15.  The only failures that end [process_all_log_files] are the
    listing of the folder and the creation of the temporary directory.
    When the folder cannot be listed the run raises, with the error of
    the system, before it prints or changes anything; when containers were found and no temporary
    directory can be made it raises after the line with the counts,
    the file system unchanged; in every other case it returns. *)
Theorem run_fails_only_on_listing_or_temp_dir
        (folder : str) (keywords : list str) (output_txt output_html : str)
        (hw : option (dict Colors)) (process_zips : bool)
        (tmp : option str) (fs : filesystem) (tr : list event) :
  let run := process_all_log_files folder keywords output_txt output_html
                                   hw process_zips tmp (State fs tr) in
  let zips := discovered_zips fs folder process_zips in
  (FS.isdir fs folder = false ->
   run = (Raise (if FS.exists_ fs folder then NotADirectoryError
                 else missing fs folder), State fs tr)) /\
  (FS.isdir fs folder = true -> zips <> [] -> tmp = None ->
   run = (Raise OSError,
          State fs (tr ++ [found_message fs folder process_zips]))) /\
  (FS.isdir fs folder = true -> zips = [] \/ tmp <> None ->
   exists results st', run = (Ok results, st')).
Proof.
  intros run zips. split; [|split].
  - intro H. subst run. unfold process_all_log_files.
    rewrite compile_keyword_patterns_ok.
    unfold bind at 1. unfold listdir, bind, get_fs, raise. cbn [st_fs].
    rewrite H. destruct (FS.exists_ fs folder); reflexivity.
  - intros H Hz Ht.
    exact (run_without_temp_dir folder keywords output_txt output_html hw
             process_zips tmp fs tr H Hz Ht).
  - intros H Hcase.
    destruct (discovered_zips fs folder process_zips) as [|z0 zs] eqn:Ez.
    + destruct (discovered_logs fs folder) as [|l0 ls] eqn:El.
      * eexists _, _.
        exact (run_nothing_found folder keywords output_txt output_html hw
                 process_zips tmp fs tr H El Ez).
      * destruct (run_without_containers folder keywords output_txt
                    output_html hw process_zips tmp fs tr H)
          as (results & all & mid & post & st' & Hrun & _);
          [rewrite El; discriminate|exact Ez|].
        now exists results, st'.
    + destruct tmp as [t|].
      * destruct (run_with_containers folder keywords output_txt
                    output_html hw process_zips (Some t) fs tr t H)
          as (results & all & ex & st1 & mid & post & st' & Hrun & _);
          [rewrite Ez; discriminate|reflexivity|].
        now exists results, st'.
      * subst zips. destruct Hcase as [Hc|Hc]; [discriminate|congruence].
Qed.

Lemma run_fails_only_on_listing_or_temp_dir_witness :
  process_all_log_files (txt "/nowhere") default_keywords (txt "out.txt")
    (txt "out.html") None true None (State sample_folder [])
  = (Raise FileNotFoundError, State sample_folder []) /\
  process_all_log_files (txt "/logs/app.LOG") default_keywords
    (txt "out.txt") (txt "out.html") None true None (State sample_folder [])
  = (Raise NotADirectoryError, State sample_folder []) /\
  process_all_log_files (txt "/logs/app.LOG/old") default_keywords
    (txt "out.txt") (txt "out.html") None true None (State sample_folder [])
  = (Raise NotADirectoryError, State sample_folder []) /\
  process_all_log_files (txt "/logs") default_keywords (txt "out.txt")
    (txt "out.html") None true None (State sample_folder [])
  = (Raise OSError, State sample_folder [Printed (MsgFound 1 3)]).
Proof.
  split; [|split; [|split]].
  - apply (run_fails_only_on_listing_or_temp_dir
             (txt "/nowhere") default_keywords (txt "out.txt")
             (txt "out.html") None true None sample_folder []).
    reflexivity.
  - apply (run_fails_only_on_listing_or_temp_dir
             (txt "/logs/app.LOG") default_keywords (txt "out.txt")
             (txt "out.html") None true None sample_folder []).
    reflexivity.
  - apply (run_fails_only_on_listing_or_temp_dir
             (txt "/logs/app.LOG/old") default_keywords (txt "out.txt")
             (txt "out.html") None true None sample_folder []).
    reflexivity.
  - apply (run_fails_only_on_listing_or_temp_dir
             (txt "/logs") default_keywords (txt "out.txt")
             (txt "out.html") None true None sample_folder []);
      [reflexivity|discriminate|reflexivity].
Defined.

(* ================================================================= *)
(** ** More on the Archive Extractor *)

Lemma drop_slashes_nil (y : str) :
  Path.drop_slashes y = [] -> forallb (Ascii.eqb slash) y = true.
Proof.
  induction y as [|c y IH]; simpl; [reflexivity|].
  destruct (Ascii.eqb c slash) eqn:E; [|discriminate].
  intro H. rewrite Ascii.eqb_sym, E. now apply IH.
Qed.

Lemma forallb_rev_iff {A} (P : A -> bool) (l : list A) :
  forallb P (rev l) = forallb P l.
Proof.
  induction l as [|a l IH]; simpl; [reflexivity|].
  rewrite forallb_app, IH. simpl. rewrite andb_true_r. apply andb_comm.
Qed.

Lemma trim_head_nil (h : str) : Path.trim_head h = [] -> h = [].
Proof.
  unfold Path.trim_head.
  destruct (forallb (Ascii.eqb slash) h) eqn:E; [auto|].
  intro H. assert (Hd : Path.drop_slashes (rev h) = []).
  { destruct (Path.drop_slashes (rev h)); [reflexivity|].
    simpl in H. now destruct (app_eq_nil _ _ H). }
  apply drop_slashes_nil in Hd. rewrite forallb_rev_iff in Hd. congruence.
Qed.

Lemma dirname_nil_no_slash (x : str) :
  Path.dirname x = [] -> has_char slash x = false.
Proof.
  unfold Path.dirname. intro H. apply trim_head_nil in H.
  rewrite <- (split_last_app x), H. apply basename_no_slash.
Qed.

Lemma split_last_no_slash (x : str) :
  has_char slash x = false -> Path.split_last x = ([], x).
Proof.
  induction x as [|c x IH]; simpl; [reflexivity|].
  intro H. apply orb_false_iff in H. destruct H as [Hc Hx].
  rewrite (IH Hx). now rewrite Ascii.eqb_sym, Hc.
Qed.

Lemma dirname_no_slash (x : str) :
  has_char slash x = false -> Path.dirname x = [].
Proof.
  intro H. unfold Path.dirname. now rewrite split_last_no_slash.
Qed.

Lemma splitext_ext_no_slash (p : str) :
  has_char slash (snd (Path.splitext p)) = false.
Proof.
  unfold Path.splitext.
  pose proof (basename_no_slash p) as Hb. unfold Path.basename in Hb.
  destruct (Path.split_last p) as [h t]. cbn [snd] in Hb.
  pose proof (split_dot_app t) as Hd.
  destruct (Path.split_dot t) as [r e]. cbn [fst snd] in Hd.
  destruct (Path.is_nil e || forallb (Ascii.eqb ".") r); [reflexivity|].
  cbn [snd]. rewrite <- Hd, has_char_app in Hb.
  now apply orb_false_iff in Hb.
Qed.

Lemma splitext_root_no_slash (b : str) :
  has_char slash b = false ->
  has_char slash (fst (Path.splitext b)) = false.
Proof.
  intro H. rewrite <- (splitext_app b), has_char_app in H.
  now apply orb_false_iff in H.
Qed.

Lemma renamed_no_slash (b zb ext : str) :
  has_char slash b = false -> has_char slash zb = false ->
  has_char slash ext = false ->
  has_char slash (fst (Path.splitext b) ++ txt "_" ++ zb ++ ext) = false.
Proof.
  intros Hb Hz He. rewrite !has_char_app.
  rewrite splitext_root_no_slash by exact Hb. now rewrite Hz, He.
Qed.

Lemma log_name_not_nil (x : str) : has_suffix ".LOG" x = true -> x <> [].
Proof. intros H ->. discriminate H. Qed.

Lemma extract_member_path (members : list member)
      (zip_path t log_file : str) (st st' : state) (p : str) :
  has_suffix ".LOG" log_file = true ->
  extract_member members zip_path t log_file st = (Ok p, st') ->
  directly_in t p.
Proof.
  intros Hlog. unfold extract_member, bind at 1.
  destruct (zip_extract members log_file t st) as [[[]|e] st1];
    [|discriminate].
  destruct (truthy (Path.dirname log_file)) eqn:Ed.
  - cbv [bind path_exists get_fs ret].
    match goal with
    | |- context [shutil_move ?a ?b st1] =>
        destruct (shutil_move a b st1) as [[[]|e] st2]; [|discriminate]
    end.
    intro H. injection H as <- _.
    destruct (FS.exists_ (st_fs st1)
                (Path.join t (Path.basename log_file))).
    + eexists. split; [reflexivity|]. split.
      * apply (renamed_is_relative (Path.basename log_file)
                 (Path.basename zip_path) (snd (Path.splitext log_file))
                 (basename_no_slash log_file)).
      * apply renamed_no_slash;
          auto using basename_no_slash, splitext_ext_no_slash.
    + eexists. split; [reflexivity|]. split.
      * now apply basename_of_log.
      * apply basename_no_slash.
  - unfold ret. intro H. injection H as <- _.
    exists log_file. split; [reflexivity|]. split.
    + now apply log_name_not_nil.
    + apply dirname_nil_no_slash.
      destruct (Path.dirname log_file); [reflexivity|discriminate Ed].
Qed.

Lemma extract_members_paths (members : list member) (zip_path t : str) :
  forall log_files extracted st l oe st',
    Forall (fun f => has_suffix ".LOG" f = true) log_files ->
    Forall (directly_in t) extracted ->
    extract_members members zip_path t log_files extracted st
    = ((l, oe), st') ->
    Forall (directly_in t) l /\
    length l <= length extracted + length log_files /\
    (oe = None -> length l = length extracted + length log_files).
Proof.
  induction log_files as [|f log_files IH];
    intros extracted st l oe st' Hall Hex; cbn [extract_members].
  - intro H. injection H as <- <- _. cbn [length].
    rewrite Nat.add_0_r. auto.
  - inversion Hall as [|? ? Hf Hrest]; subst.
    destruct (extract_member members zip_path t f st) as [[p|e] st1] eqn:Em.
    + intro H. apply IH in H; [|exact Hrest|].
      * rewrite length_app in H. cbn [length] in *.
        destruct H as (H1 & H2 & H3). split; [exact H1|].
        split; [lia|]. intro Ho. specialize (H3 Ho). lia.
      * apply Forall_app. split; [exact Hex|].
        constructor; [|constructor].
        eapply extract_member_path; eauto.
    + intro H. injection H as <- <- _. cbn [length].
      split; [exact Hex|]. split; [lia|discriminate].
Qed.

(** X16.  [extract_log_files_from_zip] never raises, and every path it
    returns lies directly in the temporary directory, whatever names
    the members have: a member stored in a subdirectory is moved up.
    It returns at most one path per member whose name ends in [.LOG],
    and exactly one per such member unless it printed an error. *)
Theorem extracted_paths_lie_directly_in_temp_dir
        (zip_path temp_dir : str) (st : state) :
  exists extracted_files st' new,
    extract_log_files_from_zip zip_path temp_dir st
    = (Ok extracted_files, st') /\
    st_trace st' = st_trace st ++ new /\
    Forall (directly_in temp_dir) extracted_files /\
    Forall (fun p => FS.below temp_dir p = true) extracted_files /\
    (forall f members,
        FS.lookup (st_fs st) zip_path = Some (Reg f) ->
        f_archive f = Some members ->
        let log_files := filter (has_suffix ".LOG") (map m_name members) in
        length extracted_files <= length log_files /\
        (length extracted_files = length log_files \/
         exists m, In (Printed m) new /\ is_error m = true)).
Proof.
  assert (Hbelow : forall l, Forall (directly_in temp_dir) l ->
                             Forall (fun p => FS.below temp_dir p = true) l).
  { intros l Hl. eapply Forall_impl; [|exact Hl].
    intros p (name & -> & Hn & Hs).
    apply below_join; [exact Hn|now apply no_slash_not_absolute]. }
  assert (Hhandler : forall e l st0,
             extract_handler zip_path e l st0
             = (Ok l, State (st_fs st0)
                            (st_trace st0 ++
                             [Printed (match e with
                                     | BadZipFile =>
                                         MsgBadZip (Path.basename zip_path)
                                     | _ => MsgExtractError
                                              (Path.basename zip_path) e
                                     end)])) /\
             is_error (match e with
                       | BadZipFile => MsgBadZip (Path.basename zip_path)
                       | _ => MsgExtractError (Path.basename zip_path) e
                       end) = true).
  { intros e l st0. destruct e; split; reflexivity. }
  destruct st as [fs tr]. unfold extract_log_files_from_zip.
  cbv [zip_open bind get_fs raise ret st_fs].
  destruct (FS.lookup fs zip_path) as [[|f]|] eqn:El.
  - destruct (Hhandler IsADirectoryError [] (State fs tr)) as [-> _].
    eexists _, _, _. repeat split; try reflexivity; try constructor;
      discriminate.
  - destruct (f_archive f) as [members|] eqn:Ea.
    + remember (filter (has_suffix ".LOG") (map m_name members))
        as log_files eqn:Hlf.
      destruct log_files as [|l0 ls].
      * cbn. eexists _, _, _. split; [reflexivity|].
        cbn [st_trace st_fs]. split; [reflexivity|].
        split; [constructor|]. split; [constructor|].
        intros f' members' Hf Hm. injection Hf as <-.
        rewrite Ea in Hm. injection Hm as <-. cbv zeta. rewrite <- Hlf.
        split; [apply Nat.le_refl|now left].
      * change (negb (truthy (l0 :: ls))) with false. cbv iota.
        cbv [print emit st_fs st_trace].
        destruct (extract_members members zip_path temp_dir (l0 :: ls) []
                    (State fs (tr ++ [Printed (MsgFoundInZip
                                               (length (l0 :: ls))
                                               (Path.basename zip_path))])))
          as [[l oe] st3] eqn:Ex.
        assert (Hlogs : Forall (fun f => has_suffix ".LOG" f = true)
                               (l0 :: ls)).
        { apply Forall_forall. intros x Hx. rewrite Hlf in Hx.
          now apply filter_In in Hx. }
        pose proof (extract_members_paths _ _ _ _ _ _ _ _ _ Hlogs
                      (Forall_nil _) Ex) as (Hp & Hle & Heq).
        pose proof (extract_members_extends _ _ _ _ _ _ _ _ _ Hlogs Ex)
          as [(new & Htr & _) _].
        cbn [st_trace] in Htr. change (length (@nil str)) with 0 in *.
        rewrite Nat.add_0_l in *.
        destruct oe as [e|].
        -- destruct (Hhandler e l st3) as [-> Herr].
           eexists _, _,
             ([Printed (MsgFoundInZip (length (l0 :: ls))
                                    (Path.basename zip_path))] ++ new ++ [_]).
           split; [reflexivity|]. cbn [st_trace].
           split; [rewrite Htr, <- !app_assoc; reflexivity|].
           split; [exact Hp|]. split; [now apply Hbelow|].
           intros f' members' Hf Hm. injection Hf as <-.
           rewrite Ea in Hm. injection Hm as <-. cbv zeta. rewrite <- Hlf.
           split; [exact Hle|]. right. eexists. split; [|exact Herr].
           apply in_or_app. right. apply in_or_app. right. now left.
        -- eexists _, _,
             ([Printed (MsgFoundInZip (length (l0 :: ls))
                                    (Path.basename zip_path))] ++ new).
           split; [reflexivity|]. cbn [st_trace].
           split; [rewrite <- app_assoc in Htr; exact Htr|].
           split; [exact Hp|]. split; [now apply Hbelow|].
           intros f' members' Hf Hm. injection Hf as <-.
           rewrite Ea in Hm. injection Hm as <-. cbv zeta. rewrite <- Hlf.
           split; [exact Hle|]. left. now apply Heq.
    + destruct (Hhandler BadZipFile [] (State fs tr)) as [-> _].
      eexists _, _, _. repeat split; try reflexivity; try constructor;
        congruence.
  - destruct (Hhandler (missing fs zip_path) [] (State fs tr)) as [-> _].
    eexists _, _, _. repeat split; try reflexivity; try constructor;
      discriminate.
Qed.

Lemma extracted_paths_lie_directly_in_temp_dir_witness :
  exists extracted_files st' new,
    extract_log_files_from_zip (txt "/logs/more.zip") (txt "/tmp/scratch")
      (State ((txt "/tmp/scratch", Dir) :: sample_folder) [])
    = (Ok extracted_files, st') /\
    st_trace st' = new /\
    length extracted_files <= 2 /\
    (length extracted_files = 2 \/
     exists m, In (Printed m) new /\ is_error m = true).
Proof.
  destruct (extracted_paths_lie_directly_in_temp_dir
              (txt "/logs/more.zip") (txt "/tmp/scratch")
              (State ((txt "/tmp/scratch", Dir) :: sample_folder) []))
    as (l & st' & new & H & Htr & _ & _ & Hcount).
  exists l, st', new. split; [exact H|]. split; [exact Htr|].
  exact (Hcount _ _ eq_refl eq_refl).
Defined.

(* ================================================================= *)
(** ** What an extraction leaves alone *)

Lemma startswith_longer (t s : str) (c : ascii) :
  startswith (t ++ c :: s) t = false.
Proof.
  induction t as [|d t IH]; simpl; [reflexivity|].
  now rewrite IH, andb_false_r.
Qed.

Lemma below_self (t : str) : FS.below t t = false.
Proof.
  unfold FS.below. destruct (join_empty t) as (s & ->).
  destruct s as [|c s].
  - rewrite app_nil_r, str_eqb_refl. apply andb_false_r.
  - now rewrite startswith_longer.
Qed.

Lemma below_normal (t w : str) :
  normal_dir t = true -> w <> [] -> FS.below t (t ++ slash :: w) = true.
Proof.
  intros Hn Hw. unfold FS.below.
  rewrite (normal_join t [] Hn eq_refl).
  change (t ++ slash :: w) with (t ++ [slash] ++ w).
  rewrite app_assoc, startswith_prefix, str_eqb_app_nil.
  destruct w; [congruence|reflexivity].
Qed.

Lemma below_join_under (t dst b : str) :
  FS.below t dst = true -> startswith [slash] b = false ->
  FS.below t (Path.join dst b) = true.
Proof.
  intros Hd Hb. rewrite join_relative by exact Hb.
  destruct (join_empty dst) as (s & ->).
  rewrite <- app_assoc. now apply below_app.
Qed.

Lemma frame_refl (t : str) (fs : filesystem) : frame t fs fs.
Proof. intros q _. reflexivity. Qed.

Lemma frame_trans (t : str) (a b c : filesystem) :
  frame t a b -> frame t b c -> frame t a c.
Proof. intros H1 H2 q Hq. now rewrite H2, H1. Qed.

Lemma frame_set (t p : str) (n : node) (fs : filesystem) :
  FS.below t p = true -> frame t fs (FS.set fs p n).
Proof.
  intros Hp q Hq. rewrite lookup_set.
  destruct (str_eqb p q) eqn:E; [|reflexivity].
  apply str_eqb_eq in E. congruence.
Qed.

Lemma frame_remove (t p : str) (fs : filesystem) :
  FS.below t p = true -> frame t fs (FS.remove fs p).
Proof.
  intros Hp q Hq. rewrite lookup_remove.
  destruct (str_eqb q p) eqn:E; [|reflexivity].
  apply str_eqb_eq in E. congruence.
Qed.

Lemma drop_slashes_acc (r : str) : forall y,
  Path.drop_slashes (y ++ slash :: r) = Path.drop_slashes r \/
  exists z, z <> [] /\ Path.drop_slashes (y ++ slash :: r) = z ++ slash :: r.
Proof.
  induction y as [|c y IH]; simpl.
  - left. reflexivity.
  - destruct (Ascii.eqb c slash); [exact IH|].
    right. exists (c :: y). split; [discriminate|reflexivity].
Qed.

Lemma parents_from_inner (t : str) :
  normal_dir t = true ->
  forall x pre,
    Forall (fun d => d = t \/ FS.below t d = true)
           (Path.parents_from (rev pre ++ slash :: rev t) x).
Proof.
  intros Hn. destruct (normal_rev t Hn) as [Hrev Hne].
  induction x as [|c x IH]; intro pre; simpl; [constructor|].
  apply Forall_app. split.
  - specialize (IH (pre ++ [c])). rewrite rev_unit in IH. exact IH.
  - destruct (Ascii.eqb c slash
              && negb (Path.is_nil
                         (Path.drop_slashes (rev pre ++ slash :: rev t))));
      [|constructor].
    constructor; [|constructor].
    destruct (drop_slashes_acc (rev t) (rev pre)) as [->|(z & Hz & ->)].
    + left. now rewrite Hrev, rev_involutive.
    + right. rewrite rev_app_distr. cbn [rev].
      rewrite rev_involutive, <- app_assoc. cbn [app].
      apply below_normal; [exact Hn|].
      intro H. apply Hz. rewrite <- (rev_involutive z), H. reflexivity.
Qed.

Lemma parents_join (t x : str) :
  normal_dir t = true -> startswith [slash] x = false ->
  Path.parents (Path.join t x)
  = Path.parents_from (slash :: rev t) x ++ t :: Path.parents t.
Proof.
  intros Hn Hx. rewrite normal_join by assumption.
  destruct (normal_rev t Hn) as [Hrev Hne].
  unfold Path.parents. rewrite parents_from_app, app_nil_r.
  cbn [Path.parents_from]. rewrite Hrev, rev_involutive.
  change (Ascii.eqb slash slash) with true. cbn [andb].
  destruct (rev t) as [|c r] eqn:E.
  - exfalso. apply Hne. rewrite <- (rev_involutive t), E. reflexivity.
  - cbn [Path.is_nil negb]. now rewrite <- app_assoc.
Qed.

Lemma makedirs_frame (t : str) (outer : list str) :
  forall inner fs fs1,
    Forall (fun d => d = t \/ FS.below t d = true) inner ->
    FS.lookup fs t = Some Dir ->
    makedirs (inner ++ t :: outer) fs = Ok fs1 ->
    frame t fs fs1.
Proof.
  induction inner as [|d inner IH]; intros fs fs1 Hin Ht; simpl.
  - rewrite Ht. intro H. injection H as <-. apply frame_refl.
  - inversion Hin as [|? ? Hd Hrest]; subst.
    destruct (FS.lookup fs d) as [[|f]|] eqn:Ed.
    + intro H. injection H as <-. apply frame_refl.
    + discriminate.
    + destruct (makedirs (inner ++ t :: outer) fs) as [fs'|e] eqn:Em;
        [|discriminate].
      intro H. injection H as <-.
      eapply frame_trans; [exact (IH _ _ Hrest Ht Em)|].
      apply frame_set. destruct Hd as [->|Hd]; [congruence|exact Hd].
Qed.

Lemma zip_extract_frame (members : list member) (name t : str)
      (st st' : state) (r : res unit) :
  normal_dir t = true -> FS.lookup (st_fs st) t = Some Dir ->
  zip_extract members name t st = (r, st') ->
  frame t (st_fs st) (st_fs st') /\ st_trace st' = st_trace st.
Proof.
  intros Hn Ht. destruct st as [fs tr]. cbn [st_fs st_trace] in *.
  unfold zip_extract.
  destruct (getinfo members name) as [m|].
  - cbv [bind get_fs put_fs raise st_fs st_trace].
    rewrite parents_join by (exact Hn || apply sanitize_relative).
    destruct (makedirs _ fs) as [fs1|e] eqn:Em.
    + apply (makedirs_frame t (Path.parents t)) in Em;
        [|apply (parents_from_inner t Hn (sanitize name) [])|exact Ht].
      destruct (m_data m) as [data|].
      * destruct (FS.isdir fs1 (Path.join t (sanitize name))
                  || Path.is_nil (sanitize name)) eqn:E.
        -- intro H. injection H as _ <-. now split.
        -- intro H. injection H as _ <-. split; [|reflexivity].
           cbn [st_fs]. eapply frame_trans; [exact Em|].
           apply frame_set. apply orb_false_iff in E. destruct E as [_ E].
           apply below_join; [|apply sanitize_relative].
           destruct (sanitize name); [discriminate E|discriminate].
      * intro H. injection H as _ <-. now split.
    + intro H. injection H as _ <-. split; [apply frame_refl|reflexivity].
  - unfold raise. intro H. injection H as _ <-.
    split; [apply frame_refl|reflexivity].
Qed.

Lemma shutil_move_frame (src dst t : str) (st st' : state) (r : res unit) :
  FS.below t src = true -> FS.below t dst = true ->
  shutil_move src dst st = (r, st') ->
  frame t (st_fs st) (st_fs st') /\ st_trace st' = st_trace st.
Proof.
  intros Hs Hd. destruct st as [fs tr].
  cbv [shutil_move bind get_fs put_fs raise st_fs st_trace].
  set (real_dst := if FS.isdir fs dst
                   then Path.join dst (Path.basename src) else dst).
  assert (Hr : FS.below t real_dst = true).
  { subst real_dst. destruct (FS.isdir fs dst); [|exact Hd].
    apply below_join_under; [exact Hd|].
    apply no_slash_not_absolute, basename_no_slash. }
  destruct (FS.isdir fs dst && FS.exists_ fs real_dst).
  - intro H. injection H as _ <-. split; [apply frame_refl|reflexivity].
  - destruct (FS.lookup fs src) as [[|f]|];
      intro H; injection H as _ <-;
      (split; [|reflexivity]); try apply frame_refl.
    cbn [st_fs]. eapply frame_trans; [apply frame_remove; exact Hs|].
    now apply frame_set.
Qed.

Lemma sanitized_is_relative (name : str) :
  sanitize name = name -> startswith [slash] name = false.
Proof. intro H. rewrite <- H. apply sanitize_relative. Qed.

Lemma new_path_below (fs1 : filesystem) (zip_path t log_file : str) :
  has_suffix ".LOG" log_file = true ->
  FS.below t
    (if FS.exists_ fs1 (Path.join t (Path.basename log_file))
     then Path.join t
            (fst (Path.splitext (Path.basename log_file)) ++ txt "_" ++
             Path.basename zip_path ++ snd (Path.splitext log_file))
     else Path.join t (Path.basename log_file)) = true.
Proof.
  intro Hlog.
  destruct (FS.exists_ fs1 (Path.join t (Path.basename log_file))).
  - destruct (renamed_is_relative
                (Path.basename log_file) (Path.basename zip_path)
                (snd (Path.splitext log_file))
                (basename_no_slash log_file)) as [H1 H2].
    now apply below_join.
  - apply below_join; [now apply basename_of_log|].
    apply no_slash_not_absolute, basename_no_slash.
Qed.

Lemma extract_member_frame (members : list member)
      (zip_path t log_file : str) (st st' : state) (r : res str) :
  normal_dir t = true -> FS.lookup (st_fs st) t = Some Dir ->
  has_suffix ".LOG" log_file = true -> sanitize log_file = log_file ->
  extract_member members zip_path t log_file st = (r, st') ->
  frame t (st_fs st) (st_fs st') /\ st_trace st' = st_trace st.
Proof.
  intros Hn Ht Hlog Hsan. unfold extract_member, bind at 1.
  destruct (zip_extract members log_file t st) as [[[]|e] st1] eqn:Hx;
    apply (zip_extract_frame _ _ _ _ _ _ Hn Ht) in Hx;
    [|intro H; injection H as _ <-; exact Hx].
  destruct Hx as [Hf Htr].
  destruct (truthy (Path.dirname log_file));
    [|unfold ret; intro H; injection H as _ <-; now split].
  cbv [bind path_exists get_fs ret].
  match goal with
  | |- context [shutil_move ?a ?b st1] =>
      destruct (shutil_move a b st1) as [r2 st2] eqn:Hmv
  end.
  apply shutil_move_frame with (t := t) in Hmv.
  - destruct Hmv as [Hf2 Htr2].
    assert (frame t (st_fs st) (st_fs st2) /\ st_trace st2 = st_trace st)
      by (split; [eapply frame_trans; eauto|congruence]).
    destruct r2; intro H'; injection H' as _ <-; assumption.
  - apply below_join; [now apply log_name_not_nil|].
    now apply sanitized_is_relative.
  - now apply new_path_below.
Qed.

Lemma extract_members_frame (members : list member) (zip_path t : str) :
  normal_dir t = true ->
  forall log_files extracted st l oe st',
    FS.lookup (st_fs st) t = Some Dir ->
    Forall (fun f => has_suffix ".LOG" f = true /\ sanitize f = f)
           log_files ->
    extract_members members zip_path t log_files extracted st
    = ((l, oe), st') ->
    frame t (st_fs st) (st_fs st') /\ st_trace st' = st_trace st.
Proof.
  intro Hn.
  induction log_files as [|f log_files IH];
    intros extracted st l oe st' Ht Hall; cbn [extract_members].
  - intro H. injection H as _ _ <-. split; [apply frame_refl|reflexivity].
  - inversion Hall as [|? ? [Hlog Hsan] Hrest]; subst.
    destruct (extract_member members zip_path t f st) as [[p|e] st1] eqn:Em;
      apply (extract_member_frame _ _ _ _ _ _ _ Hn Ht Hlog Hsan) in Em;
      destruct Em as [Hf Htr].
    + intro H. apply IH in H; [|rewrite Hf; [exact Ht|apply below_self]
                               |exact Hrest].
      destruct H as [Hf2 Htr2].
      split; [eapply frame_trans; eauto|congruence].
    + intro H. injection H as _ _ <-. now split.
Qed.

Lemma extract_log_files_from_zip_frame (zip_path t : str) (st : state) :
  normal_dir t = true -> FS.lookup (st_fs st) t = Some Dir ->
  (forall f, FS.lookup (st_fs st) zip_path = Some (Reg f) ->
             well_formed_archive f = true) ->
  exists l st',
    extract_log_files_from_zip zip_path t st = (Ok l, st') /\
    frame t (st_fs st) (st_fs st').
Proof.
  intros Hn Ht Hwf.
  assert (Hhandler : forall e l st0,
             extract_handler zip_path e l st0
             = (Ok l, State (st_fs st0)
                            (st_trace st0 ++
                             [Printed (match e with
                                     | BadZipFile =>
                                         MsgBadZip (Path.basename zip_path)
                                     | _ => MsgExtractError
                                              (Path.basename zip_path) e
                                     end)]))).
  { intros e l st0. destruct e; reflexivity. }
  destruct st as [fs tr]. cbn [st_fs] in *.
  unfold extract_log_files_from_zip.
  cbv [zip_open bind get_fs raise ret st_fs].
  destruct (FS.lookup fs zip_path) as [[|f]|] eqn:El.
  - rewrite Hhandler. eexists _, _. split; [reflexivity|apply frame_refl].
  - specialize (Hwf f eq_refl). unfold well_formed_archive in Hwf.
    destruct (f_archive f) as [members|] eqn:Ea.
    + remember (filter (has_suffix ".LOG") (map m_name members))
        as log_files eqn:Hlf.
      assert (Hlogs : Forall (fun f => has_suffix ".LOG" f = true /\
                                       sanitize f = f) log_files).
      { apply Forall_forall. intros x Hx. rewrite Hlf in Hx.
        apply filter_In in Hx. destruct Hx as [Hx Hs]. split; [exact Hs|].
        apply in_map_iff in Hx. destruct Hx as (m & <- & Hm).
        rewrite forallb_forall in Hwf. specialize (Hwf m Hm).
        rewrite Hs in Hwf. now apply str_eqb_eq in Hwf. }
      destruct log_files as [|l0 ls].
      * cbn. eexists _, _. split; [reflexivity|apply frame_refl].
      * change (negb (truthy (l0 :: ls))) with false. cbv iota.
        cbv [print emit st_fs st_trace].
        destruct (extract_members members zip_path t (l0 :: ls) [] _)
          as [[l oe] st3] eqn:Ex.
        apply (extract_members_frame _ _ _ Hn) in Ex;
          [|exact Ht|exact Hlogs].
        destruct Ex as [Hf _]. cbn [st_fs] in Hf.
        destruct oe as [e|].
        -- rewrite Hhandler. eexists _, _. split; [reflexivity|exact Hf].
        -- eexists _, _. split; [reflexivity|exact Hf].
    + rewrite Hhandler. eexists _, _. split; [reflexivity|apply frame_refl].
  - rewrite Hhandler. eexists _, _. split; [reflexivity|apply frame_refl].
Qed.

Lemma extract_all_frame (t : str) :
  normal_dir t = true ->
  forall zip_files log_files st,
    FS.lookup (st_fs st) t = Some Dir ->
    (forall z, In z zip_files ->
               FS.below t z = false /\
               forall f, FS.lookup (st_fs st) z = Some (Reg f) ->
                         well_formed_archive f = true) ->
    exists l st',
      extract_all zip_files t log_files st = (Ok l, st') /\
      frame t (st_fs st) (st_fs st').
Proof.
  intro Hn.
  induction zip_files as [|z zs IH]; intros log_files st Ht Hz.
  - exists log_files, st. split; [reflexivity|apply frame_refl].
  - rewrite extract_all_cons. unfold bind at 1, print, emit.
    unfold bind at 1.
    destruct (extract_log_files_from_zip_frame z t
                (State (st_fs st)
                       (st_trace st ++
                        [Printed (MsgProcessingZip (Path.basename z))])) Hn Ht)
      as (l1 & st1 & -> & Hf1).
    { apply Hz. now left. }
    cbn [st_fs] in Hf1.
    destruct (IH (log_files ++ l1) st1) as (l2 & st2 & -> & Hf2).
    + rewrite Hf1; [exact Ht|apply below_self].
    + intros z' Hz'. destruct (Hz z' (or_intror Hz')) as [Hb Hw].
      split; [exact Hb|]. intros f Hf. apply Hw. now rewrite <- Hf1.
    + exists l2, st2. split; [reflexivity|].
      eapply frame_trans; eauto.
Qed.

Lemma files_with_suffix_are_files (fs : filesystem) (folder : str)
      (names : list str) (suffix : string) (p : str) :
  In p (files_with_suffix fs folder names suffix) -> FS.isfile fs p = true.
Proof.
  unfold files_with_suffix. intro H. apply in_map_iff in H.
  destruct H as (f & <- & Hf). apply filter_In in Hf.
  destruct Hf as [_ Hf]. now apply andb_true_iff in Hf.
Qed.

Lemma fresh_not_below (fs : filesystem) (t p : str) :
  fresh fs t = true -> FS.lookup fs p <> None ->
  str_eqb p t = false /\ FS.below t p = false.
Proof.
  intros Hf Hp.
  destruct (str_eqb p t || FS.below t p) eqn:E.
  - exfalso. apply Hp. now apply (fresh_lookup fs t p).
  - now apply orb_false_iff in E.
Qed.

Lemma finally_block_removes (t : str) (fs1 : filesystem)
      (tr1 : list event) :
  truthy t = true -> FS.lookup fs1 t = Some Dir ->
  finally_block (Some t) (State fs1 tr1)
  = (Ok tt, State (FS.without_tree fs1 t)
                  (tr1 ++ [Rmtree t; Printed (MsgRemovedTemp t)])).
Proof.
  intros Ht Hd.
  cbv [finally_block bind path_exists get_fs ret st_fs].
  unfold FS.exists_. rewrite Hd, Ht. cbn [is_some andb].
  cbv [rmtree bind get_fs put_fs emit print st_fs st_trace].
  unfold FS.isdir. rewrite Hd. now rewrite <- app_assoc.
Qed.

(** X17.  The run leaves the folder as it found it.  When the
    temporary directory is a new one and the [.LOG] members of the
    containers have names in normal form, [process_all_log_files]
    ends, however it ends, with every path other than the two report
    paths being what it was at the start: no log file and no container
    is changed, and nothing of the extraction stays behind. *)
Theorem run_changes_only_the_reports
        (folder : str) (keywords : list str) (output_txt output_html : str)
        (hw : option (dict Colors)) (process_zips : bool)
        (tmp : option str) (fs : filesystem) (tr : list event)
        (Htmp : forall t, tmp = Some t ->
                          normal_dir t = true /\ fresh fs t = true)
        (Hwf : forall z f,
            In z (discovered_zips fs folder process_zips) ->
            FS.lookup fs z = Some (Reg f) ->
            well_formed_archive f = true) :
  forall q, q <> output_txt -> q <> output_html ->
    FS.lookup
      (st_fs (snd (process_all_log_files folder keywords output_txt
                     output_html hw process_zips tmp (State fs tr)))) q
    = FS.lookup fs q.
Proof.
  intros q Hq1 Hq2.
  destruct (FS.isdir fs folder) eqn:Hdir.
  2:{ destruct (run_without_listing folder keywords output_txt output_html
                  hw process_zips tmp fs tr Hdir) as (e & ->).
      reflexivity. }
  rewrite (run_unfold folder keywords output_txt output_html hw process_zips
                      tmp fs tr Hdir).
  destruct (discovered_zips fs folder process_zips) as [|z0 zs] eqn:Ez.
  - destruct (discovered_logs fs folder) as [|l0 ls] eqn:El;
      [reflexivity|].
    change (negb (truthy (l0 :: ls)) && negb (truthy (@nil str)))
      with false.
    cbv iota zeta. unfold try_block.
    change (truthy (@nil str)) with false. cbv iota.
    rewrite scan_all_result. cbn [finally_block ret].
    match goal with
    | |- context [write_reports ?r ?a ?x ?y ?h ?s] =>
        destruct (write_reports_spec r a x y h s)
          as (st' & post & -> & _ & _ & _ & Hframe)
    end.
    cbn [snd]. now rewrite Hframe.
  - rewrite andb_false_r. cbv iota zeta. unfold try_block.
    change (truthy (z0 :: zs)) with true. cbv iota.
    destruct tmp as [t|]; [|reflexivity].
    destruct (Htmp t eq_refl) as [Hn Hfresh].
    cbv [mkdtemp bind get_fs put_fs emit ret print st_fs st_trace].
    destruct (extract_all_frame t Hn (z0 :: zs) (discovered_logs fs folder)
                (State (FS.set fs t Dir)
                       (((tr ++ [found_message fs folder process_zips])
                           ++ [Mkdtemp t]) ++ [Printed (MsgCreatedTemp t)])))
      as (l & st1 & Ex & Hf).
    { cbn [st_fs]. now rewrite lookup_set, str_eqb_refl. }
    { intros z Hz.
      assert (Hfile : FS.isfile fs z = true).
      { rewrite <- Ez in Hz. unfold discovered_zips in Hz.
        destruct process_zips; [|destruct Hz].
        now apply files_with_suffix_are_files in Hz. }
      assert (Hsome : FS.lookup fs z <> None).
      { unfold FS.isfile in Hfile. destruct (FS.lookup fs z); congruence. }
      destruct (fresh_not_below fs t z Hfresh Hsome) as [Hzt Hb].
      split; [exact Hb|]. cbn [st_fs]. intros f Hlook.
      rewrite lookup_set, str_eqb_sym, Hzt in Hlook.
      now apply (Hwf z f). }
    rewrite Ex. destruct st1 as [fs1 tr1]. cbn [st_fs] in Hf.
    rewrite scan_all_result.
    assert (Ht1 : FS.lookup fs1 t = Some Dir).
    { rewrite Hf by apply below_self. now rewrite lookup_set, str_eqb_refl. }
    assert (Htruthy : truthy t = true).
    { unfold normal_dir in Hn. now apply andb_true_iff in Hn. }
    rewrite (finally_block_removes t _ _ Htruthy Ht1).
    match goal with
    | |- context [write_reports ?r ?a ?x ?y ?h ?s] =>
        destruct (write_reports_spec r a x y h s)
          as (st' & post & -> & _ & _ & _ & Hframe)
    end.
    cbn [snd]. rewrite Hframe by assumption. cbn [st_fs].
    rewrite lookup_without_tree.
    destruct (str_eqb q t || FS.below t q) eqn:E.
    + symmetry. now apply (fresh_lookup fs t q).
    + apply orb_false_iff in E. destruct E as [E1 E2].
      rewrite Hf by exact E2. rewrite lookup_set, str_eqb_sym, E1.
      reflexivity.
Qed.

Lemma run_changes_only_the_reports_witness :
  FS.lookup (st_fs (snd (sample_run default_keywords))) (txt "/logs/app.LOG")
  = FS.lookup sample_folder (txt "/logs/app.LOG") /\
  FS.lookup (st_fs (snd (sample_run default_keywords)))
            (txt "/logs/bundle.zip")
  = FS.lookup sample_folder (txt "/logs/bundle.zip") /\
  FS.lookup (st_fs (snd (sample_run default_keywords)))
            (txt "/tmp/scratch/x.LOG")
  = None.
Proof.
  assert (Htmp : forall t, Some (txt "/tmp/scratch") = Some t ->
                           normal_dir t = true /\
                           fresh sample_folder t = true).
  { intros t Ht. injection Ht as <-. split; reflexivity. }
  assert (Hwf : forall z f,
             In z (discovered_zips sample_folder (txt "/logs") true) ->
             FS.lookup sample_folder z = Some (Reg f) ->
             well_formed_archive f = true).
  { intros z f Hz Hl. vm_compute in Hz.
    destruct Hz as [<-|[<-|[<-|[]]]]; vm_compute in Hl;
      injection Hl as <-; reflexivity. }
  pose proof (run_changes_only_the_reports
                (txt "/logs") default_keywords (txt "out.txt")
                (txt "out.html") (Some default_highlight) true
                (Some (txt "/tmp/scratch")) sample_folder [] Htmp Hwf)
    as Hframe.
  split; [|split].
  - apply (Hframe (txt "/logs/app.LOG")); discriminate.
  - apply (Hframe (txt "/logs/bundle.zip")); discriminate.
  - apply (Hframe (txt "/tmp/scratch/x.LOG")); discriminate.
Defined.

(** X18.  A member stored without a directory part is extracted in
    place: the extractor returns the path of the extracted file itself,
    and neither looks for a file that is there already nor renames
    anything.  A file of that name in the temporary directory, as the
    member of an earlier container leaves it, is replaced. *)
Theorem top_level_member_is_extracted_in_place
        (members : list member) (zip_path t name data : str) (m : member)
        (fs : filesystem) (tr : list event)
        (Hnormal : normal_dir t = true)
        (Hdir : FS.lookup fs t = Some Dir)
        (Hplain : has_char slash name = false)
        (Hsan : sanitize name = name) (Hname : name <> [])
        (Hget : getinfo members name = Some m)
        (Hdata : m_data m = Some data)
        (Hnodir : FS.isdir fs (Path.join t name) = false) :
  extract_member members zip_path t name (State fs tr)
  = (Ok (Path.join t name),
     State (FS.set fs (Path.join t name) (Reg (text_file data))) tr) /\
  FS.lookup (FS.set fs (Path.join t name) (Reg (text_file data)))
            (Path.join t name)
  = Some (Reg (text_file data)).
Proof.
  split; [|now rewrite lookup_set, str_eqb_refl].
  unfold extract_member, bind at 1.
  assert (Hx : zip_extract members name t (State fs tr)
               = (Ok tt, State (FS.set fs (Path.join t name)
                                       (Reg (text_file data))) tr)).
  { unfold zip_extract. rewrite Hget.
    cbv [bind get_fs put_fs raise st_fs st_trace]. rewrite Hsan.
    rewrite parents_join
      by (exact Hnormal || now apply no_slash_not_absolute).
    rewrite parents_from_plain by exact Hplain.
    cbn [app makedirs]. rewrite Hdir, Hdata, Hnodir.
    destruct name; [congruence|reflexivity]. }
  rewrite Hx. rewrite dirname_no_slash by exact Hplain. reflexivity.
Qed.

Lemma top_level_member_is_extracted_in_place_witness :
  extract_member [Member (txt "app.LOG") (Some (txt "from the second"))]
                 (txt "/logs/second.zip") (txt "/tmp/scratch")
                 (txt "app.LOG") (State used_scratch [])
  = (Ok (txt "/tmp/scratch/app.LOG"),
     State [ (txt "/tmp/scratch", Dir);
             (txt "/tmp/scratch/app.LOG",
              Reg (text_file (txt "from the second"))) ] []).
Proof.
  apply (top_level_member_is_extracted_in_place
           [Member (txt "app.LOG") (Some (txt "from the second"))]
           (txt "/logs/second.zip") (txt "/tmp/scratch") (txt "app.LOG")
           (txt "from the second")
           (Member (txt "app.LOG") (Some (txt "from the second")))
           used_scratch []);
    try reflexivity; discriminate.
Defined.

Lemma absolute_has_dirname (name : str) :
  startswith [slash] name = true -> truthy (Path.dirname name) = true.
Proof.
  intro H. destruct (Path.dirname name) eqn:E; [|reflexivity].
  apply dirname_nil_no_slash in E.
  destruct name as [|c name]; [discriminate H|].
  simpl in H, E. rewrite andb_true_r in H.
  apply orb_false_iff in E. destruct E as [E _]. congruence.
Qed.

(** X19.  A member stored under an absolute name reaches a file outside
    the temporary directory.  [extract] puts the member below the
    temporary directory, but [os.path.join] of the directory and an
    absolute name is that name, so the path the extractor then moves is
    the path the name denotes: when its step for such a member
    succeeds, the file that was at that path is gone from there and
    lies below the temporary directory, which the run removes at its
    end. *)
Theorem absolute_member_name_takes_the_file_away
        (members : list member) (zip_path t name p : str)
        (st st' : state)
        (Hnormal : normal_dir t = true)
        (Hdir : FS.lookup (st_fs st) t = Some Dir)
        (Habs : startswith [slash] name = true)
        (Hlog : has_suffix ".LOG" name = true)
        (Hout : FS.below t name = false)
        (Hok : extract_member members zip_path t name st = (Ok p, st')) :
  exists f dst,
    FS.lookup (st_fs st) name = Some (Reg f) /\
    FS.lookup (st_fs st') name = None /\
    FS.below t dst = true /\
    FS.lookup (st_fs st') dst = Some (Reg f).
Proof.
  revert Hok. unfold extract_member, bind at 1.
  destruct (zip_extract members name t st) as [[[]|e] st1] eqn:Hx;
    [|discriminate].
  apply (zip_extract_frame _ _ _ _ _ _ Hnormal Hdir) in Hx.
  destruct Hx as [Hf _].
  rewrite (absolute_has_dirname name Habs).
  assert (Hjoin : Path.join t name = name)
    by (unfold Path.join; now rewrite Habs).
  rewrite Hjoin. cbv [bind path_exists get_fs ret].
  set (new_path := if FS.exists_ (st_fs st1) _ then _ else _).
  assert (Hnew : FS.below t new_path = true)
    by (subst new_path; now apply new_path_below).
  destruct st1 as [fs1 tr1]. cbn [st_fs] in *.
  cbv [shutil_move bind get_fs put_fs raise st_fs st_trace].
  set (real_dst := if FS.isdir fs1 new_path
                   then Path.join new_path (Path.basename name)
                   else new_path).
  assert (Hr : FS.below t real_dst = true).
  { subst real_dst. destruct (FS.isdir fs1 new_path); [|exact Hnew].
    apply below_join_under; [exact Hnew|].
    apply no_slash_not_absolute, basename_no_slash. }
  destruct (FS.isdir fs1 new_path && FS.exists_ fs1 real_dst);
    [discriminate|].
  destruct (FS.lookup fs1 name) as [[|f]|] eqn:El; try discriminate.
  intro H. injection H as _ <-. cbn [st_fs].
  exists f, real_dst. split; [|split; [|split]].
  - rewrite <- El. symmetry. exact (Hf name Hout).
  - rewrite lookup_set, lookup_remove, str_eqb_refl.
    destruct (str_eqb real_dst name) eqn:E; [|reflexivity].
    apply str_eqb_eq in E. congruence.
  - exact Hr.
  - now rewrite lookup_set, str_eqb_refl.
Qed.

Lemma absolute_member_name_takes_the_file_away_witness :
  exists f dst,
    FS.lookup outside_log (txt "/var/log/x.LOG") = Some (Reg f) /\
    FS.lookup
      (st_fs (snd (extract_member
                     [Member (txt "/var/log/x.LOG") (Some (txt "bait"))]
                     (txt "/logs/evil.zip") (txt "/tmp/scratch")
                     (txt "/var/log/x.LOG") (State outside_log []))))
      (txt "/var/log/x.LOG") = None /\
    FS.below (txt "/tmp/scratch") dst = true /\
    FS.lookup
      (st_fs (snd (extract_member
                     [Member (txt "/var/log/x.LOG") (Some (txt "bait"))]
                     (txt "/logs/evil.zip") (txt "/tmp/scratch")
                     (txt "/var/log/x.LOG") (State outside_log []))))
      dst = Some (Reg f).
Proof.
  apply (absolute_member_name_takes_the_file_away
           [Member (txt "/var/log/x.LOG") (Some (txt "bait"))]
           (txt "/logs/evil.zip") (txt "/tmp/scratch")
           (txt "/var/log/x.LOG") (txt "/tmp/scratch/x.LOG")
           (State outside_log []));
    reflexivity.
Defined.

(* ================================================================= *)
(** ** The first run of [main] *)

Lemma call_silent {A} (c : M A) (ms : main_state) (a : A) :
  c (State (ms_fs ms) []) = (Ok a, State (ms_fs ms) []) ->
  call c ms = (Ok a, ms).
Proof.
  intro H. unfold call. rewrite H. cbn [st_fs st_trace map].
  rewrite app_nil_r. destruct ms; reflexivity.
Qed.

Lemma call_path_exists (p : str) (ms : main_state) :
  call (path_exists p) ms = (Ok (FS.exists_ (ms_fs ms) p), ms).
Proof. now apply call_silent. Qed.

Lemma load_config_missing (p : str) (fs : filesystem) (tr : list event) :
  FS.exists_ fs p = false ->
  load_config p (State fs tr)
  = (Ok (default_keywords, default_highlight), State fs tr).
Proof.
  intro H. unfold load_config, bind, path_exists, bind, get_fs, ret.
  cbn [st_fs]. rewrite H. now rewrite orb_true_r.
Qed.

(** X20.  A first run leaves the configuration file for the next one.
    When the configuration path does not exist and can be created,
    [main] without [--create-config] announces that, writes the
    default document there, and then goes on exactly as a run that
    finds this file does: the keywords and the highlight mapping it
    works with are the ones any later run will load. *)
Theorem first_run_creates_the_config_and_goes_on
        (a : args) (tmp : option str) (ms : main_state)
        (Hflag : arg_create_config a = false)
        (Hmissing : FS.exists_ (ms_fs ms) (arg_config a) = false)
        (Hcreatable : creatable (ms_fs ms) (arg_config a) = true) :
  main a tmp ms
  = main a tmp
      (MainState
         (FS.set (ms_fs ms) (arg_config a) (Reg default_config_file))
         (ms_trace ms ++ [Said (MsgConfigNotFound (arg_config a));
                          Said (MsgConfigCreated (arg_config a))])).
Proof.
  unfold main. rewrite Hflag.
  unfold main_bind at 1.
  rewrite (call_silent _ ms (default_keywords, default_highlight))
    by now apply load_config_missing.
  unfold main_bind at 1. rewrite call_path_exists, Hmissing.
  cbn [negb]. unfold main_bind at 1. unfold main_bind at 1.
  unfold say at 1. rewrite create_default_config_spec.
  cbn [ms_fs ms_trace]. rewrite Hcreatable. rewrite <- app_assoc.
  cbn [app].
  symmetry. unfold main_bind at 1.
  assert (Hne : arg_config a <> []).
  { unfold creatable in Hcreatable. intro H. rewrite H in Hcreatable.
    discriminate Hcreatable. }
  rewrite (call_silent _ _ (default_keywords, default_highlight)).
  2:{ cbn [ms_fs].
      rewrite (load_config_reads _ [] (arg_config a) default_config_file
                 default_config Hne);
        [reflexivity| |reflexivity].
      now rewrite lookup_set, str_eqb_refl. }
  unfold main_bind at 1. rewrite call_path_exists. cbn [ms_fs].
  unfold FS.exists_ at 1. rewrite lookup_set, str_eqb_refl.
  cbn [is_some negb]. unfold main_bind at 1. unfold main_ret at 1.
  reflexivity.
Qed.

Lemma first_run_creates_the_config_and_goes_on_witness :
  main (Args (txt "/logs") (txt "/out/r") (txt "/out/conf.json")
             false true) None (MainState two_plain_logs [])
  = main (Args (txt "/logs") (txt "/out/r") (txt "/out/conf.json")
               false true) None
      (MainState
         (FS.set two_plain_logs (txt "/out/conf.json")
                 (Reg default_config_file))
         [Said (MsgConfigNotFound (txt "/out/conf.json"));
          Said (MsgConfigCreated (txt "/out/conf.json"))]).
Proof.
  apply (first_run_creates_the_config_and_goes_on
           (Args (txt "/logs") (txt "/out/r") (txt "/out/conf.json")
                 false true) None (MainState two_plain_logs []));
    reflexivity.
Defined.

(* ================================================================= *)
(** ** More on the terms of the Highlighter *)

Lemma lower_char_space (c : ascii) :
  Ascii.eqb " " (lower_char c) = Ascii.eqb " " c.
Proof. each_char c. Qed.

Lemma has_space_lower (word : str) :
  has_char " " (lower word) = has_char " " word.
Proof.
  induction word as [|c word IH]; simpl; [reflexivity|].
  now rewrite lower_char_space, IH.
Qed.

Lemma lower_is_word (word k : str) :
  has_char " " k = false -> str_eqb (lower word) k = true ->
  has_char " " word = false.
Proof.
  intros Hk H. apply str_eqb_eq in H.
  now rewrite <- has_space_lower, H.
Qed.

(** X21.  The test [" " not in word] of the Highlighter never decides
    anything: a term whose lower-case form is [match] or [mismatch]
    holds no space.  The terms matched between word boundaries are
    exactly those two words in any case, and they are the terms
    styled [match] and [mismatch] in the structured report. *)
Theorem boundary_terms_are_match_and_mismatch (word : str) :
  wants_boundaries word
  = (str_eqb (lower word) (txt "match")
     || str_eqb (lower word) (txt "mismatch")) /\
  (str_eqb (lower word) (txt "match") = true ->
   has_char " " word = false /\ css_class word = txt "match") /\
  (str_eqb (lower word) (txt "mismatch") = true ->
   has_char " " word = false /\ css_class word = txt "mismatch") /\
  (wants_boundaries word = false ->
   css_class word = txt "configuration" \/ css_class word = txt "highlight").
Proof.
  unfold wants_boundaries, css_class.
  destruct (str_eqb (lower word) (txt "match")) eqn:E1.
  - pose proof (lower_is_word word (txt "match") eq_refl E1) as Hs.
    rewrite Hs. apply str_eqb_eq in E1. rewrite E1.
    repeat split; try reflexivity; discriminate.
  - destruct (str_eqb (lower word) (txt "mismatch")) eqn:E2.
    + pose proof (lower_is_word word (txt "mismatch") eq_refl E2) as Hs.
      rewrite Hs. repeat split; try reflexivity; discriminate.
    + cbn [orb andb]. repeat split; try discriminate.
      intros _.
      destruct (contains (txt "configuration") (lower word)); auto.
Qed.

Lemma boundary_terms_are_match_and_mismatch_witness :
  wants_boundaries (txt "MisMatch") = true /\
  css_class (txt "MisMatch") = txt "mismatch" /\
  wants_boundaries (txt "no match") = false /\
  css_class (txt "no match") = txt "highlight".
Proof.
  destruct (boundary_terms_are_match_and_mismatch (txt "MisMatch"))
    as (H1 & _ & H2 & _).
  destruct (boundary_terms_are_match_and_mismatch (txt "no match"))
    as (H3 & _ & _ & H4).
  split; [rewrite H1; reflexivity|].
  split; [apply H2; reflexivity|].
  split; [rewrite H3; reflexivity|].
  destruct (H4 ltac:(rewrite H3; reflexivity)) as [H|H];
    [discriminate H|exact H].
Defined.

Lemma apply_terms_absent (html_mode : bool) (base : str) :
  forall items,
    Forall (fun item => term_occurs (fst item) base = false) items ->
    apply_terms items html_mode base = Some base.
Proof.
  induction items as [|[word color] rest IH]; intro H; [reflexivity|].
  inversion H as [|? ? Hw Hrest]; subst. cbn [apply_terms].
  unfold term_occurs in Hw. cbn [fst] in Hw.
  destruct (word_pattern word) as [p|] eqn:Ep.
  - assert (Hs : Re.search p base = None)
      by (destruct (Re.search p base); [discriminate Hw|reflexivity]).
    rewrite !(sub_no_match p _ base Hs).
    destruct html_mode; now apply IH.
  - rewrite word_pattern_ok in Ep. discriminate Ep.
Qed.

(** X22.  Terms that do not occur change nothing, however many they
    are.  When no term of the specification occurs in the line, in
    HTML mode in the escaped line, [highlight_text] returns that line
    as it is: the line itself in console mode, the escaped line in
    HTML mode. *)
Theorem absent_terms_change_nothing
        (text : str) (items : dict Colors) (html_mode : bool)
        (Habsent : forall word color,
            In (word, color) items ->
            term_occurs word (base_text text html_mode) = false) :
  highlight_text text (Some items) html_mode
  = Some (if truthy items then base_text text html_mode else text).
Proof.
  unfold highlight_text. destruct (truthy items) eqn:Et; [|reflexivity].
  cbn [negb]. fold (base_text text html_mode).
  apply apply_terms_absent. apply Forall_forall.
  intros [word color] Hin. cbn [fst]. apply (Habsent word color).
  destruct (terms_order_perm items) as [Hp _].
  now apply (Permutation_in _ Hp).
Qed.

Lemma absent_terms_change_nothing_witness :
  highlight_text (txt "disk <ok>") (Some default_highlight) true
  = Some (txt "disk &lt;ok&gt;") /\
  highlight_text (txt "disk <ok>") (Some default_highlight) false
  = Some (txt "disk <ok>").
Proof.
  split.
  - apply (absent_terms_change_nothing (txt "disk <ok>") default_highlight
             true).
    intros word color Hin.
    destruct Hin as [H|[H|[H|[]]]]; injection H as <- _; reflexivity.
  - apply (absent_terms_change_nothing (txt "disk <ok>") default_highlight
             false).
    intros word color Hin.
    destruct Hin as [H|[H|[H|[]]]]; injection H as <- _; reflexivity.
Defined.

(* ================================================================= *)
(** ** Highlighting only adds *)

Lemma embeds_nil_l (y : str) : embeds [] y.
Proof.
  induction y; [apply embeds_nil|apply embeds_skip; assumption].
Qed.

Lemma embeds_refl (x : str) : embeds x x.
Proof.
  induction x; [apply embeds_nil|apply embeds_keep; assumption].
Qed.

Lemma embeds_app (x x' y y' : str) :
  embeds x x' -> embeds y y' -> embeds (x ++ y) (x' ++ y').
Proof.
  intros H Hy. induction H; simpl.
  - exact Hy.
  - now apply embeds_skip.
  - now apply embeds_keep.
Qed.

Lemma embeds_trans (x y z : str) : embeds x y -> embeds y z -> embeds x z.
Proof.
  intros Hxy Hyz. revert x Hxy.
  induction Hyz as [|y z c Hyz IH|y z c Hyz IH]; intros x Hxy.
  - exact Hxy.
  - apply embeds_skip. now apply IH.
  - inversion Hxy; subst.
    + apply embeds_skip. now apply IH.
    + apply embeds_keep. now apply IH.
Qed.

Lemma embeds_wrap (pre m post : str) : embeds m (pre ++ m ++ post).
Proof.
  change m with ([] ++ m) at 1. apply embeds_app; [apply embeds_nil_l|].
  rewrite <- (app_nil_r m) at 1.
  apply embeds_app; [apply embeds_refl|apply embeds_nil_l].
Qed.

Lemma sub_from_embeds (p : Re.pattern) (repl : str -> str) :
  (forall m, embeds m (repl m)) ->
  forall x prev skip,
    embeds (skipn skip x) (Re.sub_from p repl prev skip x).
Proof.
  intro Hrepl. induction x as [|c x IH]; intros prev skip.
  - destruct skip; simpl; [|apply embeds_nil].
    destruct (Re.matches_at p prev []) as [[|k]|];
      try apply embeds_nil; rewrite app_nil_r; apply embeds_nil_l.
  - destruct skip as [|skip]; [|apply IH].
    cbn [skipn Re.sub_from].
    destruct (Re.matches_at p prev (c :: x)) as [[|k]|].
    + change (c :: x) with ([] ++ c :: x) at 1.
      apply embeds_app; [apply embeds_nil_l|].
      apply embeds_keep. apply (IH (Some c) 0).
    + rewrite <- (firstn_skipn (S k) (c :: x)) at 1.
      apply embeds_app; [apply Hrepl|]. apply (IH (Some c) k).
    + apply embeds_keep. apply (IH (Some c) 0).
Qed.

Lemma sub_embeds (p : Re.pattern) (repl : str -> str) (x : str) :
  (forall m, embeds m (repl m)) -> embeds x (Re.sub p repl x).
Proof. intro H. apply (sub_from_embeds p repl H x None 0). Qed.

Lemma apply_terms_embeds (html_mode : bool) :
  forall items base,
  exists result,
    apply_terms items html_mode base = Some result /\ embeds base result.
Proof.
  induction items as [|[word color] rest IH]; intro base; cbn [apply_terms].
  - exists base. split; [reflexivity|apply embeds_refl].
  - rewrite word_pattern_ok.
    match goal with
    | |- context [apply_terms rest html_mode ?b] =>
        destruct (IH b) as (r & Hr & He)
    end.
    exists r. split; [exact Hr|].
    eapply embeds_trans; [|exact He].
    destruct html_mode; apply sub_embeds; intro m.
    + unfold span.
      replace (txt "<span class=" ++ dquote :: css_class word ++
               dquote :: txt ">" ++ m ++ txt "</span>")
        with ((txt "<span class=" ++ dquote :: css_class word ++
               dquote :: txt ">") ++ m ++ txt "</span>")
        by (rewrite <- !app_assoc; cbn [app]; rewrite <- !app_assoc;
            reflexivity).
      apply embeds_wrap.
    + apply embeds_wrap.
Qed.

(** X23.  Highlighting only adds.  Every character of the line, in
    HTML mode of the escaped line, is in the highlighted line, in the
    same order: terms are wrapped where they occur, and nothing is
    removed, replaced or moved, whatever the specification. *)
Theorem highlighting_keeps_every_character
        (text : str) (highlight_words : option (dict Colors))
        (html_mode : bool) :
  exists result,
    highlight_text text highlight_words html_mode = Some result /\
    embeds (if in_force highlight_words
            then base_text text html_mode else text) result /\
    length (if in_force highlight_words
            then base_text text html_mode else text) <= length result.
Proof.
  assert (Hlen : forall x y, embeds x y -> length x <= length y).
  { intros x y H. induction H; simpl; lia. }
  unfold highlight_text, in_force.
  destruct highlight_words as [items|].
  - destruct (truthy items); cbn [negb].
    + destruct (apply_terms_embeds html_mode (sorted_by_length items)
                  (base_text text html_mode)) as (r & Hr & He).
      exists r. split; [exact Hr|]. split; [exact He|now apply Hlen].
    + exists text. split; [reflexivity|].
      split; [apply embeds_refl|apply Nat.le_refl].
  - exists text. split; [reflexivity|].
    split; [apply embeds_refl|apply Nat.le_refl].
Qed.

(* ================================================================= *)
(** ** A run without keywords *)

Lemma filter_lines_no_keywords (name : str) : forall lines start,
  filter_lines name [] start lines = [].
Proof. induction lines as [|l lines IH]; intro start; simpl; auto. Qed.

Lemma file_matches_no_keywords (fs : filesystem) (p : str) :
  file_matches fs [] p = [].
Proof.
  unfold file_matches. destruct (FS.lookup fs p) as [[|f]|]; auto.
  apply filter_lines_no_keywords.
Qed.

Lemma record_no_keywords (fs : filesystem) : forall files results,
  fold_left (record fs []) files results = results.
Proof.
  induction files as [|p rest IH]; intro results; [reflexivity|].
  cbn [fold_left]. rewrite IH. unfold record.
  now rewrite file_matches_no_keywords.
Qed.

Lemma matches_no_keywords (fs : filesystem) (files : list str) :
  flat_map (file_matches fs []) files = [].
Proof.
  induction files as [|p rest IH]; [reflexivity|].
  cbn [flat_map]. now rewrite file_matches_no_keywords.
Qed.

Lemma scan_no_keywords (fs : filesystem) (hw : option (dict Colors)) :
  forall files tr,
  exists new,
    scan_all files [] hw [] [] (State fs tr)
    = (Ok ([], []), State fs (tr ++ new)) /\
    forallb is_print new = true /\
    (forall l, In l files ->
               In (Printed (MsgNoMatches (Path.basename l))) new).
Proof.
  intros files tr. rewrite scan_all_result.
  exists (scan_events fs [] files). split; [|split].
  - now rewrite record_no_keywords, matches_no_keywords.
  - induction files as [|p rest IH]; [reflexivity|]. exact IH.
  - intros l Hl. unfold scan_events. apply in_flat_map. exists l.
    split; [exact Hl|]. right. left. unfold count_message.
    now rewrite file_matches_no_keywords.
Qed.

(** X24.  A run with an empty keyword list finds nothing and writes
    nothing.  Where the folder can be listed and a temporary directory
    can be had, [process_all_log_files] still reads every log file of
    the folder, reports no matches for each, returns the empty mapping
    and writes no report. *)
Theorem no_keywords_no_reports
        (folder output_txt output_html : str)
        (hw : option (dict Colors)) (process_zips : bool)
        (tmp : option str) (fs : filesystem) (tr : list event)
        (Hdir : FS.isdir fs folder = true)
        (Htmp : discovered_zips fs folder process_zips = [] \/ tmp <> None) :
  exists st' new,
    process_all_log_files folder [] output_txt output_html hw
                          process_zips tmp (State fs tr)
    = (Ok [], st') /\
    st_trace st' = tr ++ new /\
    forallb (fun e => negb (is_wrote e)) new = true /\
    (forall l, In l (discovered_logs fs folder) ->
               In (Printed (MsgNoMatches (Path.basename l))) new).
Proof.
  rewrite (run_unfold folder [] output_txt output_html hw process_zips
                      tmp fs tr Hdir).
  cbn [map].
  destruct (discovered_zips fs folder process_zips) as [|z0 zs] eqn:Ez.
  - destruct (discovered_logs fs folder) as [|l0 ls] eqn:El.
    + eexists _, _. split; [reflexivity|]. cbn [st_trace].
      split; [reflexivity|]. split; [reflexivity|]. intros l [].
    + change (negb (truthy (l0 :: ls)) && negb (truthy (@nil str)))
        with false.
      cbv iota zeta. unfold try_block.
      change (truthy (@nil str)) with false. cbv iota.
      destruct (scan_no_keywords fs hw (l0 :: ls)
                  (tr ++ [found_message fs folder process_zips]))
        as (new & -> & Hp & Hin).
      cbn [finally_block ret]. unfold write_reports.
      change (truthy (@nil Match)) with false. cbv iota. unfold ret.
      eexists _, _. split; [reflexivity|]. cbn [st_trace].
      split; [now rewrite <- app_assoc|]. split.
      * cbn [app forallb is_wrote negb andb].
        now apply prints_have_no_write.
      * intros l Hl. right. now apply Hin.
  - rewrite andb_false_r. cbv iota zeta. unfold try_block.
    change (truthy (z0 :: zs)) with true. cbv iota.
    destruct tmp as [t|]; [|destruct Htmp; congruence].
    cbv [mkdtemp bind get_fs put_fs emit ret print st_fs st_trace].
    destruct (extract_all_spec t (z0 :: zs) (discovered_logs fs folder)
                (State (FS.set fs t Dir)
                       (((tr ++ [found_message fs folder process_zips])
                           ++ [Mkdtemp t]) ++ [Printed (MsgCreatedTemp t)])))
      as (l & st1 & n1 & Ex & E1 & P1 & K1 & _).
    rewrite Ex. destruct st1 as [fs1 tr1]. cbn [st_fs st_trace] in *.
    destruct (scan_no_keywords fs1 hw (discovered_logs fs folder ++ l) tr1)
      as (n2 & -> & P2 & Hin).
    assert (Ht1 : FS.lookup fs1 t = Some Dir).
    { destruct K1 as [K1 _]. apply K1.
      now rewrite lookup_set, str_eqb_refl. }
    assert (Hfin : exists n3,
               finally_block (Some t) (State fs1 (tr1 ++ n2))
               = (Ok tt, State (if truthy t then FS.without_tree fs1 t
                                else fs1)
                               ((tr1 ++ n2) ++ n3)) /\
               forallb (fun e => negb (is_wrote e)) n3 = true).
    { destruct (truthy t) eqn:Et.
      - rewrite (finally_block_removes t _ _ Et Ht1).
        eexists. split; reflexivity.
      - exists []. rewrite app_nil_r. split; [|reflexivity].
        cbv [finally_block bind path_exists get_fs ret st_fs].
        now rewrite Et. }
    destruct Hfin as (n3 & -> & P3).
    unfold write_reports.
    change (truthy (@nil Match)) with false. cbv iota. unfold ret.
    eexists _, _. split; [reflexivity|]. cbn [st_trace].
    split; [rewrite E1, <- !app_assoc; reflexivity|]. split.
    + cbn [app forallb is_wrote negb andb].
      rewrite !forallb_app, P3.
      rewrite (prints_have_no_write n1 P1), (prints_have_no_write n2 P2).
      reflexivity.
    + intros x Hx.
      pose proof (Hin x (in_or_app _ _ _ (or_introl Hx))) as H0.
      cbn [In app]. rewrite ?in_app_iff. cbn [In]. tauto.
Qed.

Lemma no_keywords_no_reports_witness :
  exists st' new,
    process_all_log_files (txt "/logs") [] (txt "out.txt") (txt "out.html")
                          (Some default_highlight) true
                          (Some (txt "/tmp/scratch")) (State sample_folder [])
    = (Ok [], st') /\
    st_trace st' = new /\
    forallb (fun e => negb (is_wrote e)) new = true /\
    In (Printed (MsgNoMatches (txt "app.LOG"))) new.
Proof.
  destruct (no_keywords_no_reports
              (txt "/logs") (txt "out.txt") (txt "out.html")
              (Some default_highlight) true (Some (txt "/tmp/scratch"))
              sample_folder [] eq_refl)
    as (st' & new & H & Htr & Hw & Hin); [right; discriminate|].
  exists st', new. split; [exact H|]. split; [exact Htr|].
  split; [exact Hw|]. apply (Hin (txt "/logs/app.LOG")). now left.
Defined.

(* ================================================================= *)
(** ** Running again *)

Lemma plain_run_state
      (folder : str) (keywords : list str) (output_txt output_html : str)
      (hw : option (dict Colors)) (process_zips : bool)
      (tmp : option str) (fs : filesystem) (tr : list event) :
  FS.isdir fs folder = true ->
  discovered_zips fs folder process_zips = [] ->
  exists new,
    process_all_log_files folder keywords output_txt output_html hw
                          process_zips tmp (State fs tr)
    = (Ok (fold_left (record fs (map literal keywords))
                     (discovered_logs fs folder) []),
       State (after_reports fs output_txt output_html
                (flat_map (file_matches fs (map literal keywords))
                          (discovered_logs fs folder)) hw)
             (tr ++ new)).
Proof.
  intros Hdir Hzips.
  rewrite (run_unfold folder keywords output_txt output_html hw process_zips
                      tmp fs tr Hdir).
  rewrite Hzips.
  destruct (discovered_logs fs folder) as [|l0 ls] eqn:El.
  - eexists. reflexivity.
  - change (negb (truthy (l0 :: ls)) && negb (truthy (@nil str)))
      with false.
    cbv iota zeta. unfold try_block.
    change (truthy (@nil str)) with false. cbv iota.
    rewrite scan_all_result. cbn [app finally_block ret].
    unfold write_reports, after_reports.
    destruct (flat_map (file_matches fs (map literal keywords)) (l0 :: ls))
      as [|m l].
    + change (truthy (@nil Match)) with false. cbv iota. unfold ret.
      exists (found_message fs folder process_zips
              :: scan_events fs (map literal keywords) (l0 :: ls)).
      now rewrite <- app_assoc.
    + change (truthy (m :: l)) with true. cbv iota.
      unfold bind. rewrite save_results_as_text_spec.
      rewrite save_results_as_html_spec. cbv [ret st_fs st_trace].
      unfold after_write.
      eexists. rewrite <- !app_assoc. reflexivity.
Qed.

Lemma keys_set (fs : filesystem) (p : str) (n : node) :
  map fst (FS.set fs p n) = map fst fs \/
  map fst (FS.set fs p n) = map fst fs ++ [p].
Proof.
  induction fs as [|[q m] fs IH]; simpl; [now right|].
  destruct (str_eqb q p); simpl; [now left|].
  destruct IH as [-> | ->]; [now left|now right].
Qed.

Lemma names_in_keys (fs : filesystem) (d : str) :
  FS.names_in fs d = flat_map (FS.entry_name d) (map fst fs).
Proof.
  unfold FS.names_in. induction fs as [|e fs IH]; simpl; [reflexivity|].
  now rewrite IH.
Qed.

Lemma entry_name_suffix (d p x : str) :
  In x (FS.entry_name d p) -> exists pre, p = pre ++ x.
Proof.
  unfold FS.entry_name. destruct (FS.below d p); [|intros []].
  destruct (has_char slash _); [intros []|].
  intros [<-|[]]. eexists. symmetry. apply firstn_skipn.
Qed.

Lemma filter_none {A} (P : A -> bool) (l : list A) :
  (forall x, In x l -> P x = false) -> filter P l = [].
Proof.
  induction l as [|a l IH]; intro H; simpl; [reflexivity|].
  rewrite (H a (or_introl eq_refl)). apply IH. intros x Hx. apply H.
  now right.
Qed.

Lemma has_suffix_false_app (suffix : string) (pre x : str) :
  has_suffix suffix (pre ++ x) = false -> has_suffix suffix x = false.
Proof.
  intro H. destruct (has_suffix suffix x) eqn:E; [|reflexivity].
  now rewrite (has_suffix_app suffix pre x E) in H.
Qed.

Lemma isfile_set_other (fs : filesystem) (p q : str) (n : node) :
  q <> p -> FS.isfile (FS.set fs p n) q = FS.isfile fs q.
Proof.
  intro H. unfold FS.isfile. now rewrite lookup_set_other.
Qed.

(** A file written under a name without the suffix does not change what
    File Discovery finds. *)
Lemma discovery_after_set (suffix : string) (fs : filesystem)
      (folder p : str) (n : node) :
  has_suffix suffix p = false ->
  files_with_suffix (FS.set fs p n) folder
                    (FS.names_in (FS.set fs p n) folder) suffix
  = files_with_suffix fs folder (FS.names_in fs folder) suffix.
Proof.
  intro Hp. unfold files_with_suffix. f_equal.
  assert (Hcond : forall f,
             FS.isfile (FS.set fs p n) (Path.join folder f)
             && has_suffix suffix f
             = FS.isfile fs (Path.join folder f) && has_suffix suffix f).
  { intro f. destruct (has_suffix suffix f) eqn:E;
      [|now rewrite !andb_false_r].
    rewrite isfile_set_other; [reflexivity|].
    intro H. rewrite <- H in Hp.
    now rewrite (has_suffix_join suffix folder f E) in Hp. }
  rewrite !names_in_keys.
  destruct (keys_set fs p n) as [-> | ->].
  - apply filter_ext. exact Hcond.
  - rewrite flat_map_app, filter_app. cbn [flat_map].
    rewrite app_nil_r.
    rewrite (filter_none _ (FS.entry_name folder p)).
    + rewrite app_nil_r. apply filter_ext. exact Hcond.
    + intros x Hx. apply entry_name_suffix in Hx. destruct Hx as (pre & ->).
      rewrite (has_suffix_false_app suffix pre x Hp). apply andb_false_r.
Qed.

Lemma discovery_after_write (suffix : string) (fs : filesystem)
      (folder p content : str) :
  has_suffix suffix p = false ->
  files_with_suffix (after_write fs p content) folder
                    (FS.names_in (after_write fs p content) folder) suffix
  = files_with_suffix fs folder (FS.names_in fs folder) suffix.
Proof.
  intro H. unfold after_write. destruct (writable fs p); [|reflexivity].
  now apply discovery_after_set.
Qed.

Lemma isdir_after_write (fs : filesystem) (p content q : str) :
  FS.isdir (after_write fs p content) q = FS.isdir fs q.
Proof.
  unfold after_write. destruct (writable fs p) eqn:E; [|reflexivity].
  apply isdir_set_file. now apply writable_not_dir.
Qed.

Lemma lookup_after_write (fs : filesystem) (p content q : str) :
  FS.lookup (after_write fs p content) q =
  if str_eqb p q && writable fs p then Some (Reg (text_file content))
  else FS.lookup fs q.
Proof.
  unfold after_write. destruct (writable fs p).
  - rewrite lookup_set. now rewrite andb_true_r.
  - now rewrite andb_false_r.
Qed.

Lemma file_matches_after_write (fs : filesystem) (p content : str)
      (pats : list Re.pattern) (q : str) :
  has_suffix ".LOG" p = false -> has_suffix ".LOG" q = true ->
  file_matches (after_write fs p content) pats q = file_matches fs pats q.
Proof.
  intros Hp Hq. unfold file_matches. rewrite lookup_after_write.
  destruct (str_eqb p q) eqn:E; [|reflexivity].
  apply str_eqb_eq in E. congruence.
Qed.

Lemma txt_is_no_input (prefix : str) :
  has_suffix ".LOG" (prefix ++ txt ".txt") = false /\
  has_suffix ".ZIP" (prefix ++ txt ".txt") = false /\
  has_suffix ".LOG" (prefix ++ txt ".html") = false /\
  has_suffix ".ZIP" (prefix ++ txt ".html") = false.
Proof.
  unfold has_suffix, endswith.
  rewrite !upper_app, !rev_app_distr. repeat split; reflexivity.
Qed.

Lemma fold_left_record_ext (fs fs' : filesystem) (pats : list Re.pattern) :
  forall files results,
    (forall q, In q files ->
               file_matches fs' pats q = file_matches fs pats q) ->
    fold_left (record fs' pats) files results
    = fold_left (record fs pats) files results.
Proof.
  induction files as [|q rest IH]; intros results H; [reflexivity|].
  cbn [fold_left]. rewrite IH by (intros q' Hq'; apply H; now right).
  unfold record. now rewrite (H q (or_introl eq_refl)).
Qed.

Lemma flat_map_matches_ext (fs fs' : filesystem) (pats : list Re.pattern)
      (files : list str) :
  (forall q, In q files ->
             file_matches fs' pats q = file_matches fs pats q) ->
  flat_map (file_matches fs' pats) files
  = flat_map (file_matches fs pats) files.
Proof.
  induction files as [|q rest IH]; intro H; [reflexivity|].
  cbn [flat_map]. rewrite (H q (or_introl eq_refl)).
  now rewrite IH by (intros q' Hq'; apply H; now right).
Qed.

(** X25.  Running again changes nothing.  The reports, written to
    [prefix.txt] and [prefix.html] as [main] names them, are never
    taken for log files or containers, also when they lie in the
    scanned folder.  After a run over a folder without containers, a
    second run with the same arguments finds the same files, returns
    the same mapping and leaves every path, the reports included, as
    the first run left it. *)
Theorem second_run_changes_nothing
        (folder : str) (keywords : list str) (output_prefix : str)
        (hw : option (dict Colors)) (process_zips : bool)
        (tmp : option str) (fs : filesystem) (tr tr' : list event)
        (Hdir : FS.isdir fs folder = true)
        (Hzips : discovered_zips fs folder process_zips = []) :
  let output_txt := output_prefix ++ txt ".txt" in
  let output_html := output_prefix ++ txt ".html" in
  let first := process_all_log_files folder keywords output_txt output_html
                 hw process_zips tmp (State fs tr) in
  let second := process_all_log_files folder keywords output_txt output_html
                  hw process_zips tmp (State (st_fs (snd first)) tr') in
  discovered_logs (st_fs (snd first)) folder = discovered_logs fs folder /\
  discovered_zips (st_fs (snd first)) folder process_zips = [] /\
  fst second = fst first /\
  (forall q, FS.lookup (st_fs (snd second)) q
             = FS.lookup (st_fs (snd first)) q).
Proof.
  intros output_txt output_html first second.
  destruct (txt_is_no_input output_prefix) as (Ht1 & Ht2 & Hh1 & Hh2).
  fold output_txt in Ht1, Ht2. fold output_html in Hh1, Hh2.
  set (pats := map literal keywords).
  set (logs := discovered_logs fs folder).
  set (all := flat_map (file_matches fs pats) logs).
  set (fs1 := after_reports fs output_txt output_html all hw).
  destruct (plain_run_state folder keywords output_txt output_html hw
              process_zips tmp fs tr Hdir Hzips) as (new & Hfirst).
  fold pats logs all fs1 in Hfirst.
  assert (Hsnd : snd first = State fs1 (tr ++ new))
    by (subst first; now rewrite Hfirst).
  assert (Hfst : fst first = Ok (fold_left (record fs pats) logs []))
    by (subst first; now rewrite Hfirst).
  rewrite Hfst. subst second. rewrite Hsnd. cbn [st_fs].
  assert (Hlogs1 : discovered_logs fs1 folder = logs).
  { subst fs1. unfold after_reports, discovered_logs.
    destruct (truthy all); [|reflexivity].
    now rewrite !discovery_after_write. }
  assert (Hzips1 : discovered_zips fs1 folder process_zips = []).
  { rewrite <- Hzips. subst fs1. unfold after_reports, discovered_zips.
    destruct process_zips; [|reflexivity].
    destruct (truthy all); [|reflexivity].
    now rewrite !discovery_after_write. }
  assert (Hdir1 : FS.isdir fs1 folder = true).
  { subst fs1. unfold after_reports.
    destruct (truthy all); [|exact Hdir].
    now rewrite !isdir_after_write. }
  assert (Hsame : forall q, In q logs ->
                            file_matches fs1 pats q = file_matches fs pats q).
  { intros q Hq. apply in_files_with_suffix in Hq.
    subst fs1. unfold after_reports.
    destruct (truthy all); [|reflexivity].
    now rewrite !file_matches_after_write. }
  destruct (plain_run_state folder keywords output_txt output_html hw
              process_zips tmp fs1 tr' Hdir1 Hzips1) as (new' & Hsecond).
  fold pats in Hsecond. rewrite Hlogs1 in Hsecond.
  rewrite (fold_left_record_ext fs fs1 pats logs [] Hsame) in Hsecond.
  rewrite (flat_map_matches_ext fs fs1 pats logs Hsame) in Hsecond.
  fold all in Hsecond. rewrite Hsecond. cbn [fst snd st_fs].
  split; [exact Hlogs1|]. split; [exact Hzips1|]. split; [reflexivity|].
  intro q. subst fs1. unfold after_reports.
  destruct (truthy all); [|reflexivity].
  rewrite !lookup_after_write, !writable_after_write.
  destruct (str_eqb output_html q && writable fs output_html);
    [reflexivity|].
  destruct (str_eqb output_txt q && writable fs output_txt); reflexivity.
Qed.

Lemma second_run_changes_nothing_witness :
  fst (process_all_log_files (txt "/logs") [txt "ccp"] (txt "/logs/r.txt")
         (txt "/logs/r.html") None true None
         (State (st_fs (snd (process_all_log_files
                               (txt "/logs") [txt "ccp"] (txt "/logs/r.txt")
                               (txt "/logs/r.html") None true None
                               (State two_plain_logs [])))) []))
  = fst (process_all_log_files (txt "/logs") [txt "ccp"] (txt "/logs/r.txt")
           (txt "/logs/r.html") None true None (State two_plain_logs [])).
Proof.
  apply (second_run_changes_nothing
           (txt "/logs") [txt "ccp"] (txt "/logs/r") None true None
           two_plain_logs [] [] eq_refl eq_refl).
Defined.

(* ================================================================= *)
(** ** Characters beyond ASCII *)

(** X27.  Letters and white space beyond ASCII.  Case is ignored on
    the accented letters as on the ASCII ones: the keyword [caf]
    followed by the small e with acute accent selects the line [CAF],
    capital E with acute accent, [ ouvert], and the term made of the
    small letter is highlighted in the text made of the capital one.
    The multiplication and the division sign (U+00D7, U+00F7), which
    lie 32 apart like a pair of letters, are not a pair.  The no-break
    space and the next-line control are stripped with the other white
    space.  An accented letter is a word character, so the bounded
    pattern of [match] finds nothing when the small e with acute
    accent stands right before [match]; the multiplication sign is
    none, so the pattern finds [match] right after it. *)
Theorem accented_letters_are_letters :
  (forall keyword_patterns,
      compile_keyword_patterns [txt "caf" ++ [e_acute]]
      = Some keyword_patterns ->
      filter_lines (txt "menu.LOG") keyword_patterns 1
        [txt "the" ++ [newline];
         txt "CAF" ++ E_acute :: txt " ouvert" ++ [newline]]
      = [(txt "menu.LOG", 2, txt "CAF" ++ E_acute :: txt " ouvert")]) /\
  highlight_text [E_acute] (Some [([e_acute], YELLOW)]) false
  = Some (colored YELLOW [E_acute]) /\
  highlight_text [E_acute] (Some [([e_acute], YELLOW)]) true
  = Some (span (txt "highlight") [E_acute]) /\
  (forall keyword_patterns,
      compile_keyword_patterns [["215"%char]] = Some keyword_patterns ->
      any_pattern_matches keyword_patterns ["247"%char] = false) /\
  strip ("160"%char :: txt " x " ++ ["133"%char; newline]) = txt "x" /\
  word_pattern (txt "match") = Some (bounded (txt "match")) /\
  Re.search (bounded (txt "match")) (e_acute :: txt "match") = None /\
  Re.search (bounded (txt "match")) ("215"%char :: txt "match") = Some (1, 5).
Proof.
  split; [|repeat split].
  intros keyword_patterns H. rewrite compile_keyword_patterns_ok in H.
  injection H as <-. reflexivity.
  intros keyword_patterns H. rewrite compile_keyword_patterns_ok in H.
  injection H as <-. reflexivity.
Qed.

